(** * A shallow embedding of the pipeline-tools CD job manager

    The Go sources modelled here are
    - [cd/manager/aws/ecs.go]: [Ecs.CheckTask] and [Ecs.PopulateLayout],
      and [LaunchService], [LaunchTask], [UpdateService], [CheckService],
      [GetRegistryUri], [parseEcsFailures] and [PrintJob];
    - the E2E test job state machine ([e2eTestJob.AdvanceJob],
      [startE2eTests], [startE2eTest], [checkE2eTests]);
    - the deploy job constructor [DeployJob] and state machine
      ([deployJob.AdvanceJob], [checkEnv], [updateEnv]);
    - [NewJobManager]'s configuration;
    - the job manager ([processJobs] policy step, [processForceDeployJobs],
      [processDeployJobs], [processTestJobs], [processWorkflowJobs],
      [processAnchorJobs], [processVxAnchorJobs], [advanceJob],
      [postProcessJob], [NewJob]).

    Collaborators that the code only reaches through Go interfaces
    ([manager.Database], [manager.Deployment], the ECS client, the clock)
    are records of functions: every call to them is answered by the
    record, so the theorems hold for every behaviour of the collaborator.
    Calls the code makes are recorded in a trace, in program order. *)

From Stdlib Require Import ZArith String Ascii List Bool Lia.
From stdpp Require Import base gmap strings list pretty.

Open Scope string_scope.
Set Warnings "-register-all".

(* ------------------------------------------------------------------ *)
(** ** Data model: [job.JobState] and the open [Params] map *)

Inductive JobType :=
| JobType_Deploy
| JobType_Anchor
| JobType_TestE2E
| JobType_TestSmoke
| JobType_Workflow.

Inductive JobStage :=
| JobStage_Queued
| JobStage_Dequeued
| JobStage_Started
| JobStage_Waiting
| JobStage_Skipped
| JobStage_Canceled
| JobStage_Completed
| JobStage_Failed.

#[global] Instance JobType_eq_dec : EqDecision JobType.
Proof. solve_decision. Defined.
#[global] Instance JobStage_eq_dec : EqDecision JobStage.
Proof. solve_decision. Defined.

(** A layout as [PopulateLayout] builds it: [cluster -> service -> nil].
    A cluster entry is [None] when the Go code stores a nil
    [map[string]interface{}] under the cluster key, and [Some services]
    otherwise; the services map to the untyped [nil] ([unit]). *)
Abbreviation Layout := (gmap string (option (gmap string unit))).

(** The dynamic values stored in [Params map[string]interface{}], as far
    as the modelled code stores or inspects them. *)
Inductive Value :=
| VString (s : string)
| VBool (b : bool)
| VInt (z : Z)
| VLayout (l : Layout)
| VMap (kvs : list (string * Value))
| VOther.

Record JobState := mkJobState {
  JobId : string;
  JType : JobType;
  Stage : JobStage;
  Ts : Z;  (** nanoseconds; 0 is Go's zero [time.Time] *)
  Params : gmap string Value
}.

Definition with_stage (js : JobState) (s : JobStage) : JobState :=
  mkJobState (JobId js) (JType js) s (Ts js) (Params js).
Definition with_ts (js : JobState) (t : Z) : JobState :=
  mkJobState (JobId js) (JType js) (Stage js) t (Params js).
Definition with_param (js : JobState) (k : string) (v : Value) : JobState :=
  mkJobState (JobId js) (JType js) (Stage js) (Ts js) (<[k := v]> (Params js)).

(** Parameter keys (constants of the [job]/[manager] packages). *)
Definition DeployJobParam_Component := "component".
Definition DeployJobParam_Sha := "sha".
Definition DeployJobParam_ShaTag := "shaTag".
Definition DeployJobParam_Force := "force".
Definition DeployJobParam_Rollback := "rollback".
Definition JobParam_Source := "source".
Definition JobParam_Error := "error".
Definition JobParam_Start := "start".
Definition JobParam_Layout := "layout".
Definition JobParam_Manual := "manual".
Definition DeployJobTarget_Rollback := "rollback".
Definition Error_Timeout := "timeout".
Definition ServiceName := "cd-manager".

Definition DeployComponent_Ceramic := "ceramic".
Definition DeployComponent_Ipfs := "ipfs".
Definition DeployComponent_Cas := "cas".

(** Go's [v, _ := m[k].(bool)]: the zero value [false] when the key is
    absent or holds something else. *)
Definition param_bool (p : gmap string Value) (k : string) : bool :=
  match p !! k with Some (VBool b) => b | _ => false end.

(** Go's [v, found := m[k].(string)]. *)
Definition param_string (p : gmap string Value) (k : string) : option string :=
  match p !! k with Some (VString s) => Some s | _ => None end.

(** Go's [v, found := m[k].(manager.Layout)]. *)
Definition param_layout (p : gmap string Value) (k : string) : option Layout :=
  match p !! k with Some (VLayout l) => Some l | _ => None end.

(** Go's [m[k]] on a [map[K]string]: the zero value [""] when absent. *)
Definition map_index (m : gmap string string) (k : string) : string :=
  default "" (m !! k).

(** Results of fallible calls: [(T, error)]. *)
Inductive result (A : Type) :=
| Ok (a : A)
| Err (e : string).
Arguments Ok {A} a.
Arguments Err {A} e.

(* ------------------------------------------------------------------ *)
(** ** A state monad with Go panics *)

Inductive goresult (A : Type) :=
| GoVal (a : A)
| GoPanic (msg : string).
Arguments GoVal {A} a.
Arguments GoPanic {A} msg.

Definition St (S A : Type) : Type := S -> S * goresult A.

#[global] Instance St_ret S : MRet (St S) := fun A a s => (s, GoVal a).
#[global] Instance St_bind S : MBind (St S) := fun A B f m s =>
  match m s with
  | (s', GoVal a) => f a s'
  | (s', GoPanic msg) => (s', GoPanic msg)
  end.

Definition go_panic {S A} (msg : string) : St S A := fun s => (s, GoPanic msg).

(** Running a computation: final state and outcome. *)
Definition run {S A} (m : St S A) (s : S) : S * goresult A := m s.

(** A trace of calls, appended in program order. *)
Definition emit {E} (e : E) : St (list E) unit := fun l => ((l ++ [e])%list, GoVal tt).

(** Go's [v := m[k].(string)] without the [ok] result: a panic when the
    key is absent or holds a non-string. *)
Definition assert_string {S} (p : gmap string Value) (k : string) : St S string :=
  match param_string p k with
  | Some s => mret s
  | None => go_panic "interface conversion: interface {} is not string"
  end.

(* ------------------------------------------------------------------ *)
(** ** [cd/manager/aws/ecs.go] *)

Module Ecs.

(** [types.Task], reduced to the field [CheckTask] reads. *)
Record Task := mkTask { LastStatus : string }.

Definition DesiredStatusRunning := "RUNNING".
Definition DesiredStatusStopped := "STOPPED".

(** The ECS client call [DescribeTasks(cluster, taskArns)]. *)
Definition DescribeTasksFn := string -> list string -> result (list Task).

(** The loop over [descOutput.Tasks]. *)
Fixpoint all_in_status (tasks : list Task) (checkStatus : string) : bool :=
  match tasks with
  | [] => true
  | task :: rest =>
      if negb (String.eqb (LastStatus task) checkStatus) then false
      else all_in_status rest checkStatus
  end.

(** [Ecs.CheckTask(running, cluster, taskArn...) (bool, error)]. *)
Definition CheckTask (DescribeTasks : DescribeTasksFn) (running : bool)
    (cluster : string) (taskArn : list string) : bool * option string :=
  match DescribeTasks cluster taskArn with
  | Err e => (false, Some e)
  | Ok tasks =>
      let checkStatus :=
        if running then DesiredStatusRunning else DesiredStatusStopped in
      if Nat.ltb 0 (length tasks) then (all_in_status tasks checkStatus, None)
      else (false, None)
  end.

Inductive EnvType := EnvType_Dev | EnvType_Qa | EnvType_Tnet | EnvType_Prod.

#[global] Instance EnvType_eq_dec : EqDecision EnvType.
Proof. solve_decision. Defined.

(** [Ecs.PopulateLayout(component)]: [env] is [os.Getenv("ENV")] and
    [eenv] the adapter's own [e.env]. *)
Definition PopulateLayout (env : string) (eenv : EnvType) (component : string)
    : result Layout :=
  let ServiceSuffix_CeramicNode := "node" in
  let ServiceSuffix_CeramicGateway := "gateway" in
  let ServiceSuffix_Elp11CeramicNode := "elp-1-1-node" in
  let ServiceSuffix_Elp12CeramicNode := "elp-1-2-node" in
  let ServiceSuffix_IpfsNode := "ipfs-nd" in
  let ServiceSuffix_IpfsGateway := "ipfs-gw" in
  let ServiceSuffix_Elp11IpfsNode := "elp-1-1-ipfs-nd" in
  let ServiceSuffix_Elp12IpfsNode := "elp-1-2-ipfs-nd" in
  let ServiceSuffix_CasApi := "api" in
  let ServiceSuffix_CasAnchor := "anchor" in
  let globalPrefix := "ceramic" in
  let privateCluster := globalPrefix ++ "-" ++ env in
  let publicCluster := globalPrefix ++ "-" ++ env ++ "-ex" in
  let casCluster := globalPrefix ++ "-" ++ env ++ "-cas" in
  let layouts : option (option (gmap string unit) * option (gmap string unit)
                        * option (gmap string unit)) :=
    if String.eqb component DeployComponent_Ceramic then
      let pub := <[publicCluster ++ "-" ++ ServiceSuffix_CeramicGateway := tt]>
                 (<[publicCluster ++ "-" ++ ServiceSuffix_CeramicNode := tt]> ∅) in
      let pub := if decide (eenv = EnvType_Prod) then
                   <[globalPrefix ++ "-" ++ ServiceSuffix_Elp12CeramicNode := tt]>
                   (<[globalPrefix ++ "-" ++ ServiceSuffix_Elp11CeramicNode := tt]> pub)
                 else pub in
      Some (Some (<[privateCluster ++ "-" ++ ServiceSuffix_CeramicNode := tt]> ∅),
            Some pub,
            Some (<[casCluster ++ "-" ++ ServiceSuffix_CeramicNode := tt]> ∅))
    else if String.eqb component DeployComponent_Ipfs then
      let pub := <[publicCluster ++ "-" ++ ServiceSuffix_IpfsGateway := tt]>
                 (<[publicCluster ++ "-" ++ ServiceSuffix_IpfsNode := tt]> ∅) in
      let pub := if decide (eenv = EnvType_Prod) then
                   <[globalPrefix ++ "-" ++ ServiceSuffix_Elp12IpfsNode := tt]>
                   (<[globalPrefix ++ "-" ++ ServiceSuffix_Elp11IpfsNode := tt]> pub)
                 else pub in
      Some (Some (<[privateCluster ++ "-" ++ ServiceSuffix_IpfsNode := tt]> ∅),
            Some pub,
            Some (<[casCluster ++ "-" ++ ServiceSuffix_IpfsNode := tt]> ∅))
    else if String.eqb component DeployComponent_Cas then
      (* [privateLayout] and [publicLayout] keep their nil zero value *)
      Some (None, None,
            Some (<[casCluster ++ "-" ++ ServiceSuffix_CasAnchor := tt]>
                  (<[casCluster ++ "-" ++ ServiceSuffix_CasApi := tt]> ∅)))
    else None in
  match layouts with
  | None => Err ("deployJob: unexpected component: " ++ component)
  | Some (privateLayout, publicLayout, casLayout) =>
      Ok (<[casCluster := casLayout]>
          (<[publicCluster := publicLayout]>
           (<[privateCluster := privateLayout]> ∅)))
  end.

End Ecs.

(* ------------------------------------------------------------------ *)
(** ** Collaborator interfaces *)

(** [manager.Database], reduced to the methods the modelled code calls.
    A method returning only [error] answers [None] on success. *)
Record Database := mkDatabase {
  GetDeployHashes : result (gmap string string);
  GetDeployTags : result (gmap string string);
  UpdateBuildHash : string -> string -> option string;
  UpdateDeployHash : string -> string -> option string;
  Db_AdvanceJob : JobState -> option string;
  UpdateJob : JobState -> option string;
  QueueJob : JobState -> option string
}.

(** [manager.Deployment], reduced likewise. [LaunchService] receives
    cluster, service, family, container and the overrides map. *)
Record Deployment := mkDeployment {
  GenerateEnvLayout : string -> result Layout;
  UpdateEnv : Layout -> string -> option string;
  CheckEnv : Layout -> result bool;
  LaunchService : string -> string -> string -> string -> gmap string string
                  -> result string;
  D_CheckTask : bool -> string -> string -> result bool
}.

(* ------------------------------------------------------------------ *)
(** ** The E2E test job ([e2eTestJob]) *)

Module E2e.

Definition Second : Z := 1000000000.
(** [FailureTime = 2 * time.Hour], in nanoseconds. *)
Definition FailureTime : Z := 2 * 3600 * Second.

Definition E2eTest_PrivatePublic := "private-public".
Definition E2eTest_LocalClientPublic := "local_client-public".
Definition E2eTest_LocalNodePrivate := "local_node-private".

(** The calls the job makes. *)
Inductive Call :=
| CLaunchService (config : string)
| CCheckTask (isRunning : bool) (taskArn : string)
| CUpdateJob (js : JobState).

Section E2eJob.
Variable db : Database.
Variable d : Deployment.
Variable getenv : string -> string.
(** [time.Now()] for this advancement. *)
Variable now : Z.
(** [manager.PrintJob(jobState)]; the helper lives in the [manager]
    package, so every text is allowed. *)
Variable PrintJob : JobState -> string.

Definition overrides (config : string) : gmap string string :=
  <["AWS_REGION" := getenv "AWS_REGION"]>
  (<["AWS_SECRET_ACCESS_KEY" := getenv "AWS_SECRET_ACCESS_KEY"]>
   (<["AWS_ACCESS_KEY_ID" := getenv "AWS_ACCESS_KEY_ID"]>
    (<["ETH_RPC_URL" := getenv "ETH_RPC_URL"]>
     (<["NODE_ENV" := config]> ∅)))).

(** [startE2eTest]: the task id is written into the (shared) params map. *)
Definition startE2eTest (js : JobState) (config : string)
    : St (list Call) (JobState * option string) :=
  emit (CLaunchService config);;
  match LaunchService d "ceramic-qa-tests" "ceramic-qa-tests-e2e_tests"
          "ceramic-qa-tests-e2e_tests" "e2e_tests" (overrides config) with
  | Err e => mret (js, Some e)
  | Ok id => mret (with_param js config (VString id), None)
  end.

Definition startE2eTests (js : JobState) : St (list Call) (JobState * option string) :=
  '(js, err) ← startE2eTest js E2eTest_PrivatePublic;
  match err with
  | Some e => mret (js, Some e)
  | None =>
      '(js, err) ← startE2eTest js E2eTest_LocalClientPublic;
      match err with
      | Some e => mret (js, Some e)
      | None => startE2eTest js E2eTest_LocalNodePrivate
      end
  end.

Definition checkOne (js : JobState) (isRunning : bool) (config : string)
    : St (list Call) (result bool) :=
  arn ← assert_string (Params js) config;
  emit (CCheckTask isRunning arn);;
  mret (D_CheckTask d isRunning "ceramic-qa-tests" arn).

(** [checkE2eTests(isRunning) (bool, error)]. *)
Definition checkE2eTests (js : JobState) (isRunning : bool)
    : St (list Call) (bool * option string) :=
  r1 ← checkOne js isRunning E2eTest_PrivatePublic;
  match r1 with
  | Err e => mret (false, Some e)
  | Ok privatePublic =>
      r2 ← checkOne js isRunning E2eTest_LocalClientPublic;
      match r2 with
      | Err e => mret (false, Some e)
      | Ok localClientPublic =>
          r3 ← checkOne js isRunning E2eTest_LocalNodePrivate;
          match r3 with
          | Err e => mret (false, Some e)
          | Ok localNodePrivate =>
              mret (privatePublic && localClientPublic && localNodePrivate, None)
          end
      end
  end.

(** The common tail of [AdvanceJob]: stamp [Ts] and persist. *)
Definition finish (js : JobState) : St (list Call) (option string) :=
  let js := with_ts js now in
  emit (CUpdateJob js);;
  mret (UpdateJob db js).

(** [e2eTestJob.AdvanceJob() error]. *)
Definition AdvanceJob (js : JobState) : St (list Call) (option string) :=
  if decide (Stage js = JobStage_Queued) then
    r ← startE2eTests js;
    let '(js, err) := r in
    match err with
    | Some _ => finish (with_stage js JobStage_Failed)
    | None => finish (with_stage js JobStage_Started)
    end
  else if Z.gtb (now - FailureTime) (Ts js) then
    finish (with_stage js JobStage_Failed)
  else if decide (Stage js = JobStage_Started) then
    r ← checkE2eTests js true;
    let '(running, err) := (r : bool * option string) in
    match err with
    | Some _ => finish (with_stage js JobStage_Failed)
    | None => if running then finish (with_stage js JobStage_Waiting) else mret None
    end
  else if decide (Stage js = JobStage_Waiting) then
    r ← checkE2eTests js false;
    let '(stopped, err) := (r : bool * option string) in
    match err with
    | Some _ => finish (with_stage js JobStage_Failed)
    | None => if stopped then finish (with_stage js JobStage_Completed) else mret None
    end
  else mret (Some ("anchorJob: unexpected state: " ++ PrintJob js)).

End E2eJob.

End E2e.

(* ------------------------------------------------------------------ *)
(** ** The deploy job ([deployJob]) *)

Module Deploy.

(** The calls the job makes. *)
Inductive Call :=
| CGetDeployHashes
| CUpdateEnv (layout : Layout) (sha : string)
| CUpdateBuildHash (component sha : string)
| CCheckEnv (layout : Layout)
| CGenerateEnvLayout (component : string)
| CUpdateDeployHash (component sha : string)
| CNotifyJob (js : JobState)
| CAdvanceJob (js : JobState).

(** The [deployJob] struct, without its collaborators. *)
Record deployJob := mkDeployJob {
  state : JobState;
  component : string;
  sha : string;
  manual : bool
}.

Section DeployJob.
Variable db : Database.
Variable d : Deployment.
(** [time.Now().UnixMilli()] for this advancement. *)
Variable nowMs : Z.
(** [manager.IsTimedOut(state, manager.DefaultFailureTime)]; the helper
    lives in the [manager] package, so every answer is allowed. *)
Variable IsTimedOut : JobState -> bool.
(** [manager.PrintJob(jobState)], also of the [manager] package. *)
Variable PrintJob : JobState -> string.

(** [deployJob.updateEnv(commitHash) error]. *)
Definition updateEnv (dj : deployJob) (js : JobState) (commitHash : string)
    : St (list Call) (option string) :=
  match param_layout (Params js) JobParam_Layout with
  | Some layout =>
      emit (CUpdateEnv layout commitHash);;
      mret (UpdateEnv d layout commitHash)
  | None => mret (Some "updateEnv: missing env layout")
  end.

(** [deployJob.checkEnv() (bool, error)]. *)
Definition checkEnv (dj : deployJob) : St (list Call) (result bool) :=
  match param_layout (Params (state dj)) JobParam_Layout with
  | None => mret (Err "checkEnv: missing env layout")
  | Some layout =>
      emit (CCheckEnv layout);;
      match CheckEnv d layout with
      | Err e => mret (Err e)
      | Ok deployed =>
          if negb deployed || negb (String.eqb (component dj) DeployComponent_Ipfs)
          then mret (Ok deployed)
          else
            emit (CGenerateEnvLayout DeployComponent_Ceramic);;
            match GenerateEnvLayout d DeployComponent_Ceramic with
            | Err e => mret (Err e)
            | Ok ceramicLayout =>
                emit (CCheckEnv ceramicLayout);;
                mret (CheckEnv d ceramicLayout)
            end
      end
  end.

Definition notified (s : JobStage) : bool :=
  bool_decide (s = JobStage_Skipped) || bool_decide (s = JobStage_Started)
  || bool_decide (s = JobStage_Failed) || bool_decide (s = JobStage_Completed).

(** The common tail of [AdvanceJob]: notify, then persist the stage. *)
Definition finish (js : JobState) : St (list Call) (JobState * option string) :=
  (if notified (Stage js) then emit (CNotifyJob js) else mret tt);;
  emit (CAdvanceJob js);;
  mret (js, Db_AdvanceJob db js).

Definition fail_with (js : JobState) (e : string) : JobState :=
  with_param (with_stage js JobStage_Failed) JobParam_Error (VString e).

(** [deployJob.AdvanceJob() (manager.JobState, error)]. *)
Definition AdvanceJob (dj : deployJob) : St (list Call) (JobState * option string) :=
  let js := state dj in
  if decide (Stage js = JobStage_Queued) then
    emit CGetDeployHashes;;
    match GetDeployHashes db with
    | Err e => finish (fail_with js e)
    | Ok deployHashes =>
        if negb (manual dj) && String.eqb (sha dj) (map_index deployHashes (component dj))
        then finish (with_stage js JobStage_Skipped)
        else
          err ← updateEnv dj js (sha dj);
          match err with
          | Some e => finish (fail_with js e)
          | None =>
              let js := with_param (with_stage js JobStage_Started)
                          JobParam_Start (VInt nowMs) in
              emit (CUpdateBuildHash (component dj) (sha dj));;
              (* a failed build hash update is only logged *)
              let _ := UpdateBuildHash db (component dj) (sha dj) in
              finish js
          end
    end
  else if IsTimedOut js then
    finish (with_param (with_stage js JobStage_Failed) JobParam_Error (VString Error_Timeout))
  else if decide (Stage js = JobStage_Started) then
    r ← checkEnv dj;
    match r with
    | Err e => finish (fail_with js e)
    | Ok true =>
        emit (CUpdateDeployHash (component dj) (sha dj));;
        (* a failed deploy hash update is only logged *)
        let _ := UpdateDeployHash db (component dj) (sha dj) in
        finish (with_stage js JobStage_Completed)
    | Ok false => mret (js, None)
    end
  else mret (js, Some ("deployJob: unexpected state: " ++ PrintJob js)).

End DeployJob.

End Deploy.

(* ------------------------------------------------------------------ *)
(** ** The job manager ([jobmanager.JobManager]) *)

Module Scheduler.

(** What the manager does to the outside world, in program order:
    [updateJobStage] calls, the launch of an advancement task for a job
    ([advanceJob]; the task itself is modelled in [Task]), and
    [QueueJob] calls made by [NewJob]. *)
Inductive Action :=
| AUpdateStage (js : JobState) (stage : JobStage) (err : option string)
| AAdvance (js : JobState)
| AQueueJob (js : JobState).

(** The manager's mutable world: the job cache (by job id), a counter
    for fresh UUIDs, and the trace. *)
Record World := mkWorld {
  cache : gmap string JobState;
  fresh : nat;
  trace : list Action
}.

(** The [JobManager] fields and the helpers of other packages it calls.
    [IsActiveJob] ([job.IsActiveJob]), [IsV5WorkerJob]
    ([manager.IsV5WorkerJob]) and [AdvanceStage] (the error returned by
    [manager.AdvanceJob], which persists a stage change) are not part of
    the modelled sources, so they are left open. *)
Record Manager := mkManager {
  db : Database;
  maxAnchorJobs : Z;
  minAnchorJobs : Z;
  env : string;
  IsActiveJob : JobState -> bool;
  IsV5WorkerJob : JobState -> bool;
  AdvanceStage : JobState -> JobStage -> option string -> option string;
  NewUuid : nat -> string;
  Now : Z
}.

Definition Minute : Z := 60 * 1000000000.
(** [manager.DefaultWaitTime]: five minutes (see the comment in
    [postProcessJob]). *)
Definition DefaultWaitTime : Z := 5 * Minute.

Definition tests_Name := "Post-Deployment Tests".
Definition tests_Org := "3box".
Definition tests_Repo := "ceramic-tests".
Definition tests_Ref := "main".
Definition tests_Workflow := "run-durable.yml".
Definition tests_Selector := "fast".

Definition is_type (t : JobType) (js : JobState) : bool := bool_decide (JType js = t).

Definition act (a : Action) : St World unit := fun w =>
  (mkWorld (cache w) (fresh w) (trace w ++ [a])%list, GoVal tt).

(** [m.cache.JobsByMatcher(f)]: a snapshot of the matching cache entries. *)
Definition JobsByMatcher (f : JobState -> bool) : St World (list JobState) := fun w =>
  (w, GoVal (List.filter f (map snd (map_to_list (cache w))))).

(** Go's [strings.Split(s, sep)] for a one-byte separator. *)
Fixpoint Split (sep : ascii) (s : string) : list string :=
  match s with
  | EmptyString => [""]
  | String c rest =>
      if Ascii.eqb c sep then "" :: Split sep rest
      else match Split sep rest with
           | [] => [String c ""]
           | x :: xs => String c x :: xs
           end
  end.

Section Manager.
Variable m : Manager.

(** [m.updateJobStage(jobState, jobStage, e) error]. A stage change that
    [manager.AdvanceJob] persists is visible in the cache afterwards. *)
Definition updateJobStage (js : JobState) (s : JobStage) (e : option string)
    : St World (option string) := fun w =>
  let w1 := mkWorld (cache w) (fresh w) (trace w ++ [AUpdateStage js s e])%list in
  match AdvanceStage m js s e with
  | None => (mkWorld (<[JobId js := with_stage js s]> (cache w1)) (fresh w1) (trace w1),
             GoVal None)
  | Some err => (w1, GoVal (Some err))
  end.

(** [m.advanceJob(jobState)]: launch one advancement task. *)
Definition advanceJob (js : JobState) : St World unit := act (AAdvance js).

Fixpoint advanceJobs (jobs : list JobState) : St World unit :=
  match jobs with
  | [] => mret tt
  | js :: rest => advanceJob js;; advanceJobs rest
  end.

Definition getActiveDeploys : St World (list JobState) :=
  JobsByMatcher (fun js => IsActiveJob m js && is_type JobType_Deploy js).

(** [m.NewJob(jobState) (job.JobState, error)]. *)
Definition NewJob (js : JobState) : St World (JobState * option string) := fun w =>
  let '(id, n) := if String.eqb (JobId js) "" then (NewUuid m (fresh w), S (fresh w))
                  else (JobId js, fresh w) in
  let ts := if Z.eqb (Ts js) 0 then Now m else Ts js in
  let js := mkJobState id (JType js) JobStage_Queued ts (Params js) in
  (mkWorld (cache w) n (trace w ++ [AQueueJob js])%list, GoVal (js, QueueJob (db m) js)).

(** *** [processForceDeployJobs] *)

(** The first loop: the map [forceDeploys], component to job. *)
Fixpoint collectForceDeploys (dequeuedJobs : list JobState)
    (forceDeploys : gmap string JobState) : St World (gmap string JobState) :=
  match dequeuedJobs with
  | [] => mret forceDeploys
  | j :: rest =>
      if is_type JobType_Deploy j && param_bool (Params j) DeployJobParam_Force then
        c ← assert_string (Params j) DeployJobParam_Component;
        collectForceDeploys rest (<[c := j]> forceDeploys)
      else collectForceDeploys rest forceDeploys
  end.

(** The second loop; [true] is the early [return true]. *)
Fixpoint skipForDeploys (forceDeploys : gmap string JobState)
    (dequeuedJobs : list JobState) : St World bool :=
  match dequeuedJobs with
  | [] => mret false
  | j :: rest =>
      if is_type JobType_Deploy j then
        c ← assert_string (Params j) DeployJobParam_Component;
        match forceDeploys !! c with
        | Some forceDeploy =>
            if negb (String.eqb (JobId j) (JobId forceDeploy)) then
              err ← updateJobStage j JobStage_Skipped None;
              match err with
              | Some _ => mret true
              | None => skipForDeploys forceDeploys rest
              end
            else skipForDeploys forceDeploys rest
        | None => skipForDeploys forceDeploys rest
        end
      else skipForDeploys forceDeploys rest
  end.

(** The third loop, over the active deploys. *)
Fixpoint cancelForDeploys (forceDeploys : gmap string JobState)
    (activeDeploys : list JobState) : St World bool :=
  match activeDeploys with
  | [] => mret false
  | a :: rest =>
      c ← assert_string (Params a) DeployJobParam_Component;
      match forceDeploys !! c with
      | Some _ =>
          err ← updateJobStage a JobStage_Canceled None;
          match err with
          | Some _ => mret true
          | None => cancelForDeploys forceDeploys rest
          end
      | None => cancelForDeploys forceDeploys rest
      end
  end.

Definition processForceDeployJobs (dequeuedJobs : list JobState) : St World bool :=
  forceDeploys ← collectForceDeploys dequeuedJobs ∅;
  if Nat.ltb 0 (size forceDeploys) then
    aborted ← skipForDeploys forceDeploys dequeuedJobs;
    if (aborted : bool) then mret true else
    activeDeploys ← getActiveDeploys;
    aborted ← cancelForDeploys forceDeploys activeDeploys;
    if (aborted : bool) then mret true else
    advanceJobs (map snd (map_to_list forceDeploys));;
    mret true
  else mret false.

(** *** [processDeployJobs] *)

Definition is_test (js : JobState) : bool :=
  is_type JobType_TestE2E js || is_type JobType_TestSmoke js.

(** The collapsing loop; [None] is the early [return true]. *)
Fixpoint collapseDeploys (deployComponent : string) (deployJob : JobState)
    (rest : list JobState) : St World (option JobState) :=
  match rest with
  | [] => mret (Some deployJob)
  | j :: rest' =>
      if is_test j then mret (Some deployJob)
      else if is_type JobType_Deploy j then
        c ← assert_string (Params j) DeployJobParam_Component;
        if String.eqb c deployComponent then
          err ← updateJobStage deployJob JobStage_Skipped None;
          match err with
          | Some _ => mret None
          | None => collapseDeploys deployComponent j rest'
          end
        else collapseDeploys deployComponent deployJob rest'
      else collapseDeploys deployComponent deployJob rest'
  end.

Definition processDeployJobs (dequeuedJobs : list JobState) : St World bool :=
  active ← JobsByMatcher (IsActiveJob m);
  if Nat.eqb (length active) 0 then
    match dequeuedJobs with
    | [] => go_panic "runtime error: index out of range [0] with length 0"
    | deployJob :: rest =>
        deployComponent ← assert_string (Params deployJob) DeployJobParam_Component;
        r ← collapseDeploys deployComponent deployJob rest;
        match r with
        | None => mret true
        | Some dj => advanceJob dj;; mret true
        end
    end
  else mret false.

(** *** [processTestJobs] and [processWorkflowJobs] *)

(** [map[job.JobType]job.JobState] as an association list. *)
Fixpoint assoc_lookup (t : JobType) (l : list (JobType * JobState)) : option JobState :=
  match l with
  | [] => None
  | (t', js) :: rest => if bool_decide (t = t') then Some js else assoc_lookup t rest
  end.

Fixpoint assoc_insert (t : JobType) (js : JobState) (l : list (JobType * JobState))
    : list (JobType * JobState) :=
  match l with
  | [] => [(t, js)]
  | (t', js') :: rest =>
      if bool_decide (t = t') then (t, js) :: rest else (t', js') :: assoc_insert t js rest
  end.

Fixpoint collapseTests (dequeuedTests : list (JobType * JobState))
    (dequeuedJobs : list JobState) : St World (option (list (JobType * JobState))) :=
  match dequeuedJobs with
  | [] => mret (Some dequeuedTests)
  | j :: rest =>
      if is_type JobType_Deploy j then mret (Some dequeuedTests)
      else if is_test j then
        match assoc_lookup (JType j) dequeuedTests with
        | Some jobToSkip =>
            err ← updateJobStage jobToSkip JobStage_Skipped None;
            match err with
            | Some _ => mret None
            | None => collapseTests (assoc_insert (JType j) j dequeuedTests) rest
            end
        | None => collapseTests (assoc_insert (JType j) j dequeuedTests) rest
        end
      else collapseTests dequeuedTests rest
  end.

Definition processTestJobs (dequeuedJobs : list JobState) : St World bool :=
  activeDeploys ← getActiveDeploys;
  if Nat.eqb (length activeDeploys) 0 then
    r ← collapseTests [] dequeuedJobs;
    match r with
    | None => mret true
    | Some dequeuedTests =>
        advanceJobs (map snd dequeuedTests);;
        mret (Nat.ltb 0 (length dequeuedTests))
    end
  else mret false.

Fixpoint workflowsBeforeDeploy (dequeuedJobs : list JobState) : list JobState :=
  match dequeuedJobs with
  | [] => []
  | j :: rest =>
      if is_type JobType_Deploy j then []
      else if is_type JobType_Workflow j then j :: workflowsBeforeDeploy rest
      else workflowsBeforeDeploy rest
  end.

Definition processWorkflowJobs (dequeuedJobs : list JobState) : St World bool :=
  activeDeploys ← getActiveDeploys;
  if Nat.eqb (length activeDeploys) 0 then
    let dequeuedWorkflows := workflowsBeforeDeploy dequeuedJobs in
    advanceJobs dequeuedWorkflows;;
    mret (Nat.ltb 0 (length dequeuedWorkflows))
  else mret false.

(** *** [processAnchorJobs] and [processVxAnchorJobs] *)

Definition in_partition (processV5Jobs : bool) (js : JobState) : bool :=
  is_type JobType_Anchor js && Bool.eqb processV5Jobs (IsV5WorkerJob m js).

(** The admission loop, with [numActive = len(activeAnchors)];
    [None] is the early [return true]. *)
Fixpoint admitAnchors (processV5Jobs : bool) (numActive : nat)
    (dequeuedAnchors : list JobState) (dequeuedJobs : list JobState)
    : St World (option (list JobState)) :=
  match dequeuedJobs with
  | [] => mret (Some dequeuedAnchors)
  | j :: rest =>
      if in_partition processV5Jobs j then
        if IsV5WorkerJob m j || Z.eqb (maxAnchorJobs m) (-1)
           || Z.ltb (Z.of_nat (numActive + length dequeuedAnchors)) (maxAnchorJobs m)
        then admitAnchors processV5Jobs numActive (dequeuedAnchors ++ [j]) rest
        else
          err ← updateJobStage j JobStage_Skipped None;
          match err with
          | Some _ => mret None
          | None => admitAnchors processV5Jobs numActive dequeuedAnchors rest
          end
      else admitAnchors processV5Jobs numActive dequeuedAnchors rest
  end.

Definition anchorJobRequest : JobState :=
  mkJobState "" JobType_Anchor JobStage_Queued 0
    (<[JobParam_Source := VString ServiceName]> ∅).

(** The top-up loop: [n] calls of [NewJob]; failures are only logged. *)
Fixpoint queueAnchorJobs (n : nat) : St World unit :=
  match n with
  | O => mret tt
  | S n' => NewJob anchorJobRequest;; queueAnchorJobs n'
  end.

Definition processVxAnchorJobs (dequeuedJobs : list JobState) (processV5Jobs : bool)
    : St World bool :=
  activeAnchors ← JobsByMatcher (fun js => IsActiveJob m js && in_partition processV5Jobs js);
  r ← admitAnchors processV5Jobs (length activeAnchors) [] dequeuedJobs;
  match r with
  | None => mret true
  | Some dequeuedAnchors =>
      advanceJobs dequeuedAnchors;;
      let numJobs := length dequeuedAnchors in
      (if negb processV5Jobs
       then queueAnchorJobs (Z.to_nat (minAnchorJobs m - Z.of_nat numJobs))
       else mret tt);;
      mret (Nat.ltb 0 numJobs)
  end.

(** [return m.processVxAnchorJobs(dequeuedJobs, true) ||
    m.processVxAnchorJobs(dequeuedJobs, false)], with Go's short-circuit. *)
Definition processAnchorJobs (dequeuedJobs : list JobState) : St World bool :=
  activeDeploys ← getActiveDeploys;
  if Nat.eqb (length activeDeploys) 0 then
    v5 ← processVxAnchorJobs dequeuedJobs true;
    if (v5 : bool) then mret true else processVxAnchorJobs dequeuedJobs false
  else mret false.

(** *** The policy step of [processJobs]

    Everything [processJobs] does once [dequeuedJobs :=
    m.db.OrderedJobs(job.JobStage_Dequeued)] is known (the unpaused
    branch, before the final [waitGroup.Wait()]). *)
Definition processDequeued (dequeuedJobs : list JobState) : St World unit :=
  processAnchor ←
    (if Nat.ltb 0 (length dequeuedJobs) then
       forced ← processForceDeployJobs dequeuedJobs;
       if (forced : bool) then mret false
       else match dequeuedJobs with
            | j0 :: _ =>
                if is_type JobType_Deploy j0 then
                  processDeployJobs dequeuedJobs;;
                  e2eTestJobs ← JobsByMatcher
                    (fun js => IsActiveJob m js && is_type JobType_TestE2E js);
                  mret (Nat.ltb 0 (length e2eTestJobs))
                else
                  processTestJobs dequeuedJobs;;
                  processWorkflowJobs dequeuedJobs;;
                  mret true
            | [] => mret true
            end
     else mret true);
  if (processAnchor : bool) then processAnchorJobs dequeuedJobs;; mret tt else mret tt.

(** *** [postProcessJob] *)

Definition testWorkflowRequest : JobState :=
  mkJobState "" JobType_Workflow JobStage_Queued (Now m + DefaultWaitTime)
    (<["inputs" := VMap [("environment", VString (env m));
                         ("testSelector", VString tests_Selector)]]>
     (<["workflow" := VString tests_Workflow]>
      (<["ref" := VString tests_Ref]>
       (<["repo" := VString tests_Repo]>
        (<["org" := VString tests_Org]>
         (<["name" := VString tests_Name]>
          (<[JobParam_Source := VString ServiceName]> ∅))))))).

(** The rollback request; [component] is the string value found under
    the job's component key, which the Go code copies as is. *)
Definition rollbackRequest (component shaTag : string) : JobState :=
  mkJobState "" JobType_Deploy JobStage_Queued 0
    (<[JobParam_Source := VString ServiceName]>
     (<[DeployJobParam_Force := VBool true]>
      (<[DeployJobParam_ShaTag := VString shaTag]>
       (<[DeployJobParam_Sha := VString DeployJobTarget_Rollback]>
        (<[DeployJobParam_Rollback := VBool true]>
         (<[DeployJobParam_Component := VString component]> ∅)))))).

Definition postProcessJob (js : JobState) : St World unit :=
  match JType js with
  | JobType_Deploy =>
      match Stage js with
      | JobStage_Completed => NewJob testWorkflowRequest;; mret tt
      | JobStage_Failed =>
          if param_bool (Params js) DeployJobParam_Rollback then mret tt
          else match param_string (Params js) DeployJobParam_Component with
               | None => mret tt
               | Some component =>
                   match GetDeployTags (db m) with
                   | Err _ => mret tt
                   | Ok deployTags =>
                       match deployTags !! component with
                       | None => mret tt
                       | Some deployTag =>
                           match Split "," deployTag with
                           | shaTag :: _ => NewJob (rollbackRequest component shaTag);; mret tt
                           | [] => go_panic "runtime error: index out of range [0]"
                           end
                       end
                   end
               end
      | _ => mret tt
      end
  | _ => mret tt
  end.

End Manager.

End Scheduler.

(* ------------------------------------------------------------------ *)
(** ** The advancement task ([advanceJob]'s goroutine) *)

Module Task.

Inductive Event :=
| EWaitGroupDone
| EPrintln (line : string)
| EPrintStack
| EUpdateStage (js : JobState) (stage : JobStage) (err : option string)
| ELog (line : string).

Section Task.
(** The error [manager.AdvanceJob] returns for a stage change. *)
Variable AdvanceStage : JobState -> JobStage -> option string -> option string.

(** One advancement task for [jobState]. [body] is how the task body
    ([prepareJobSm], [Advance], [postProcessJob]) ends: normally, or by a
    panic whose value prints as the given text. [stack] is what
    [debug.Stack()] returns in the deferred function. The result is the
    events and whether a panic leaves the goroutine. *)
Definition advanceJob (jobState : JobState) (body : goresult unit) (stack : string)
    : list Event * goresult unit :=
  match body with
  | GoVal _ => ([EWaitGroupDone], GoVal tt)
  | GoPanic r =>
      let evs := [EWaitGroupDone; EPrintln ("Panic while advancing job:  " ++ r);
                  EPrintln "Stack Trace:"; EPrintStack] in
      (* [string(debug.Stack())[:1024]] *)
      if Nat.ltb (String.length stack) 1024 then
        (evs, GoPanic "runtime error: slice bounds out of range")
      else
        let e := "panic: " ++ substring 0 1024 stack in
        let evs := (evs ++ [EUpdateStage jobState JobStage_Failed (Some e)])%list in
        match AdvanceStage jobState JobStage_Failed (Some e) with
        | None => (evs, GoVal tt)
        | Some err => ((evs ++ [ELog ("advanceJob: job update failed after panic: " ++ err)])%list,
                       GoVal tt)
        end
  end.

End Task.

(** The [error] texts of the stage updates among [evs]. *)
Fixpoint failure_errors (evs : list Event) : list string :=
  match evs with
  | [] => []
  | EUpdateStage _ JobStage_Failed (Some e) :: rest => e :: failure_errors rest
  | _ :: rest => failure_errors rest
  end.

End Task.

(* ------------------------------------------------------------------ *)
(** ** The other [Ecs] methods of [cd/manager/aws/ecs.go] *)

Module EcsApi.

(** [types.Failure]: three optional strings. *)
Record Failure := mkFailure {
  FArn : option string;
  FDetail : option string;
  FReason : option string
}.

(** The file's own [ecsFailure] struct. *)
Record ecsFailure := mkEcsFailure {
  arn : string;
  detail : string;
  reason : string
}.

(** [parseEcsFailures]: a zero [ecsFailure] per failure, whose fields
    are then set from the non-nil pointers. *)
Definition parseEcsFailures (ecsFailures : list Failure) : list ecsFailure :=
  map (fun f => mkEcsFailure (default "" (FArn f)) (default "" (FDetail f))
                             (default "" (FReason f))) ecsFailures.

(** [fmt.Errorf("%v", ecsFailures)] for a slice of [ecsFailure]. *)
Definition fmt_failures (fs : list ecsFailure) : string :=
  "[" ++ String.concat " "
           (map (fun f => "{" ++ arn f ++ " " ++ detail f ++ " " ++ reason f ++ "}") fs)
  ++ "]".

(** [types.Deployment] of a service, reduced to the fields read. *)
Record SvcDeployment := mkSvcDeployment {
  DTaskDefinition : option string;
  RunningCount : Z
}.

(** [types.Service], reduced to the fields read; the network
    configuration is passed on untouched, so it is kept opaque. *)
Record Service := mkService {
  NetworkConfiguration : option string;
  STaskDefinition : option string;
  Deployments : list SvcDeployment
}.

Record DescribeServicesOutput := mkDescribeServicesOutput {
  Failures : list Failure;
  Services : list Service
}.

(** [types.ContainerOverride] with its environment pairs. *)
Record ContainerOverride := mkContainerOverride {
  OName : string;
  Environment : list (string * string)
}.

(** [ecs.RunTaskInput], with the fields the code sets. *)
Record RunTaskInput := mkRunTaskInput {
  RTaskDefinition : string;
  RCluster : string;
  Count : Z;
  EnableExecuteCommand : bool;
  LaunchType : string;
  RNetworkConfiguration : option string;
  StartedBy : string;
  Tags : list (string * string);
  Overrides : option (list ContainerOverride)
}.

Record RunTask_Task := mkRunTask_Task { TaskArn : option string }.

(** [types.ContainerDefinition]: the image, and the fields the code
    passes on untouched. *)
Record ContainerDefinition := mkContainerDefinition {
  Image : option string;
  CRest : string
}.

(** [types.TaskDefinition]: [Copied] stands for the fourteen fields
    that [UpdateService] copies into the registration input ([Cpu],
    [EphemeralStorage], ..., [Volumes]); [NotCopied] for the others. *)
Record TaskDefinition := mkTaskDefinition {
  ContainerDefinitions : list ContainerDefinition;
  Family : option string;
  Copied : string;
  NotCopied : string;
  TaskDefinitionArn : option string
}.

Record RegisterTaskDefinitionInput := mkRegisterTaskDefinitionInput {
  RContainerDefinitions : list ContainerDefinition;
  RFamily : option string;
  RCopied : string;
  RTags : list (string * string)
}.

Record UpdateServiceInput := mkUpdateServiceInput {
  UService : string;
  UCluster : string;
  DesiredCount : Z;
  UEnableExecuteCommand : bool;
  ForceNewDeployment : bool;
  UTaskDefinition : option string
}.

(** The ECS and SSM clients. [GetParameter] answers the parameter's
    [Value] pointer; [Unmarshal] is [json.Unmarshal] into an
    [AwsVpcConfiguration], kept opaque. *)
Record Client := mkClient {
  DescribeServices : string -> list string -> result DescribeServicesOutput;
  RunTask : RunTaskInput -> result (list RunTask_Task);
  DescribeTaskDefinition : option string -> result (option TaskDefinition);
  RegisterTaskDefinition : RegisterTaskDefinitionInput -> result (option TaskDefinition);
  EcsUpdateService : UpdateServiceInput -> result unit;
  GetParameter : string -> result (option string);
  Unmarshal : string -> result string
}.

(** The client calls, in program order. *)
Inductive Call :=
| CDescribeServices (cluster : string) (services : list string)
| CRunTask (input : RunTaskInput)
| CDescribeTaskDefinition (arn : option string)
| CRegisterTaskDefinition (input : RegisterTaskDefinitionInput)
| CUpdateService (input : UpdateServiceInput)
| CGetParameter (name : string).

Section Ecs.
Variable c : Client.
(** [e.env] of the adapter, and the [manager.ResourceTag] key. *)
Variable envName : string.
Variable ResourceTag : string.
(** Go's iteration over a map visits its entries in an unspecified
    order: [range] is that order. *)
Variable range : gmap string string -> list (string * string).

Definition nil_deref {A} : St (list Call) A :=
  go_panic "runtime error: invalid memory address or nil pointer dereference".
Definition index_panic {A} : St (list Call) A :=
  go_panic "runtime error: index out of range [0] with length 0".

Definition tags : list (string * string) := [(ResourceTag, envName)].

(** The [if (overrides != nil) && (len(overrides) > 0)] block. *)
Definition overrides_of (container : string) (overrides : gmap string string)
    : option (list ContainerOverride) :=
  if Nat.ltb 0 (size overrides)
  then Some [mkContainerOverride container (range overrides)]
  else None.

(** [*output.Tasks[0].TaskArn]. *)
Definition first_task_arn (tasks : list RunTask_Task) : St (list Call) (result string) :=
  match tasks with
  | [] => index_panic
  | t :: _ => match TaskArn t with Some a => mret (Ok a) | None => nil_deref end
  end.

(** [Ecs.LaunchService(cluster, service, family, container, overrides)]. *)
Definition LaunchService (cluster service family container : string)
    (overrides : gmap string string) : St (list Call) (result string) :=
  emit (CDescribeServices cluster [service]);;
  match DescribeServices c cluster [service] with
  | Err e => mret (Err e)
  | Ok descOutput =>
      if Nat.ltb 0 (length (Failures descOutput)) then
        mret (Err (fmt_failures (parseEcsFailures (Failures descOutput))))
      else
        match Services descOutput with
        | [] => index_panic
        | s0 :: _ =>
            let input := mkRunTaskInput family cluster 1 true "FARGATE"
                           (NetworkConfiguration s0) ServiceName tags
                           (overrides_of container overrides) in
            emit (CRunTask input);;
            match RunTask c input with
            | Err e => mret (Err e)
            | Ok tasks => first_task_arn tasks
            end
        end
  end.

(** [Ecs.LaunchTask(cluster, family, container, vpcConfigParam, overrides)]. *)
Definition LaunchTask (cluster family container vpcConfigParam : string)
    (overrides : gmap string string) : St (list Call) (result string) :=
  emit (CGetParameter vpcConfigParam);;
  match GetParameter c vpcConfigParam with
  | Err e => mret (Err e)
  | Ok None => nil_deref
  | Ok (Some value) =>
      match Unmarshal c value with
      | Err e => mret (Err e)
      | Ok vpcConfig =>
          let input := mkRunTaskInput family cluster 1 true "FARGATE"
                         (Some vpcConfig) ServiceName tags
                         (overrides_of container overrides) in
          emit (CRunTask input);;
          match RunTask c input with
          | Err e => mret (Err e)
          | Ok tasks => first_task_arn tasks
          end
      end
  end.

(** [taskDef.ContainerDefinitions[0].Image = aws.String(image)]. *)
Definition set_first_image (image : string) (cds : list ContainerDefinition)
    : option (list ContainerDefinition) :=
  match cds with
  | [] => None
  | cd :: rest => Some (mkContainerDefinition (Some image) (CRest cd) :: rest)
  end.

(** [Ecs.UpdateService(cluster, service, image)]. *)
Definition UpdateService (cluster service image : string) : St (list Call) (result string) :=
  emit (CDescribeServices cluster [service]);;
  match DescribeServices c cluster [service] with
  | Err e => mret (Err e)
  | Ok descOutput =>
      if Nat.ltb 0 (length (Failures descOutput)) then
        mret (Err (fmt_failures (parseEcsFailures (Failures descOutput))))
      else
        match Services descOutput with
        | [] => index_panic
        | s0 :: _ =>
            let taskDefArn := STaskDefinition s0 in
            emit (CDescribeTaskDefinition taskDefArn);;
            match DescribeTaskDefinition c taskDefArn with
            | Err e => mret (Err e)
            | Ok None => nil_deref
            | Ok (Some taskDef) =>
                match set_first_image image (ContainerDefinitions taskDef) with
                | None => index_panic
                | Some cds =>
                    let regTaskInput := mkRegisterTaskDefinitionInput cds (Family taskDef)
                                          (Copied taskDef) tags in
                    emit (CRegisterTaskDefinition regTaskInput);;
                    match RegisterTaskDefinition c regTaskInput with
                    | Err e => mret (Err e)
                    | Ok None => nil_deref
                    | Ok (Some newTaskDef) =>
                        let updateSvcInput := mkUpdateServiceInput service cluster 1 true false
                                                (TaskDefinitionArn newTaskDef) in
                        emit (CUpdateService updateSvcInput);;
                        match EcsUpdateService c updateSvcInput with
                        | Err e => mret (Err e)
                        | Ok _ =>
                            match TaskDefinitionArn newTaskDef with
                            | Some a => mret (Ok a)
                            | None => nil_deref
                            end
                        end
                    end
                end
            end
        end
  end.

(** The loop of [CheckService] over the service's deployments. *)
Fixpoint anyRunning (taskDefArn : string) (ds : list SvcDeployment) : St (list Call) bool :=
  match ds with
  | [] => mret false
  | d :: rest =>
      match DTaskDefinition d with
      | None => nil_deref
      | Some td =>
          if String.eqb td taskDefArn && Z.ltb 0 (RunningCount d) then mret true
          else anyRunning taskDefArn rest
      end
  end.

(** [Ecs.CheckService(cluster, service, taskDefArn) (bool, error)]. *)
Definition CheckService (cluster service taskDefArn : string)
    : St (list Call) (bool * option string) :=
  emit (CDescribeServices cluster [service]);;
  match DescribeServices c cluster [service] with
  | Err e => mret (false, Some e)
  | Ok descOutput =>
      if Nat.ltb 0 (length (Failures descOutput)) then
        mret (false, Some (fmt_failures (parseEcsFailures (Failures descOutput))))
      else
        match Services descOutput with
        | [] => index_panic
        | s0 :: _ => b ← anyRunning taskDefArn (Deployments s0); mret (b, None)
        end
  end.

End Ecs.

(** [Ecs.GetRegistryUri(component)]: [getenv] is [os.Getenv]. *)
Definition GetRegistryUri (getenv : string -> string) (component : string) : result string :=
  let env := getenv "ENV" in
  let repo :=
    if String.eqb component DeployComponent_Ceramic then Some ("ceramic-" ++ env)
    else if String.eqb component DeployComponent_Ipfs then Some ("go-ipfs-" ++ env)
    else if String.eqb component DeployComponent_Cas then Some ("ceramic-" ++ env ++ "-cas")
    else None in
  match repo with
  | None => Err ("getImagePath: invalid component: " ++ component)
  | Some repo => Ok (getenv "AWS_ACCOUNT_ID" ++ ".dkr.ecr." ++ getenv "AWS_REGION"
                     ++ ".amazonaws.com/" ++ repo)
  end.

(** [manager.PrintJob(jobStates...)]: [MarshalIndent] is
    [json.MarshalIndent(jobState, "", "  ")] and [Sprintf] is
    [fmt.Sprintf("\n%+v", jobState)]. On a marshalling error the bytes
    are nil, which convert to the empty string. *)
Definition PrintJob (MarshalIndent : JobState -> result string)
    (Sprintf : JobState -> string) (jobStates : list JobState) : string :=
  fold_left (fun prettyString jobState =>
    match MarshalIndent jobState with
    | Ok prettyBytes => prettyString ++ String "010" prettyBytes
    | Err _ => (prettyString ++ Sprintf jobState) ++ String "010" ""
    end) jobStates "".

End EcsApi.

(* ------------------------------------------------------------------ *)
(** ** The [DeployJob] constructor *)

Module DeployCtor.

(** The calls the constructor makes. *)
Inductive Call :=
| CGetDeployHashes
| CGetLatestCommitHash (repo branch : string)
| CGetBuildHashes
| CGenerateEnvLayout (component : string)
| CWriteJob (js : JobState)
| CNotifyJob (js : JobState).

(** The collaborators the constructor reaches beyond [Database] and
    [Deployment]: [db.GetBuildHashes], [db.WriteJob] and
    [repo.GetLatestCommitHash]. *)
Record Deps := mkDeps {
  GetBuildHashes : result (gmap string string);
  WriteJob : JobState -> option string;
  GetLatestCommitHash : string -> string -> result string
}.

Section Ctor.
Variable db : Database.
Variable d : Deployment.
Variable deps : Deps.
Variable getenv : string -> string.
(** Helpers of the [manager] package, whose code is not part of the
    sources: every answer is allowed. *)
Variable BuildHashLatest : string.
Variable IsValidSha : string -> bool.
Variable ComponentRepo : string -> string.
Variable EnvBranch : string -> string.

(** The commit hash to deploy and whether the deployment is manual, when
    the job is dequeued for the first time. *)
Definition resolveSha (jobState : JobState) (c sha : string)
    : St (list Call) (result (string * bool)) :=
  if param_bool (Params jobState) DeployJobParam_Rollback then
    emit CGetDeployHashes;;
    match GetDeployHashes db with
    | Err e => mret (Err e)
    | Ok deployHashes => mret (Ok (map_index deployHashes c, false))
    end
  else if String.eqb sha BuildHashLatest then
    let repo := ComponentRepo c in
    let branch := EnvBranch (getenv "ENV") in
    emit (CGetLatestCommitHash repo branch);;
    match GetLatestCommitHash deps repo branch with
    | Err e => mret (Err e)
    | Ok latestSha => mret (Ok (latestSha, false))
    end
  else if negb (IsValidSha sha) then
    emit CGetBuildHashes;;
    match GetBuildHashes deps with
    | Err e => mret (Err e)
    | Ok buildHashes => mret (Ok (map_index buildHashes c, true))
    end
  else mret (Ok (sha, true)).

(** [DeployJob(db, d, repo, notifs, jobState) (manager.Job, error)].
    [jobState.Params] is a Go map, shared with the caller: the first
    component of the result is that map as the caller sees it afterwards,
    on every path. *)
Definition DeployJob (jobState : JobState)
    : St (list Call) (gmap string Value * result Deploy.deployJob) :=
  match param_string (Params jobState) DeployJobParam_Component with
  | None => mret (Params jobState, Err "deployJob: missing component (ceramic, ipfs, cas)")
  | Some component =>
      match param_string (Params jobState) DeployJobParam_Sha with
      | None => mret (Params jobState, Err "deployJob: missing sha")
      | Some sha =>
          let c := component in
          match Params jobState !! JobParam_Layout with
          | Some _ => mret (Params jobState, Ok (Deploy.mkDeployJob jobState c sha false))
          | None =>
              r ← resolveSha jobState c sha;
              match (r : result (string * bool)) with
              | Err e => mret (Params jobState, Err e)
              | Ok (sha, manual) =>
                  let js := with_param jobState DeployJobParam_Sha (VString sha) in
                  let js := if manual then with_param js JobParam_Manual (VBool true) else js in
                  emit (CGenerateEnvLayout c);;
                  match GenerateEnvLayout d c with
                  | Err e => mret (Params js, Err e)
                  | Ok envLayout =>
                      let js := with_param js JobParam_Layout (VLayout envLayout) in
                      emit (CWriteJob js);;
                      match WriteJob deps js with
                      | Some e => mret (Params js, Err e)
                      | None =>
                          emit (CNotifyJob js);;
                          mret (Params js, Ok (Deploy.mkDeployJob js c sha manual))
                      end
                  end
              end
          end
      end
  end.

End Ctor.

End DeployCtor.

(* ------------------------------------------------------------------ *)
(** ** [NewJobManager]: the anchor worker configuration *)

Module Config.

(** Go's [strconv.Atoi] on a 64-bit platform: an optional sign and at
    least one decimal digit, within the range of [int]; the error is only
    told apart from success by [NewJobManager]. *)
Definition digit (c : ascii) : option Z :=
  let n := nat_of_ascii c in
  if (48 <=? n)%nat && (n <=? 57)%nat then Some (Z.of_nat (n - 48)) else None.

Fixpoint digits_val (acc : Z) (s : string) : option Z :=
  match s with
  | EmptyString => Some acc
  | String c rest =>
      match digit c with
      | Some v => digits_val (acc * 10 + v) rest
      | None => None
      end
  end.

Definition int_min : Z := (- 2 ^ 63)%Z.
Definition int_max : Z := (2 ^ 63 - 1)%Z.

Definition Atoi (s : string) : result Z :=
  let '(neg, body) :=
    match s with
    | String c rest =>
        if Ascii.eqb c "-" then (true, rest)
        else if Ascii.eqb c "+" then (false, rest)
        else (false, s)
    | EmptyString => (false, s)
    end in
  match body with
  | EmptyString => Err "invalid syntax"
  | _ =>
      match digits_val 0 body with
      | None => Err "invalid syntax"
      | Some v =>
          let z := if neg then Z.opp v else v in
          if (int_min <=? z)%Z && (z <=? int_max)%Z then Ok z else Err "value out of range"
      end
  end.

(** Go's [strconv.ParseBool]. *)
Definition ParseBool (s : string) : result bool :=
  if existsb (String.eqb s) ["1"; "t"; "T"; "TRUE"; "true"; "True"] then Ok true
  else if existsb (String.eqb s) ["0"; "f"; "F"; "FALSE"; "false"; "False"] then Ok false
  else Err "invalid syntax".

Definition defaultCasMaxAnchorWorkers : Z := 1.
Definition defaultCasMinAnchorWorkers : Z := 0.

(** The fields [NewJobManager] computes; the collaborators it only copies
    are left out. *)
Record JobManagerConfig := mkJobManagerConfig {
  maxAnchorJobs : Z;
  minAnchorJobs : Z;
  paused : bool;
  env : string
}.

(** An integer setting: the default unless the variable is set and
    [Atoi] accepts it. *)
Definition intSetting (lookupEnv : string -> option string) (name : string) (dflt : Z) : Z :=
  match lookupEnv name with
  | Some s => match Atoi s with Ok n => n | Err _ => dflt end
  | None => dflt
  end.

(** [NewJobManager(...) (manager.Manager, error)]; [lookupEnv] is
    [os.LookupEnv], and [os.Getenv] reads it with [""] for unset. The name
    of [manager.EnvVar_Env] is a parameter. *)
Definition NewJobManager (lookupEnv : string -> option string) (EnvVar_Env : string)
    : result JobManagerConfig :=
  let getenv k := default "" (lookupEnv k) in
  let maxAnchorJobs := intSetting lookupEnv "CAS_MAX_ANCHOR_WORKERS" defaultCasMaxAnchorWorkers in
  let minAnchorJobs := intSetting lookupEnv "CAS_MIN_ANCHOR_WORKERS" defaultCasMinAnchorWorkers in
  if Z.gtb minAnchorJobs maxAnchorJobs then
    Err ("newJobManager: invalid anchor worker config: " ++ pretty minAnchorJobs ++ ", "
         ++ pretty maxAnchorJobs)
  else
    let paused := match ParseBool (getenv "PAUSED") with Ok b => b | Err _ => false end in
    Ok (mkJobManagerConfig maxAnchorJobs minAnchorJobs paused (getenv EnvVar_Env)).

End Config.

(* ------------------------------------------------------------------ *)
(** ** Auxiliary predicates on the embeddings *)

Definition e2e_launch (d : Deployment) (getenv : string -> string) (config : string) :=
  LaunchService d "ceramic-qa-tests" "ceramic-qa-tests-e2e_tests" "ceramic-qa-tests-e2e_tests"
    "e2e_tests" (E2e.overrides getenv config).

Definition e2e_no_update (c : E2e.Call) : Prop :=
  match c with E2e.CUpdateJob _ => False | _ => True end.

Definition ctor_no_notify (c : DeployCtor.Call) : Prop :=
  match c with DeployCtor.CNotifyJob _ => False | _ => True end.

Definition deploy_quiet (c : Deploy.Call) : Prop :=
  match c with Deploy.CNotifyJob _ | Deploy.CAdvanceJob _ => False | _ => True end.

Definition deploy_probe (c : Deploy.Call) : Prop :=
  match c with Deploy.CCheckEnv _ | Deploy.CGenerateEnvLayout _ => True | _ => False end.

(** The dequeued jobs before the first test job. *)
Fixpoint beforeTest (l : list JobState) : list JobState :=
  match l with
  | [] => []
  | j :: rest => if Scheduler.is_test j then [] else j :: beforeTest rest
  end.

Definition same_component_deploy (c : string) (j : JobState) : bool :=
  Scheduler.is_type JobType_Deploy j
  && bool_decide (param_string (Params j) DeployJobParam_Component = Some c).

(* ------------------------------------------------------------------ *)
(** ** Specification predicates *)

(** [j] is a Deploy job with [force=true] for component [c]. *)
Definition is_force_deploy (c : string) (j : JobState) : Prop :=
  JType j = JobType_Deploy /\ param_bool (Params j) DeployJobParam_Force = true
  /\ param_string (Params j) DeployJobParam_Component = Some c.

(** [f] is the newest force deploy for [c] in the FIFO list [L]. *)
Definition newest_force (L : list JobState) (c : string) (f : JobState) : Prop :=
  exists L1 L2, L = (L1 ++ f :: L2)%list /\ is_force_deploy c f
                /\ forall k, In k L2 -> ~ is_force_deploy c k.

(** [j] is a Deploy job of [L] that the force-deploy override skips:
    another job is the newest force deploy for its component. *)
Definition superseded (L : list JobState) (j : JobState) : Prop :=
  JType j = JobType_Deploy /\
  exists c f, param_string (Params j) DeployJobParam_Component = Some c
              /\ newest_force L c f /\ j <> f.

(** The text of [s] holds no comma. *)
Definition comma_free (s : string) : Prop := ~ In ","%char (list_ascii_of_string s).

(** The component a job names, [""] when it names none. *)
Definition comp_of (j : JobState) : string :=
  default "" (param_string (Params j) DeployJobParam_Component).

(** The jobs the second loop of [processForceDeployJobs] skips, and the
    active deploys its third loop cancels. *)
Definition should_skip (F : gmap string JobState) (j : JobState) : bool :=
  Scheduler.is_type JobType_Deploy j
  && match F !! comp_of j with
     | Some f => negb (String.eqb (JobId j) (JobId f))
     | None => false
     end.

Definition should_cancel (F : gmap string JobState) (a : JobState) : bool :=
  match F !! comp_of a with Some _ => true | None => false end.

(** [a] is an active Deploy job of the cache of [w]. *)
Definition active_deploy (m : Scheduler.Manager) (w : Scheduler.World) (a : JobState) : Prop :=
  exists k, Scheduler.cache w !! k = Some a
            /\ Scheduler.IsActiveJob m a = true /\ JType a = JobType_Deploy.

#[global] Instance is_force_deploy_dec (c : string) (j : JobState) :
  Decision (is_force_deploy c j).
Proof. unfold is_force_deploy. apply _. Defined.

(** How many anchors of the partition [P] the admission loop of
    [processVxAnchorJobs] admits, [adm] being admitted already and [A]
    the number of active anchors of the partition. *)
Definition admitted_count (m : Scheduler.Manager) (v5 : bool) (A : nat)
    (adm P : list JobState) : nat :=
  if v5 || Z.eqb (Scheduler.maxAnchorJobs m) (-1) then length P
  else Z.to_nat (Scheduler.maxAnchorJobs m - Z.of_nat (A + length adm)).

(* ------------------------------------------------------------------ *)
(** ** Concrete inputs *)

Module Fixtures.

Definition params (kvs : list (string * Value)) : gmap string Value := list_to_map kvs.

Definition db_ok : Database :=
  mkDatabase (Ok ∅) (Ok ∅) (fun _ _ => None) (fun _ _ => None)
    (fun _ => None) (fun _ => None) (fun _ => None).

Definition db_down : Database :=
  mkDatabase (Err "store unavailable") (Err "store unavailable")
    (fun _ _ => Some "store unavailable") (fun _ _ => Some "store unavailable")
    (fun _ => Some "store unavailable") (fun _ => Some "store unavailable")
    (fun _ => Some "store unavailable").

Definition deployment_ok : Deployment :=
  mkDeployment (fun _ => Ok ∅) (fun _ _ => None) (fun _ => Ok true)
    (fun _ _ _ _ _ => Ok "task-arn") (fun _ _ _ => Ok true).

Definition no_env : string -> string := fun _ => "".

(** An E2E job in Waiting, stamped at time 0. *)
Definition e2e_waiting : JobState := mkJobState "e2e-1" JobType_TestE2E JobStage_Waiting 0 ∅.

(** Two hours and one second later. *)
Definition e2e_now : Z := E2e.FailureTime + E2e.Second.

Definition ceramic_layout : Layout := <["ceramic-qa" := Some (<["ceramic-qa-node" := tt]> ∅)]> ∅.

(** An Ipfs layout, and deploy jobs that carry it. *)
Definition ipfs_layout : Layout := <["ceramic-qa-ipfs" := Some (<["ceramic-qa-ipfs-nd" := tt]> ∅)]> ∅.

Definition deploy_started : Deploy.deployJob :=
  Deploy.mkDeployJob
    (mkJobState "dep-1" JobType_Deploy JobStage_Started 0
       (params [(JobParam_Layout, VLayout ipfs_layout)]))
    DeployComponent_Ipfs "def" false.

Definition deploy_queued_manual : Deploy.deployJob :=
  Deploy.mkDeployJob
    (mkJobState "dep-2" JobType_Deploy JobStage_Queued 0
       (params [(JobParam_Layout, VLayout ipfs_layout)]))
    DeployComponent_Ipfs "def" true.

(** A deployment whose tasks are not yet running. *)
Definition deployment_pending : Deployment :=
  mkDeployment (fun _ => Ok ∅) (fun _ _ => None) (fun _ => Ok false)
    (fun _ _ _ _ _ => Ok "task-arn") (fun _ _ _ => Ok false).

(** A goroutine stack of [n] copies of [c]. *)
Fixpoint string_repeat (n : nat) (c : ascii) : string :=
  match n with O => EmptyString | S n => String c (string_repeat n c) end.

Definition stack_1100 : string := string_repeat 1100 "a"%char.

(** A rendering of jobs for error texts. *)
Definition print_job (js : JobState) : string := JobId js.

(** A stack trace shorter than 1024 bytes. *)
Definition stack_810 : string := string_repeat 810 "a"%char.

Definition anchor_job (id : string) : JobState :=
  mkJobState id JobType_Anchor JobStage_Dequeued 0 ∅.

(** Active stages for the fixtures' [job.IsActiveJob]. *)
Definition active_stage (js : JobState) : bool :=
  match Stage js with
  | JobStage_Started | JobStage_Waiting => true
  | _ => false
  end.

(** The fixtures mark v5 worker jobs with a boolean [v5] param. *)
Definition v5_marked (js : JobState) : bool := param_bool (Params js) "v5".

(** A manager over [db]; [adv] answers the stage updates. *)
Definition mgr (db : Database) (maxA minA : Z)
    (adv : JobState -> JobStage -> option string -> option string) : Scheduler.Manager :=
  Scheduler.mkManager db maxA minA "qa" active_stage v5_marked adv
    (fun _ => "uuid") 1700000000000000000.

Definition world (jobs : list JobState) : Scheduler.World :=
  Scheduler.mkWorld (list_to_map (map (fun j => (JobId j, j)) jobs)) 0 [].

(** A Failed Ipfs deploy that is not a rollback. *)
Definition deploy_failed : JobState :=
  mkJobState "dep-3" JobType_Deploy JobStage_Failed 0
    (params [(DeployJobParam_Component, VString DeployComponent_Ipfs)]).

Definition db_tags : Database :=
  mkDatabase (Ok ∅) (Ok (<[DeployComponent_Ipfs := "v1.2.3,qa"]> ∅))
    (fun _ _ => None) (fun _ _ => None)
    (fun _ => None) (fun _ => None) (fun _ => None).

(** Force-deploy scenario: an active Ipfs deploy, then a plain and a
    forced Ipfs deploy in the Dequeued list. *)
Definition dep0 : JobState :=
  mkJobState "dep-0" JobType_Deploy JobStage_Started 0
    (params [(DeployJobParam_Component, VString DeployComponent_Ipfs)]).
Definition dep1 : JobState :=
  mkJobState "dep-1" JobType_Deploy JobStage_Dequeued 0
    (params [(DeployJobParam_Component, VString DeployComponent_Ipfs)]).
Definition dep2 : JobState :=
  mkJobState "dep-2" JobType_Deploy JobStage_Dequeued 0
    (params [(DeployJobParam_Component, VString DeployComponent_Ipfs);
             (DeployJobParam_Force, VBool true); (DeployJobParam_Sha, VString "def")]).

(** A store that refuses the stage update of job [id] only. *)
Definition fail_on (id : string) : JobState -> JobStage -> option string -> option string :=
  fun j _ _ => if String.eqb (JobId j) id then Some "store unavailable" else None.

(** A v5 worker anchor job. *)
Definition v5_anchor_job (id : string) : JobState :=
  mkJobState id JobType_Anchor JobStage_Dequeued 0 (params [("v5", VBool true)]).

End Fixtures.

(** Inputs for the further properties. *)
Module Fixtures2.

(** An ECS and SSM client whose calls all succeed. *)
Definition ecs_client : EcsApi.Client :=
  EcsApi.mkClient
    (fun _ _ => Ok (EcsApi.mkDescribeServicesOutput []
                      [EcsApi.mkService (Some "net") (Some "td:1")
                         [EcsApi.mkSvcDeployment (Some "td:1") 1]]))
    (fun _ => Ok [EcsApi.mkRunTask_Task (Some "task-arn")])
    (fun _ => Ok (Some (EcsApi.mkTaskDefinition
                          [EcsApi.mkContainerDefinition (Some "img:1") "rest"]
                          (Some "fam") "copied" "other" (Some "td:1"))))
    (fun _ => Ok (Some (EcsApi.mkTaskDefinition [] (Some "fam") "copied" "other" (Some "td:2"))))
    (fun _ => Ok tt)
    (fun _ => Ok (Some "{}"))
    (fun _ => Ok "vpc").

Definition one_override : gmap string string := <["NODE_URL" := "http://node"]> ∅.

(** A deploy job dequeued for the first time, as a rollback. *)
Definition rollback_job : JobState :=
  mkJobState "dep-4" JobType_Deploy JobStage_Queued 0
    (Fixtures.params [(DeployJobParam_Component, VString DeployComponent_Ipfs);
                      (DeployJobParam_Sha, VString "abc");
                      (DeployJobParam_Rollback, VBool true)]).

(** A deploy job reloaded with its layout, marked manual, whose sha is
    the one already deployed. *)
Definition reloaded_job : JobState :=
  mkJobState "dep-5" JobType_Deploy JobStage_Queued 0
    (Fixtures.params [(DeployJobParam_Component, VString DeployComponent_Ipfs);
                      (DeployJobParam_Sha, VString "abc");
                      (JobParam_Manual, VBool true);
                      (JobParam_Layout, VLayout Fixtures.ipfs_layout)]).

Definition db_deployed : Database :=
  mkDatabase (Ok (<[DeployComponent_Ipfs := "abc"]> ∅)) (Ok ∅)
    (fun _ _ => None) (fun _ _ => None) (fun _ => None) (fun _ => None) (fun _ => None).

Definition deps_ok : DeployCtor.Deps :=
  DeployCtor.mkDeps (Ok ∅) (fun _ => None) (fun _ _ => Ok "head").

(** Only [CAS_MAX_ANCHOR_WORKERS] is set, to -1. *)
Definition env_max_unbounded (k : string) : option string :=
  if String.eqb k "CAS_MAX_ANCHOR_WORKERS" then Some "-1" else None.

Definition done_job : JobState := mkJobState "done-1" JobType_Anchor JobStage_Completed 0 ∅.

Definition ipfs_deploy (id : string) : JobState :=
  mkJobState id JobType_Deploy JobStage_Dequeued 0
    (Fixtures.params [(DeployJobParam_Component, VString DeployComponent_Ipfs)]).
Definition ceramic_deploy (id : string) : JobState :=
  mkJobState id JobType_Deploy JobStage_Dequeued 0
    (Fixtures.params [(DeployJobParam_Component, VString DeployComponent_Ceramic)]).
Definition e2e_job (id : string) : JobState :=
  mkJobState id JobType_TestE2E JobStage_Dequeued 0 ∅.

(** Three Ipfs deploys and a Ceramic deploy before a test, one Ipfs
    deploy after it. *)
Definition collapse_rest : list JobState :=
  [ipfs_deploy "d2"; ceramic_deploy "c1"; ipfs_deploy "d3"; e2e_job "t1"; ipfs_deploy "d4"].

End Fixtures2.

(* ================================================================== *)
(** * Theorems *)

Lemma string_length_app (s t : string) :
  String.length (s ++ t) = String.length s + String.length t.
Proof. induction s as [|a s IH]; simpl; auto. Qed.

Ltac string_neq_by_length :=
  let H := fresh in
  intro H; apply (f_equal String.length) in H; simpl in H;
  rewrite ?string_length_app in H; simpl in H; lia.

(** C10: [CheckTask] on a successful describe call that returns no
    task record reports [(false, nil)]. *)
Theorem CheckTask_no_tasks (DescribeTasks : Ecs.DescribeTasksFn) (running : bool)
    (cluster : string) (taskArn : list string)
    (Hdesc : DescribeTasks cluster taskArn = Ok []) :
  Ecs.CheckTask DescribeTasks running cluster taskArn = (false, None).
Proof. unfold Ecs.CheckTask. rewrite Hdesc. reflexivity. Qed.

Lemma CheckTask_no_tasks_witness :
  (fun (_ : string) (_ : list string) => Ok (@nil Ecs.Task)) "ceramic-qa-tests" ["arn-1"] = Ok []
  /\ Ecs.CheckTask (fun _ _ => Ok []) true "ceramic-qa-tests" ["arn-1"] = (false, None).
Proof.
  split; [reflexivity|].
  apply (CheckTask_no_tasks (fun _ _ => Ok []) true "ceramic-qa-tests" ["arn-1"]).
  reflexivity.
Defined.

(** C9 (counterexample): for [env = "qa"] the Cas layout also carries
    the cluster key [ceramic-qa], mapped to a nil service map. *)
Lemma PopulateLayout_cas_extra_cluster :
  exists l, Ecs.PopulateLayout "qa" Ecs.EnvType_Qa DeployComponent_Cas = Ok l
            /\ l !! "ceramic-qa" = Some None.
Proof. eexists. split; [reflexivity|]. reflexivity. Qed.

(** C9 (amended): for every [env], the Cas layout has exactly three
    cluster keys: [ceramic-{env}] and [ceramic-{env}-ex], each mapped to
    a nil (empty) service map, and [ceramic-{env}-cas], which maps
    exactly the services [ceramic-{env}-cas-api] and
    [ceramic-{env}-cas-anchor]. *)
Theorem PopulateLayout_cas (env : string) (eenv : Ecs.EnvType) :
  let p := "ceramic-" ++ env in
  let x := "ceramic-" ++ env ++ "-ex" in
  let c := "ceramic-" ++ env ++ "-cas" in
  exists l, Ecs.PopulateLayout env eenv DeployComponent_Cas = Ok l
    /\ l !! p = Some None /\ l !! x = Some None
    /\ (forall k, k <> p -> k <> x -> k <> c -> l !! k = None)
    /\ exists services, l !! c = Some (Some services)
       /\ forall s, is_Some (services !! s) <-> s = c ++ "-api" \/ s = c ++ "-anchor".
Proof.
  intros p x c.
  assert (Hpx : p <> x) by (unfold p, x; string_neq_by_length).
  assert (Hpc : p <> c) by (unfold p, c; string_neq_by_length).
  assert (Hxc : x <> c) by (unfold x, c; string_neq_by_length).
  assert (Hsvc : c ++ "-api" <> c ++ "-anchor") by string_neq_by_length.
  exists (<[c := Some (<[c ++ "-anchor" := tt]> (<[c ++ "-api" := tt]> ∅))]>
          (<[x := None]> (<[p := None]> ∅))).
  split; [reflexivity|].
  split; [|split; [|split]].
  - rewrite lookup_insert_ne by congruence.
    rewrite lookup_insert_ne by congruence.
    apply lookup_insert_eq.
  - rewrite lookup_insert_ne by congruence. apply lookup_insert_eq.
  - intros k Hkp Hkx Hkc.
    rewrite !lookup_insert_ne by congruence. apply lookup_empty.
  - eexists. split; [apply lookup_insert_eq|].
    intros s. rewrite !lookup_insert. split.
    + intros Hs. repeat case_decide; subst; auto.
      rewrite lookup_empty in Hs. destruct Hs as [? Hs]; discriminate.
    + intros [-> | ->]; repeat case_decide; eauto; congruence.
Qed.

(** C5 (counterexample): a Waiting E2E job two hours and one second old
    is persisted as Failed with no [error] parameter. *)
Lemma e2e_timeout_without_error :
  exists js,
    fst (run (E2e.AdvanceJob Fixtures.db_ok Fixtures.deployment_ok Fixtures.no_env
                Fixtures.e2e_now Fixtures.print_job Fixtures.e2e_waiting) []) = [E2e.CUpdateJob js]
    /\ Stage js = JobStage_Failed /\ Params js !! JobParam_Error = None.
Proof.
  exists (mkJobState "e2e-1" JobType_TestE2E JobStage_Failed Fixtures.e2e_now ∅).
  split; [reflexivity|]. split; reflexivity.
Qed.

(** C5 (amended): an E2E job in any stage but Queued whose [ts] lies more
    than [FailureTime] (2 h) before [now] is, in one advancement,
    persisted through [UpdateJob] as Failed with [ts = now] and its params
    unchanged (no [error] entry is added). No other call is made. *)
Theorem e2e_timeout_fails (db : Database) (d : Deployment) (getenv : string -> string)
    (now : Z) (PrintJob : JobState -> string) (js : JobState) (tr : list E2e.Call)
    (Hstage : Stage js <> JobStage_Queued) (Hold : (now - E2e.FailureTime > Ts js)%Z) :
  let failed := with_ts (with_stage js JobStage_Failed) now in
  run (E2e.AdvanceJob db d getenv now PrintJob js) tr
  = ((tr ++ [E2e.CUpdateJob failed])%list, GoVal (UpdateJob db failed)).
Proof.
  intros failed. unfold run, E2e.AdvanceJob.
  rewrite decide_False by exact Hstage.
  replace (Z.gtb (now - E2e.FailureTime) (Ts js)) with true
    by (symmetry; apply Z.gtb_lt; lia).
  reflexivity.
Qed.

Lemma e2e_timeout_fails_witness :
  Stage Fixtures.e2e_waiting <> JobStage_Queued
  /\ (Fixtures.e2e_now - E2e.FailureTime > Ts Fixtures.e2e_waiting)%Z
  /\ run (E2e.AdvanceJob Fixtures.db_ok Fixtures.deployment_ok Fixtures.no_env
            Fixtures.e2e_now Fixtures.print_job Fixtures.e2e_waiting) []
     = ([E2e.CUpdateJob (with_ts (with_stage Fixtures.e2e_waiting JobStage_Failed)
                           Fixtures.e2e_now)],
        GoVal (UpdateJob Fixtures.db_ok (with_ts (with_stage Fixtures.e2e_waiting
                                                    JobStage_Failed) Fixtures.e2e_now))).
Proof.
  split; [discriminate|]. split; [vm_compute; reflexivity|].
  apply (e2e_timeout_fails Fixtures.db_ok Fixtures.deployment_ok Fixtures.no_env
           Fixtures.e2e_now Fixtures.print_job Fixtures.e2e_waiting []).
  - discriminate.
  - vm_compute. reflexivity.
Defined.

Ltac in_cases H :=
  simpl in H;
  repeat match type of H with
         | _ \/ _ => destruct H as [H|H]
         | False => destruct H
         end.

(** C7: advancing a Started deploy job. It becomes Completed only when
    [CheckEnv(layout)] answered true and, for Ipfs, [CheckEnv] of a
    freshly generated Ceramic layout answered true as well. For other
    components no Ceramic layout is generated and [CheckEnv] is only
    called on the stored layout. When a performed probe answers false
    without error, the job stays Started: nothing is persisted. *)
Theorem deploy_started_probes (db : Database) (d : Deployment) (nowMs : Z)
    (IsTimedOut : JobState -> bool) (PrintJob : JobState -> string) (dj : Deploy.deployJob)
    (Hstarted : Stage (Deploy.state dj) = JobStage_Started) :
  let res := run (Deploy.AdvanceJob db d nowMs IsTimedOut PrintJob dj) [] in
  let layout_of := param_layout (Params (Deploy.state dj)) JobParam_Layout in
  (forall js e, snd res = GoVal (js, e) -> Stage js = JobStage_Completed ->
     exists layout, layout_of = Some layout /\ CheckEnv d layout = Ok true
       /\ (Deploy.component dj = DeployComponent_Ipfs ->
           exists cl, GenerateEnvLayout d DeployComponent_Ceramic = Ok cl
                      /\ CheckEnv d cl = Ok true))
  /\ (Deploy.component dj <> DeployComponent_Ipfs ->
      (forall c, ~ In (Deploy.CGenerateEnvLayout c) (fst res))
      /\ forall l, In (Deploy.CCheckEnv l) (fst res) -> layout_of = Some l)
  /\ (IsTimedOut (Deploy.state dj) = false -> forall layout,
      layout_of = Some layout -> CheckEnv d layout = Ok false ->
      res = ([Deploy.CCheckEnv layout], GoVal (Deploy.state dj, None)))
  /\ (IsTimedOut (Deploy.state dj) = false ->
      Deploy.component dj = DeployComponent_Ipfs -> forall layout cl,
      layout_of = Some layout -> CheckEnv d layout = Ok true ->
      GenerateEnvLayout d DeployComponent_Ceramic = Ok cl -> CheckEnv d cl = Ok false ->
      res = ([Deploy.CCheckEnv layout; Deploy.CGenerateEnvLayout DeployComponent_Ceramic;
              Deploy.CCheckEnv cl], GoVal (Deploy.state dj, None))).
Proof.
  intros res layout_of. subst res layout_of.
  unfold run, Deploy.AdvanceJob.
  rewrite decide_False by (rewrite Hstarted; discriminate).
  destruct (IsTimedOut (Deploy.state dj)) eqn:Hto.
  - simpl. split; [|split; [|split]].
    + intros js e [= <- _]. simpl. discriminate.
    + intros _. split; [intros c H; in_cases H; discriminate|].
      intros l H; in_cases H; congruence.
    + discriminate.
    + discriminate.
  - rewrite decide_True by exact Hstarted.
    unfold Deploy.checkEnv.
    destruct (param_layout (Params (Deploy.state dj)) JobParam_Layout) as [layout|] eqn:Hl.
    + destruct (CheckEnv d layout) as [[|]|e] eqn:Hc.
      * destruct (String.eqb (Deploy.component dj) DeployComponent_Ipfs) eqn:Hipfs.
        -- apply String.eqb_eq in Hipfs.
           destruct (GenerateEnvLayout d DeployComponent_Ceramic) as [cl|e] eqn:Hg.
           ++ destruct (CheckEnv d cl) as [[|]|e] eqn:Hc2; simpl.
              ** split; [|split; [|split]].
                 --- intros js e _ _. exists layout. eauto.
                 --- intros Hn. contradiction.
                 --- intros _ l' [= ->] Hf. congruence.
                 --- intros _ _ l' cl' [= <-] _ [= <-] Hf. congruence.
              ** split; [|split; [|split]].
                 --- intros js e [= <- _]. rewrite Hstarted. discriminate.
                 --- intros Hn. contradiction.
                 --- intros _ l' [= ->] Hf. congruence.
                 --- intros _ _ l' cl' [= <-] _ [= <-] _. reflexivity.
              ** split; [|split; [|split]].
                 --- intros js e' [= <- _]. discriminate.
                 --- intros Hn. contradiction.
                 --- intros _ l' [= ->] Hf. congruence.
                 --- intros _ _ l' cl' [= <-] _ [= <-] Hf. congruence.
           ++ simpl. split; [|split; [|split]].
              ** intros js e' [= <- _]. discriminate.
              ** intros Hn. contradiction.
              ** intros _ l' [= ->] Hf. congruence.
              ** intros _ _ l' cl' [= <-] _ Hg'. congruence.
        -- simpl. split; [|split; [|split]].
           ++ intros js e _ _. exists layout. split; [reflexivity|]. split; [exact Hc|].
              intros Hi. rewrite Hi in Hipfs. discriminate.
           ++ intros _. split; [intros c H; in_cases H; discriminate|].
              intros l H; in_cases H; congruence.
           ++ intros _ l' [= ->] Hf. congruence.
           ++ intros _ Hi. rewrite Hi in Hipfs. discriminate.
      * simpl. split; [|split; [|split]].
        -- intros js e [= <- _]. rewrite Hstarted. discriminate.
        -- intros _. split; [intros c H; in_cases H; discriminate|].
           intros l H; in_cases H; congruence.
        -- intros _ l' [= ->] _. reflexivity.
        -- intros _ _ l' cl [= <-] Ht. congruence.
      * simpl. split; [|split; [|split]].
        -- intros js e' [= <- _]. discriminate.
        -- intros _. split; [intros c H; in_cases H; discriminate|].
           intros l H; in_cases H; congruence.
        -- intros _ l' [= ->] Hf. congruence.
        -- intros _ _ l' cl [= <-] Ht. congruence.
    + simpl. split; [|split; [|split]].
      * intros js e' [= <- _]. discriminate.
      * intros _. split; [intros c H; in_cases H; discriminate|].
        intros l H; in_cases H; congruence.
      * intros _ l' Hl'. discriminate.
      * intros _ _ l' cl Hl'. discriminate.
Qed.

Lemma deploy_started_probes_witness :
  Stage (Deploy.state Fixtures.deploy_started) = JobStage_Started /\
  let db := Fixtures.db_ok in let d := Fixtures.deployment_pending in
  let IsTimedOut := fun (_ : JobState) => false in
  let dj := Fixtures.deploy_started in
  let res := run (Deploy.AdvanceJob db d 0 IsTimedOut Fixtures.print_job dj) [] in
  let layout_of := param_layout (Params (Deploy.state dj)) JobParam_Layout in
  (forall js e, snd res = GoVal (js, e) -> Stage js = JobStage_Completed ->
     exists layout, layout_of = Some layout /\ CheckEnv d layout = Ok true
       /\ (Deploy.component dj = DeployComponent_Ipfs ->
           exists cl, GenerateEnvLayout d DeployComponent_Ceramic = Ok cl
                      /\ CheckEnv d cl = Ok true))
  /\ (Deploy.component dj <> DeployComponent_Ipfs ->
      (forall c, ~ In (Deploy.CGenerateEnvLayout c) (fst res))
      /\ forall l, In (Deploy.CCheckEnv l) (fst res) -> layout_of = Some l)
  /\ (IsTimedOut (Deploy.state dj) = false -> forall layout,
      layout_of = Some layout -> CheckEnv d layout = Ok false ->
      res = ([Deploy.CCheckEnv layout], GoVal (Deploy.state dj, None)))
  /\ (IsTimedOut (Deploy.state dj) = false ->
      Deploy.component dj = DeployComponent_Ipfs -> forall layout cl,
      layout_of = Some layout -> CheckEnv d layout = Ok true ->
      GenerateEnvLayout d DeployComponent_Ceramic = Ok cl -> CheckEnv d cl = Ok false ->
      res = ([Deploy.CCheckEnv layout; Deploy.CGenerateEnvLayout DeployComponent_Ceramic;
              Deploy.CCheckEnv cl], GoVal (Deploy.state dj, None))).
Proof.
  split; [reflexivity|].
  exact (deploy_started_probes Fixtures.db_ok Fixtures.deployment_pending 0
           (fun _ => false) Fixtures.print_job Fixtures.deploy_started eq_refl).
Defined.

(** C4 (counterexample): a manual Queued deploy whose deploy-hash read
    fails is Failed, and [UpdateEnv] is never called. *)
Lemma deploy_queued_hash_read_fails :
  let res := run (Deploy.AdvanceJob Fixtures.db_down Fixtures.deployment_ok 0
                    (fun _ => false) Fixtures.print_job Fixtures.deploy_queued_manual) [] in
  (forall l s, ~ In (Deploy.CUpdateEnv l s) (fst res))
  /\ exists js e, snd res = GoVal (js, e) /\ Stage js = JobStage_Failed.
Proof.
  simpl. split.
  - intros l s H. in_cases H; discriminate.
  - eexists _, _. split; [reflexivity|reflexivity].
Qed.

(** C4 (amended): advancing a Queued deploy job. If the deploy-hash read
    fails, the job is Failed with that error and [UpdateEnv] is not
    called. If [manual = false] and [sha] equals the component's entry in
    the deploy-hash map, the job is Skipped and [UpdateEnv] is not called.
    Otherwise, if the job carries no env layout it is Failed and
    [UpdateEnv] is not called; if it carries one, [UpdateEnv(layout, sha)]
    is called and, on success, the job becomes Started with
    [start = nowMs] and the build-hash update is attempted, whatever its
    answer. *)
Theorem deploy_queued_step (db : Database) (d : Deployment) (nowMs : Z)
    (IsTimedOut : JobState -> bool) (PrintJob : JobState -> string) (dj : Deploy.deployJob)
    (Hqueued : Stage (Deploy.state dj) = JobStage_Queued) :
  let js := Deploy.state dj in
  let res := run (Deploy.AdvanceJob db d nowMs IsTimedOut PrintJob dj) [] in
  (forall e, GetDeployHashes db = Err e ->
     (forall l s, ~ In (Deploy.CUpdateEnv l s) (fst res))
     /\ snd res = GoVal (Deploy.fail_with js e, Db_AdvanceJob db (Deploy.fail_with js e)))
  /\ (forall hashes, GetDeployHashes db = Ok hashes -> Deploy.manual dj = false ->
      Deploy.sha dj = map_index hashes (Deploy.component dj) ->
      (forall l s, ~ In (Deploy.CUpdateEnv l s) (fst res))
      /\ snd res = GoVal (with_stage js JobStage_Skipped,
                          Db_AdvanceJob db (with_stage js JobStage_Skipped)))
  /\ (forall hashes, GetDeployHashes db = Ok hashes ->
      (Deploy.manual dj = true \/ Deploy.sha dj <> map_index hashes (Deploy.component dj)) ->
      (param_layout (Params js) JobParam_Layout = None ->
         (forall l s, ~ In (Deploy.CUpdateEnv l s) (fst res))
         /\ exists js' e, snd res = GoVal (js', e) /\ Stage js' = JobStage_Failed)
      /\ forall layout, param_layout (Params js) JobParam_Layout = Some layout ->
         In (Deploy.CUpdateEnv layout (Deploy.sha dj)) (fst res)
         /\ (UpdateEnv d layout (Deploy.sha dj) = None ->
             let js' := with_param (with_stage js JobStage_Started) JobParam_Start (VInt nowMs) in
             In (Deploy.CUpdateBuildHash (Deploy.component dj) (Deploy.sha dj)) (fst res)
             /\ snd res = GoVal (js', Db_AdvanceJob db js'))).
Proof.
  intros js res. subst js res.
  unfold run, Deploy.AdvanceJob.
  rewrite decide_True by exact Hqueued.
  split; [|split].
  - intros e He. rewrite He. simpl. split; [|reflexivity].
    intros l s H. in_cases H; discriminate.
  - intros hashes Hh Hm Hs. rewrite Hh.
    assert (E : String.eqb (Deploy.sha dj) (map_index hashes (Deploy.component dj)) = true)
      by (apply String.eqb_eq; exact Hs).
    rewrite Hm, E. simpl. split; [|reflexivity].
    intros l s H. in_cases H; discriminate.
  - intros hashes Hh Hor. rewrite Hh.
    assert (E : negb (Deploy.manual dj)
                && String.eqb (Deploy.sha dj) (map_index hashes (Deploy.component dj)) = false).
    { destruct Hor as [Hm|Hs].
      - rewrite Hm. reflexivity.
      - apply andb_false_intro2. apply String.eqb_neq. exact Hs. }
    rewrite E. unfold Deploy.updateEnv. split.
    + intros Hl. rewrite Hl. simpl. split.
      * intros l s H. in_cases H; discriminate.
      * eexists _, _. split; reflexivity.
    + intros layout Hl. rewrite Hl.
      destruct (UpdateEnv d layout (Deploy.sha dj)) as [e|] eqn:Hu; simpl.
      * split; [intuition|]. discriminate.
      * split; [intuition|]. intros _. split; [intuition|reflexivity].
Qed.

Lemma deploy_queued_step_witness :
  Stage (Deploy.state Fixtures.deploy_queued_manual) = JobStage_Queued /\
  let db := Fixtures.db_ok in let d := Fixtures.deployment_ok in
  let nowMs := 1700000000000%Z in let dj := Fixtures.deploy_queued_manual in
  let js := Deploy.state dj in
  let res := run (Deploy.AdvanceJob db d nowMs (fun _ => false) Fixtures.print_job dj) [] in
  (forall e, GetDeployHashes db = Err e ->
     (forall l s, ~ In (Deploy.CUpdateEnv l s) (fst res))
     /\ snd res = GoVal (Deploy.fail_with js e, Db_AdvanceJob db (Deploy.fail_with js e)))
  /\ (forall hashes, GetDeployHashes db = Ok hashes -> Deploy.manual dj = false ->
      Deploy.sha dj = map_index hashes (Deploy.component dj) ->
      (forall l s, ~ In (Deploy.CUpdateEnv l s) (fst res))
      /\ snd res = GoVal (with_stage js JobStage_Skipped,
                          Db_AdvanceJob db (with_stage js JobStage_Skipped)))
  /\ (forall hashes, GetDeployHashes db = Ok hashes ->
      (Deploy.manual dj = true \/ Deploy.sha dj <> map_index hashes (Deploy.component dj)) ->
      (param_layout (Params js) JobParam_Layout = None ->
         (forall l s, ~ In (Deploy.CUpdateEnv l s) (fst res))
         /\ exists js' e, snd res = GoVal (js', e) /\ Stage js' = JobStage_Failed)
      /\ forall layout, param_layout (Params js) JobParam_Layout = Some layout ->
         In (Deploy.CUpdateEnv layout (Deploy.sha dj)) (fst res)
         /\ (UpdateEnv d layout (Deploy.sha dj) = None ->
             let js' := with_param (with_stage js JobStage_Started) JobParam_Start (VInt nowMs) in
             In (Deploy.CUpdateBuildHash (Deploy.component dj) (Deploy.sha dj)) (fst res)
             /\ snd res = GoVal (js', Db_AdvanceJob db js'))).
Proof.
  split; [reflexivity|].
  exact (deploy_queued_step Fixtures.db_ok Fixtures.deployment_ok 1700000000000%Z
           (fun _ => false) Fixtures.print_job Fixtures.deploy_queued_manual eq_refl).
Defined.

Lemma substring_0_length (n : nat) (s : string) :
  n <= String.length s -> String.length (substring 0 n s) = n.
Proof.
  revert s. induction n as [|n IH]; intros [|a s] H; simpl in *; try lia.
  f_equal. apply IH. lia.
Qed.

(** A task whose body panics with ["boom"] records one failure error,
    and it does not contain ["boom"]. *)
Lemma advanceJob_panic_value_dropped :
  exists e,
    Task.failure_errors
      (fst (Task.advanceJob (fun _ _ _ => None) (Fixtures.anchor_job "job-1")
              (GoPanic "boom") Fixtures.stack_1100)) = [e]
    /\ String.index 0 "boom" e = None.
Proof. eexists. split; [reflexivity|]. vm_compute. reflexivity. Qed.

(** When the stack is at least 1024 bytes long, no panic leaves the
    task. If the body panics with text [r], the task prints
    [r] and the stack, and transitions the job to Failed exactly once,
    with error ["panic: "] followed by the first 1024 bytes of the stack;
    [r] itself is not part of that error. *)
Theorem advanceJob_recovers
    (AdvanceStage : JobState -> JobStage -> option string -> option string)
    (js : JobState) (stack : string) (Hstack : 1024 <= String.length stack) :
  (forall body, snd (Task.advanceJob AdvanceStage js body stack) = GoVal tt)
  /\ forall r,
    let evs := fst (Task.advanceJob AdvanceStage js (GoPanic r) stack) in
    let e := "panic: " ++ substring 0 1024 stack in
    In (Task.EPrintln ("Panic while advancing job:  " ++ r)) evs
    /\ In Task.EPrintStack evs
    /\ In (Task.EUpdateStage js JobStage_Failed (Some e)) evs
    /\ Task.failure_errors evs = [e]
    /\ String.length e = 7 + 1024.
Proof.
  assert (Hlt : Nat.ltb (String.length stack) 1024 = false)
    by (apply Nat.ltb_ge; exact Hstack).
  split.
  - intros [[]|r]; simpl; [reflexivity|].
    rewrite Hlt. destruct (AdvanceStage _ _ _); reflexivity.
  - intros r evs e. subst evs e. unfold Task.advanceJob. rewrite Hlt.
    assert (Hlen : String.length ("panic: " ++ substring 0 1024 stack) = 7 + 1024)
      by (rewrite string_length_app, substring_0_length by exact Hstack; reflexivity).
    destruct (AdvanceStage js JobStage_Failed _); simpl;
      (split; [intuition|split; [intuition|split; [intuition|split; [reflexivity|exact Hlen]]]]).
Qed.

Lemma advanceJob_recovers_witness :
  1024 <= String.length Fixtures.stack_1100 /\
  let AdvanceStage := fun (_ : JobState) (_ : JobStage) (_ : option string) => @None string in
  let js := Fixtures.anchor_job "job-1" in let stack := Fixtures.stack_1100 in
  (forall body, snd (Task.advanceJob AdvanceStage js body stack) = GoVal tt)
  /\ forall r,
    let evs := fst (Task.advanceJob AdvanceStage js (GoPanic r) stack) in
    let e := "panic: " ++ substring 0 1024 stack in
    In (Task.EPrintln ("Panic while advancing job:  " ++ r)) evs
    /\ In Task.EPrintStack evs
    /\ In (Task.EUpdateStage js JobStage_Failed (Some e)) evs
    /\ Task.failure_errors evs = [e]
    /\ String.length e = 7 + 1024.
Proof.
  split; [vm_compute; lia|].
  apply (advanceJob_recovers (fun _ _ _ => None) (Fixtures.anchor_job "job-1")
           Fixtures.stack_1100).
  vm_compute. lia.
Defined.

(** C8 (code bug): when the stack returned by [debug.Stack()] in the
    deferred function is shorter than 1024 bytes, a panic of the body
    is not contained: slicing it with [[:1024]] panics inside the
    deferred function, that panic leaves the task, and the job is never
    transitioned to Failed (no stage update is made), although the value
    and the stack have been printed. *)
Theorem advanceJob_short_stack_escapes
    (AdvanceStage : JobState -> JobStage -> option string -> option string)
    (js : JobState) (r stack : string) (Hshort : String.length stack < 1024) :
  let res := Task.advanceJob AdvanceStage js (GoPanic r) stack in
  snd res = GoPanic "runtime error: slice bounds out of range"
  /\ (forall j s e, ~ In (Task.EUpdateStage j s e) (fst res))
  /\ Task.failure_errors (fst res) = []
  /\ In (Task.EPrintln ("Panic while advancing job:  " ++ r)) (fst res)
  /\ In Task.EPrintStack (fst res).
Proof.
  assert (Hlt : Nat.ltb (String.length stack) 1024 = true)
    by (apply Nat.ltb_lt; exact Hshort).
  intros res. subst res. unfold Task.advanceJob. rewrite Hlt. simpl.
  split; [reflexivity|]. split.
  - intros j s e H. intuition discriminate.
  - split; [reflexivity|]. split; [right; left; reflexivity|].
    right; right; right; left; reflexivity.
Qed.

Lemma advanceJob_short_stack_escapes_witness :
  String.length Fixtures.stack_810 < 1024 /\
  let res := Task.advanceJob (fun _ _ _ => None) (Fixtures.anchor_job "job-1")
               (GoPanic "boom") Fixtures.stack_810 in
  snd res = GoPanic "runtime error: slice bounds out of range"
  /\ (forall j s e, ~ In (Task.EUpdateStage j s e) (fst res))
  /\ Task.failure_errors (fst res) = []
  /\ In (Task.EPrintln ("Panic while advancing job:  " ++ "boom")) (fst res)
  /\ In Task.EPrintStack (fst res).
Proof.
  split; [vm_compute; lia|].
  apply (advanceJob_short_stack_escapes (fun _ _ _ => None) (Fixtures.anchor_job "job-1")
           "boom" Fixtures.stack_810).
  vm_compute. lia.
Defined.

Lemma Split_comma_head (s : string) :
  exists p rest, Scheduler.Split ","%char s = p :: rest /\ comma_free p
                 /\ (s = p \/ exists t, s = p ++ String ","%char t).
Proof.
  unfold comma_free.
  induction s as [|a s IH]; simpl.
  - exists "", []. split; [reflexivity|]. split; [simpl; tauto|left; reflexivity].
  - destruct (Ascii.eqb a ","%char) eqn:Ha.
    + apply Ascii.eqb_eq in Ha. subst a.
      exists "", (Scheduler.Split ","%char s). split; [reflexivity|].
      split; [simpl; tauto|right; exists s; reflexivity].
    + apply Ascii.eqb_neq in Ha.
      destruct IH as (p & rest & Hs & Hp & Hsp). rewrite Hs.
      exists (String a p), rest. split; [reflexivity|]. split.
      * simpl. intros [H|H]; [congruence|contradiction].
      * destruct Hsp as [->|[t ->]]; [left; reflexivity|right; exists t; reflexivity].
Qed.

(** C6 (counterexample): when the deploy tags cannot be read, a Failed
    Ipfs deploy that is not a rollback enqueues nothing. *)
Lemma postProcessJob_tags_unreadable :
  let w := Fixtures.world [] in
  run (Scheduler.postProcessJob (Fixtures.mgr Fixtures.db_down 1 0 (fun _ _ _ => None))
         Fixtures.deploy_failed) w = (w, GoVal tt).
Proof. reflexivity. Qed.

(** C6 (amended): post-processing of a Failed Deploy job [js]. A
    rollback ([rollback=true]) enqueues nothing. Otherwise nothing is
    enqueued when the component param is missing, when the deploy tags
    cannot be read, or when the component has no tag; when its tag is
    found, exactly one job is enqueued (one [QueueJob] call, the cache
    untouched): a Queued Deploy for the same component with
    [rollback=true], [force=true] and [shaTag] the part of the tag before
    its first comma (the whole tag when it has none). *)
Theorem postProcessJob_rollback (m : Scheduler.Manager) (js : JobState)
    (w : Scheduler.World)
    (HT : JType js = JobType_Deploy) (HS : Stage js = JobStage_Failed) :
  let res := run (Scheduler.postProcessJob m js) w in
  (param_bool (Params js) DeployJobParam_Rollback = true -> res = (w, GoVal tt))
  /\ (param_bool (Params js) DeployJobParam_Rollback = false ->
      param_string (Params js) DeployJobParam_Component = None -> res = (w, GoVal tt))
  /\ (forall c e, param_bool (Params js) DeployJobParam_Rollback = false ->
      param_string (Params js) DeployJobParam_Component = Some c ->
      GetDeployTags (Scheduler.db m) = Err e -> res = (w, GoVal tt))
  /\ (forall c tags, param_bool (Params js) DeployJobParam_Rollback = false ->
      param_string (Params js) DeployJobParam_Component = Some c ->
      GetDeployTags (Scheduler.db m) = Ok tags -> tags !! c = None -> res = (w, GoVal tt))
  /\ (forall c tags tag, param_bool (Params js) DeployJobParam_Rollback = false ->
      param_string (Params js) DeployJobParam_Component = Some c ->
      GetDeployTags (Scheduler.db m) = Ok tags -> tags !! c = Some tag ->
      snd res = GoVal tt /\ Scheduler.cache (fst res) = Scheduler.cache w
      /\ exists shaTag j,
        Scheduler.trace (fst res) = (Scheduler.trace w ++ [Scheduler.AQueueJob j])%list
        /\ JType j = JobType_Deploy /\ Stage j = JobStage_Queued
        /\ param_bool (Params j) DeployJobParam_Rollback = true
        /\ param_bool (Params j) DeployJobParam_Force = true
        /\ param_string (Params j) DeployJobParam_ShaTag = Some shaTag
        /\ param_string (Params j) DeployJobParam_Component = Some c
        /\ comma_free shaTag
        /\ (tag = shaTag \/ exists t, tag = shaTag ++ String ","%char t)).
Proof.
  intros res. subst res. unfold run, Scheduler.postProcessJob. rewrite HT, HS.
  split; [|split; [|split; [|split]]].
  - intros Hr. rewrite Hr. reflexivity.
  - intros Hr Hc. rewrite Hr, Hc. reflexivity.
  - intros c e Hr Hc Ht. rewrite Hr, Hc, Ht. reflexivity.
  - intros c tags Hr Hc Ht Hn. rewrite Hr, Hc, Ht, Hn. reflexivity.
  - intros c tags tag Hr Hc Ht Hs. rewrite Hr, Hc, Ht, Hs.
    destruct (Split_comma_head tag) as (p & rest & Hsplit & Hp & Htag).
    rewrite Hsplit. simpl. split; [reflexivity|]. split; [reflexivity|].
    exists p. eexists. split; [reflexivity|].
    repeat split; try reflexivity; assumption.
Qed.

Lemma postProcessJob_rollback_witness :
  JType Fixtures.deploy_failed = JobType_Deploy
  /\ Stage Fixtures.deploy_failed = JobStage_Failed /\
  let m := Fixtures.mgr Fixtures.db_tags 1 0 (fun _ _ _ => None) in
  let js := Fixtures.deploy_failed in
  let w := Fixtures.world [] in
  let res := run (Scheduler.postProcessJob m js) w in
  (param_bool (Params js) DeployJobParam_Rollback = true -> res = (w, GoVal tt))
  /\ (param_bool (Params js) DeployJobParam_Rollback = false ->
      param_string (Params js) DeployJobParam_Component = None -> res = (w, GoVal tt))
  /\ (forall c e, param_bool (Params js) DeployJobParam_Rollback = false ->
      param_string (Params js) DeployJobParam_Component = Some c ->
      GetDeployTags (Scheduler.db m) = Err e -> res = (w, GoVal tt))
  /\ (forall c tags, param_bool (Params js) DeployJobParam_Rollback = false ->
      param_string (Params js) DeployJobParam_Component = Some c ->
      GetDeployTags (Scheduler.db m) = Ok tags -> tags !! c = None -> res = (w, GoVal tt))
  /\ (forall c tags tag, param_bool (Params js) DeployJobParam_Rollback = false ->
      param_string (Params js) DeployJobParam_Component = Some c ->
      GetDeployTags (Scheduler.db m) = Ok tags -> tags !! c = Some tag ->
      snd res = GoVal tt /\ Scheduler.cache (fst res) = Scheduler.cache w
      /\ exists shaTag j,
        Scheduler.trace (fst res) = (Scheduler.trace w ++ [Scheduler.AQueueJob j])%list
        /\ JType j = JobType_Deploy /\ Stage j = JobStage_Queued
        /\ param_bool (Params j) DeployJobParam_Rollback = true
        /\ param_bool (Params j) DeployJobParam_Force = true
        /\ param_string (Params j) DeployJobParam_ShaTag = Some shaTag
        /\ param_string (Params j) DeployJobParam_Component = Some c
        /\ comma_free shaTag
        /\ (tag = shaTag \/ exists t, tag = shaTag ++ String ","%char t)).
Proof.
  split; [reflexivity|]. split; [reflexivity|].
  exact (postProcessJob_rollback (Fixtures.mgr Fixtures.db_tags 1 0 (fun _ _ _ => None))
           Fixtures.deploy_failed (Fixtures.world []) eq_refl eq_refl).
Defined.

Lemma St_bind_ok {S A B} (ma : St S A) (k : A -> St S B) (s s' : S) (a : A) :
  ma s = (s', GoVal a) -> (ma ≫= k) s = k a s'.
Proof. intros H. unfold mbind, St_bind. rewrite H. reflexivity. Qed.

Lemma assert_string_ok {S} (p : gmap string Value) (k c : string) (s : S) :
  param_string p k = Some c -> assert_string p k s = (s, GoVal c).
Proof. intros H. unfold assert_string. rewrite H. reflexivity. Qed.

Section ForceDeploy.
Variable m : Scheduler.Manager.

Lemma updateJobStage_ok (js : JobState) (s : JobStage) (e : option string) (w : Scheduler.World) :
  Scheduler.AdvanceStage m js s e = None ->
  Scheduler.updateJobStage m js s e w =
    (Scheduler.mkWorld (<[JobId js := with_stage js s]> (Scheduler.cache w)) (Scheduler.fresh w)
       (Scheduler.trace w ++ [Scheduler.AUpdateStage js s e])%list, GoVal None).
Proof. intros H. unfold Scheduler.updateJobStage. rewrite H. reflexivity. Qed.

Lemma updateJobStage_err (js : JobState) (s : JobStage) (e : option string) (w : Scheduler.World) err :
  Scheduler.AdvanceStage m js s e = Some err ->
  Scheduler.updateJobStage m js s e w =
    (Scheduler.mkWorld (Scheduler.cache w) (Scheduler.fresh w)
       (Scheduler.trace w ++ [Scheduler.AUpdateStage js s e])%list, GoVal (Some err)).
Proof. intros H. unfold Scheduler.updateJobStage. rewrite H. reflexivity. Qed.

Lemma skipForDeploys_spec (F : gmap string JobState) (L : list JobState) (w : Scheduler.World)
    (Hc : forall j, In j L -> JType j = JobType_Deploy ->
          is_Some (param_string (Params j) DeployJobParam_Component)) :
  exists w' S' (b : bool), Scheduler.skipForDeploys m F L w = (w', GoVal b)
    /\ Scheduler.trace w' = (Scheduler.trace w
         ++ map (fun j => Scheduler.AUpdateStage j JobStage_Skipped None) S')%list
    /\ (forall k, Scheduler.cache w' !! k = Scheduler.cache w !! k
          \/ exists j, In j L /\ k = JobId j
                       /\ Scheduler.cache w' !! k = Some (with_stage j JobStage_Skipped))
    /\ (forall j, In j S' -> In j (List.filter (should_skip F) L))
    /\ (b = false -> S' = List.filter (should_skip F) L
                    /\ forall j, In j S' -> Scheduler.AdvanceStage m j JobStage_Skipped None = None)
    /\ (b = true -> exists pre jf, S' = (pre ++ [jf])%list
                   /\ Scheduler.AdvanceStage m jf JobStage_Skipped None <> None
                   /\ forall j, In j pre -> Scheduler.AdvanceStage m j JobStage_Skipped None = None).
Proof.
  revert w. induction L as [|j rest IH]; intros w.
  - exists w, [], false. simpl. rewrite app_nil_r.
    split; [reflexivity|]. split; [reflexivity|]. split; [intros k; left; reflexivity|].
    split; [intros j []|]. split; [intros _; split; [reflexivity|intros j []]|discriminate].
  - assert (IH' := fun w => IH (fun j' Hj' => Hc j' (or_intror Hj')) w). clear IH.
    change (List.filter (should_skip F) (j :: rest))
      with (if should_skip F j then j :: List.filter (should_skip F) rest
            else List.filter (should_skip F) rest).
    cbn [Scheduler.skipForDeploys].
    (* the shape of the step when [j] is passed over *)
    assert (Hpass : should_skip F j = false ->
              exists w' S' (b : bool), Scheduler.skipForDeploys m F rest w = (w', GoVal b)
    /\ Scheduler.trace w' = (Scheduler.trace w
         ++ map (fun j => Scheduler.AUpdateStage j JobStage_Skipped None) S')%list
    /\ (forall k, Scheduler.cache w' !! k = Scheduler.cache w !! k
          \/ exists j', In j' (j :: rest) /\ k = JobId j'
                       /\ Scheduler.cache w' !! k = Some (with_stage j' JobStage_Skipped))
    /\ (forall j', In j' S' -> In j' (List.filter (should_skip F) rest))
    /\ (b = false -> S' = List.filter (should_skip F) rest
                    /\ forall j', In j' S' -> Scheduler.AdvanceStage m j' JobStage_Skipped None = None)
    /\ (b = true -> exists pre jf, S' = (pre ++ [jf])%list
                   /\ Scheduler.AdvanceStage m jf JobStage_Skipped None <> None
                   /\ forall j', In j' pre -> Scheduler.AdvanceStage m j' JobStage_Skipped None = None)).
    { intros _. destruct (IH' w) as (w' & S' & b & Hrun & Htr & Hcache & Hsub & Hf & Ht).
      exists w', S', b. split; [exact Hrun|]. split; [exact Htr|].
      split; [|split; [exact Hsub|split; [exact Hf|exact Ht]]].
      intros k. destruct (Hcache k) as [E|(j' & Hj' & Hk & E)]; [left; exact E|].
      right. exists j'. split; [right; exact Hj'|]. auto. }
    destruct (Scheduler.is_type JobType_Deploy j) eqn:Hd.
    + assert (HdT : JType j = JobType_Deploy)
        by (unfold Scheduler.is_type in Hd; apply bool_decide_eq_true in Hd; exact Hd).
      destruct (Hc j (or_introl eq_refl) HdT) as [c Hcj].
      rewrite (St_bind_ok _ _ _ _ _ (assert_string_ok _ _ _ w Hcj)).
      assert (Hco : comp_of j = c) by (unfold comp_of; rewrite Hcj; reflexivity).
      unfold should_skip in Hpass |- *. rewrite Hd, Hco in *. simpl andb in *.
      destruct (F !! c) as [f|] eqn:Hf; [|apply Hpass; reflexivity].
      destruct (negb (JobId j =? JobId f)) eqn:Hne; [|apply Hpass; reflexivity].
      destruct (Scheduler.AdvanceStage m j JobStage_Skipped None) as [err|] eqn:Ha.
      * rewrite (St_bind_ok _ _ _ _ _ (updateJobStage_err _ _ _ w err Ha)).
        eexists _, [j], true. split; [reflexivity|]. split; [reflexivity|].
        split; [intros k; left; reflexivity|].
        split; [intros j' [<-|[]]; left; reflexivity|].
        split; [discriminate|].
        intros _. exists [], j. split; [reflexivity|]. split; [rewrite Ha; discriminate|].
        intros j' [].
      * rewrite (St_bind_ok _ _ _ _ _ (updateJobStage_ok _ _ _ w Ha)).
        destruct (IH' (Scheduler.mkWorld (<[JobId j := with_stage j JobStage_Skipped]>
                     (Scheduler.cache w)) (Scheduler.fresh w)
                     (Scheduler.trace w ++ [Scheduler.AUpdateStage j JobStage_Skipped None])%list))
          as (w' & S' & b & Hrun & Htr & Hcache & Hsub & Hfl & Ht).
        exists w', (j :: S'), b. split; [exact Hrun|].
        split; [rewrite Htr; simpl; rewrite <- app_assoc; reflexivity|].
        split.
        { intros k. destruct (Hcache k) as [E|(j' & Hj' & Hk & E)].
          - simpl in E. destruct (decide (k = JobId j)) as [->|Hk].
            + right. exists j. split; [left; reflexivity|]. split; [reflexivity|].
              rewrite E. apply lookup_insert_eq.
            + left. rewrite E. apply lookup_insert_ne. congruence.
          - right. exists j'. split; [right; exact Hj'|]. auto. }
        split; [intros j' [<-|Hj']; [left; reflexivity|right; auto]|].
        split.
        { intros Hb. destruct (Hfl Hb) as [-> Hok]. split; [reflexivity|].
          intros j' [<-|Hj']; [exact Ha|auto]. }
        { intros Hb. destruct (Ht Hb) as (pre & jf & -> & Hfail & Hpre).
          exists (j :: pre), jf. split; [reflexivity|]. split; [exact Hfail|].
          intros j' [<-|Hj']; [exact Ha|auto]. }
    + unfold should_skip in Hpass |- *. rewrite Hd in *. simpl andb in *.
      apply Hpass. reflexivity.
Qed.

Lemma cancelForDeploys_spec (F : gmap string JobState) (A : list JobState) (w : Scheduler.World)
    (Hc : forall a, In a A -> is_Some (param_string (Params a) DeployJobParam_Component)) :
  exists w' C (b : bool), Scheduler.cancelForDeploys m F A w = (w', GoVal b)
    /\ Scheduler.trace w' = (Scheduler.trace w
         ++ map (fun a => Scheduler.AUpdateStage a JobStage_Canceled None) C)%list
    /\ (forall a, In a C -> In a (List.filter (should_cancel F) A))
    /\ (b = false -> C = List.filter (should_cancel F) A
                    /\ forall a, In a C -> Scheduler.AdvanceStage m a JobStage_Canceled None = None)
    /\ (b = true -> exists pre af, C = (pre ++ [af])%list
                   /\ Scheduler.AdvanceStage m af JobStage_Canceled None <> None
                   /\ forall a, In a pre -> Scheduler.AdvanceStage m a JobStage_Canceled None = None).
Proof.
  revert w. induction A as [|a rest IH]; intros w.
  - exists w, [], false. simpl. rewrite app_nil_r.
    split; [reflexivity|]. split; [reflexivity|].
    split; [intros a []|]. split; [intros _; split; [reflexivity|intros a []]|discriminate].
  - assert (IH' := fun w => IH (fun a' Ha' => Hc a' (or_intror Ha')) w). clear IH.
    change (List.filter (should_cancel F) (a :: rest))
      with (if should_cancel F a then a :: List.filter (should_cancel F) rest
            else List.filter (should_cancel F) rest).
    cbn [Scheduler.cancelForDeploys].
    destruct (Hc a (or_introl eq_refl)) as [c Hca].
    rewrite (St_bind_ok _ _ _ _ _ (assert_string_ok _ _ _ w Hca)).
    assert (Hco : comp_of a = c) by (unfold comp_of; rewrite Hca; reflexivity).
    assert (Hsc : should_cancel F a = match F !! c with Some _ => true | None => false end)
      by (unfold should_cancel; rewrite Hco; reflexivity).
    rewrite Hsc. destruct (F !! c) as [f|] eqn:Hf.
    + destruct (Scheduler.AdvanceStage m a JobStage_Canceled None) as [err|] eqn:Ha.
      * rewrite (St_bind_ok _ _ _ _ _ (updateJobStage_err _ _ _ w err Ha)).
        eexists _, [a], true. split; [reflexivity|]. split; [reflexivity|].
        split; [intros a' [<-|[]]; left; reflexivity|].
        split; [discriminate|].
        intros _. exists [], a. split; [reflexivity|]. split; [rewrite Ha; discriminate|].
        intros a' [].
      * rewrite (St_bind_ok _ _ _ _ _ (updateJobStage_ok _ _ _ w Ha)).
        destruct (IH' (Scheduler.mkWorld (<[JobId a := with_stage a JobStage_Canceled]>
                     (Scheduler.cache w)) (Scheduler.fresh w)
                     (Scheduler.trace w ++ [Scheduler.AUpdateStage a JobStage_Canceled None])%list))
          as (w' & C & b & Hrun & Htr & Hsub & Hfl & Ht).
        exists w', (a :: C), b. split; [exact Hrun|].
        split; [rewrite Htr; simpl; rewrite <- app_assoc; reflexivity|].
        split; [intros a' [<-|Ha']; [left; reflexivity|right; auto]|].
        split.
        { intros Hb. destruct (Hfl Hb) as [-> Hok]. split; [reflexivity|].
          intros a' [<-|Ha']; [exact Ha|auto]. }
        { intros Hb. destruct (Ht Hb) as (pre & af & -> & Hfail & Hpre).
          exists (a :: pre), af. split; [reflexivity|]. split; [exact Hfail|].
          intros a' [<-|Ha']; [exact Ha|auto]. }
    + exact (IH' w).
Qed.

Lemma advanceJobs_spec (L : list JobState) (w : Scheduler.World) :
  Scheduler.advanceJobs L w =
    (Scheduler.mkWorld (Scheduler.cache w) (Scheduler.fresh w)
       (Scheduler.trace w ++ map Scheduler.AAdvance L)%list, GoVal tt).
Proof.
  revert w. induction L as [|j rest IH]; intros w.
  - simpl. rewrite app_nil_r. destruct w; reflexivity.
  - cbn [Scheduler.advanceJobs]. unfold Scheduler.advanceJob.
    rewrite (St_bind_ok _ _ _ _ _ (eq_refl : Scheduler.act (Scheduler.AAdvance j) w = _)).
    rewrite IH. simpl. rewrite <- app_assoc. reflexivity.
Qed.

End ForceDeploy.

Lemma newest_force_cons (j : JobState) (rest : list JobState) (c : string) (f : JobState) :
  newest_force (j :: rest) c f <->
  newest_force rest c f
  \/ (f = j /\ is_force_deploy c j /\ forall k, In k rest -> ~ is_force_deploy c k).
Proof.
  split.
  - intros (L1 & L2 & HL & Hf & Hno). destruct L1 as [|x L1]; simpl in HL.
    + injection HL as -> ->. right. auto.
    + injection HL as -> ->. left. exists L1, L2. auto.
  - intros [(L1 & L2 & HL & Hf & Hno)|(-> & Hf & Hno)].
    + exists (j :: L1), L2. subst rest. auto.
    + exists [], rest. auto.
Qed.

Lemma newest_force_exists (L : list JobState) (c : string) :
  (exists k, In k L /\ is_force_deploy c k) -> exists f, newest_force L c f.
Proof.
  induction L as [|x L IH] using rev_ind; intros (k & Hk & Hf); [destruct Hk|].
  destruct (decide (is_force_deploy c x)) as [Hx|Hx].
  - exists x, L, []. split; [reflexivity|]. split; [exact Hx|]. intros k' [].
  - apply in_app_or in Hk. destruct Hk as [Hk|[<-|[]]]; [|contradiction].
    destruct (IH (ex_intro _ k (conj Hk Hf))) as (f & L1 & L2 & HL & Hff & Hno).
    exists f, L1, (L2 ++ [x])%list. split; [subst L; simpl; rewrite <- app_assoc; reflexivity|].
    split; [exact Hff|]. intros k' Hk'. apply in_app_or in Hk'.
    destruct Hk' as [Hk'|[<-|[]]]; [apply Hno; exact Hk'|exact Hx].
Qed.

Lemma collectForceDeploys_spec (m : Scheduler.Manager) (L : list JobState)
    (acc : gmap string JobState) (w : Scheduler.World)
    (Hc : forall j, In j L -> JType j = JobType_Deploy ->
          is_Some (param_string (Params j) DeployJobParam_Component)) :
  exists F, Scheduler.collectForceDeploys L acc w = (w, GoVal F)
    /\ forall c f, F !! c = Some f <->
         newest_force L c f
         \/ (acc !! c = Some f /\ forall k, In k L -> ~ is_force_deploy c k).
Proof.
  revert acc. induction L as [|j rest IH]; intros acc.
  - exists acc. split; [reflexivity|]. intros c f. split.
    + intros H. right. split; [exact H|]. intros k [].
    + intros [(L1 & L2 & HL & _)|[H _]]; [destruct L1; discriminate|exact H].
  - assert (IH' := fun acc => IH (fun j' Hj' => Hc j' (or_intror Hj')) acc). clear IH.
    cbn [Scheduler.collectForceDeploys].
    destruct (Scheduler.is_type JobType_Deploy j
              && param_bool (Params j) DeployJobParam_Force) eqn:Hjf.
    + apply andb_true_iff in Hjf. destruct Hjf as [Hd Hfo].
      assert (HdT : JType j = JobType_Deploy)
        by (unfold Scheduler.is_type in Hd; apply bool_decide_eq_true in Hd; exact Hd).
      destruct (Hc j (or_introl eq_refl) HdT) as [c0 Hcj].
      rewrite (St_bind_ok _ _ _ _ _ (assert_string_ok _ _ _ w Hcj)).
      destruct (IH' (<[c0 := j]> acc)) as (F & Hrun & HF).
      exists F. split; [exact Hrun|]. intros c f. rewrite HF, newest_force_cons.
      assert (Hjc : is_force_deploy c0 j) by (split; [exact HdT|split; assumption]).
      destruct (decide (c = c0)) as [->|Hne].
      * rewrite lookup_insert_eq. split.
        -- intros [H|[[= <-] Hno]]; [left; left; exact H|left; right; auto].
        -- intros [[H|(-> & _ & Hno)]|[_ Hno]].
           ++ left. exact H.
           ++ right. auto.
           ++ exfalso. apply (Hno j); [left; reflexivity|exact Hjc].
      * rewrite lookup_insert_ne by congruence. split.
        -- intros [H|[Ha Hno]]; [left; left; exact H|].
           right. split; [exact Ha|]. intros k [<-|Hk]; [|apply Hno; exact Hk].
           intros (_ & _ & Hk). rewrite Hcj in Hk. congruence.
        -- intros [[H|(-> & (_ & _ & Hk) & _)]|[Ha Hno]].
           ++ left. exact H.
           ++ rewrite Hcj in Hk. congruence.
           ++ right. split; [exact Ha|]. intros k Hk. apply Hno. right. exact Hk.
    + destruct (IH' acc) as (F & Hrun & HF).
      exists F. split; [exact Hrun|]. intros c f. rewrite HF, newest_force_cons.
      assert (Hnj : ~ is_force_deploy c j).
      { intros (HdT & Hfo & _). apply andb_false_iff in Hjf.
        unfold Scheduler.is_type in Hjf. rewrite HdT, Hfo in Hjf.
        destruct Hjf as [H|H]; [rewrite bool_decide_eq_false in H; apply H; reflexivity|discriminate]. }
      split.
      * intros [H|[Ha Hno]]; [left; left; exact H|].
        right. split; [exact Ha|]. intros k [<-|Hk]; [exact Hnj|apply Hno; exact Hk].
      * intros [[H|(-> & Hj & _)]|[Ha Hno]].
        -- left. exact H.
        -- contradiction.
        -- right. split; [exact Ha|]. intros k Hk. apply Hno. right. exact Hk.
Qed.

Lemma In_map_snd_map_to_list (M : gmap string JobState) (a : JobState) :
  In a (map snd (map_to_list M)) <-> exists k, M !! k = Some a.
Proof.
  rewrite in_map_iff. split.
  - intros ([k a'] & <- & Hin). exists k. apply elem_of_map_to_list.
    apply list_elem_of_In. exact Hin.
  - intros [k Hk]. exists (k, a). split; [reflexivity|].
    apply list_elem_of_In. apply elem_of_map_to_list. exact Hk.
Qed.

Lemma NoDup_JobId (L : list JobState) (j f : JobState) :
  NoDup (map JobId L) -> In j L -> In f L -> JobId j = JobId f -> j = f.
Proof.
  induction L as [|x L IH]; intros Hnd Hj Hf Hid; [destruct Hj|].
  simpl in Hnd. apply NoDup_cons in Hnd. destruct Hnd as [Hx Hnd].
  destruct Hj as [<-|Hj], Hf as [<-|Hf]; [reflexivity| | |auto].
  - exfalso. apply Hx. apply list_elem_of_In. rewrite Hid. apply in_map. exact Hf.
  - exfalso. apply Hx. apply list_elem_of_In. rewrite <- Hid. apply in_map. exact Hj.
Qed.

Lemma newest_force_In (L : list JobState) (c : string) (f : JobState) :
  newest_force L c f -> In f L.
Proof.
  intros (L1 & L2 & -> & _). apply in_or_app. right. left. reflexivity.
Qed.

Ltac in_app_map H :=
  repeat match type of H with
         | In _ (_ ++ _) => apply in_app_or in H; destruct H as [H|H]
         | In _ (map _ _) => let x := fresh "x" in let Hx := fresh "Hx" in
                             apply in_map_iff in H; destruct H as (x & Hx & H)
         end.

Section ForceTick.
Variable m : Scheduler.Manager.
Variable L : list JobState.
Variable w : Scheduler.World.

(** Reading the outcome of the override off its three lists: the skipped
    jobs [S], the canceled jobs [C] and the advanced jobs [V]. *)
Lemma force_trace_props (S C V : list JobState)
    (HS : forall j, In j S -> In j L /\ superseded L j)
    (HC : forall a, In a C -> active_deploy m w a /\
          exists c f, param_string (Params a) DeployJobParam_Component = Some c
                      /\ newest_force L c f)
    (HV : forall j, In j V -> exists c, newest_force L c j)
    (Hall : (forall j s, In (Scheduler.AUpdateStage j s None)
               (map (fun j => Scheduler.AUpdateStage j JobStage_Skipped None) S
                ++ map (fun a => Scheduler.AUpdateStage a JobStage_Canceled None) C
                ++ map Scheduler.AAdvance V)%list
             -> Scheduler.AdvanceStage m j s None = None) ->
            (forall j, In j L -> superseded L j -> In j S)
            /\ (forall a c f, active_deploy m w a ->
                param_string (Params a) DeployJobParam_Component = Some c ->
                newest_force L c f -> In a C)
            /\ (forall c f, newest_force L c f -> In f V))
    (Hnone : (exists j s, In (Scheduler.AUpdateStage j s None)
               (map (fun j => Scheduler.AUpdateStage j JobStage_Skipped None) S
                ++ map (fun a => Scheduler.AUpdateStage a JobStage_Canceled None) C
                ++ map Scheduler.AAdvance V)%list
              /\ Scheduler.AdvanceStage m j s None <> None) -> V = [])
    (Hlast : (exists j s, In (Scheduler.AUpdateStage j s None)
               (map (fun j => Scheduler.AUpdateStage j JobStage_Skipped None) S
                ++ map (fun a => Scheduler.AUpdateStage a JobStage_Canceled None) C
                ++ map Scheduler.AAdvance V)%list
              /\ Scheduler.AdvanceStage m j s None <> None) ->
             exists pre jf sf, (map (fun j => Scheduler.AUpdateStage j JobStage_Skipped None) S
                  ++ map (fun a => Scheduler.AUpdateStage a JobStage_Canceled None) C
                  ++ map Scheduler.AAdvance V)%list = (pre ++ [Scheduler.AUpdateStage jf sf None])%list
             /\ Scheduler.AdvanceStage m jf sf None <> None
             /\ forall j s e, In (Scheduler.AUpdateStage j s e) pre ->
                  Scheduler.AdvanceStage m j s e = None) :
  let new := (map (fun j => Scheduler.AUpdateStage j JobStage_Skipped None) S
              ++ map (fun a => Scheduler.AUpdateStage a JobStage_Canceled None) C
              ++ map Scheduler.AAdvance V)%list in
  (forall j, In (Scheduler.AAdvance j) new -> exists c, newest_force L c j)
  /\ (forall j, ~ In (Scheduler.AQueueJob j) new)
  /\ (forall j s e, In (Scheduler.AUpdateStage j s e) new -> e = None /\
        ((s = JobStage_Skipped /\ In j L /\ superseded L j)
         \/ (s = JobStage_Canceled /\ active_deploy m w j
             /\ exists c f, param_string (Params j) DeployJobParam_Component = Some c
                            /\ newest_force L c f)))
  /\ ((forall j s, In (Scheduler.AUpdateStage j s None) new ->
         Scheduler.AdvanceStage m j s None = None) ->
      (forall j, In j L -> superseded L j ->
         In (Scheduler.AUpdateStage j JobStage_Skipped None) new)
      /\ (forall a c f, active_deploy m w a ->
          param_string (Params a) DeployJobParam_Component = Some c ->
          newest_force L c f -> In (Scheduler.AUpdateStage a JobStage_Canceled None) new)
      /\ (forall c f, newest_force L c f -> In (Scheduler.AAdvance f) new))
  /\ ((exists j s, In (Scheduler.AUpdateStage j s None) new
                   /\ Scheduler.AdvanceStage m j s None <> None) ->
      (forall j, ~ In (Scheduler.AAdvance j) new)
      /\ exists pre jf sf, new = (pre ++ [Scheduler.AUpdateStage jf sf None])%list
         /\ Scheduler.AdvanceStage m jf sf None <> None
         /\ forall j s e, In (Scheduler.AUpdateStage j s e) pre ->
              Scheduler.AdvanceStage m j s e = None).
Proof.
  intros new. subst new. split; [|split; [|split; [|split]]].
  - intros j H. in_app_map H; try discriminate. injection Hx as ->. auto.
  - intros j H. in_app_map H; discriminate.
  - intros j s e H. in_app_map H; try discriminate.
    + injection Hx as <- <- <-. split; [reflexivity|]. left. split; [reflexivity|]. auto.
    + injection Hx as <- <- <-. split; [reflexivity|]. right. split; [reflexivity|]. auto.
  - intros Hok. destruct (Hall Hok) as (H1 & H2 & H3). split; [|split].
    + intros j Hj Hs. apply in_or_app. left. apply in_map_iff. eauto.
    + intros a c f Ha Hc Hf. apply in_or_app. right. apply in_or_app. left.
      apply in_map_iff. eauto.
    + intros c f Hf. apply in_or_app. right. apply in_or_app. right.
      apply in_map_iff. eauto.
  - intros Hfail. split; [|exact (Hlast Hfail)].
    rewrite (Hnone Hfail). intros j H. in_app_map H; try discriminate.
    destruct H.
Qed.

End ForceTick.

(** C1 (counterexample): when the store refuses the Skip of the plain
    deploy [dep-1], the tick stops there: the active deploy [dep-0] is
    not canceled and the force deploy [dep-2] is not advanced. *)
Lemma processDequeued_force_skip_refused :
  let m := Fixtures.mgr Fixtures.db_ok 1 0 (Fixtures.fail_on "dep-1") in
  let w := Fixtures.world [Fixtures.dep0] in
  run (Scheduler.processDequeued m [Fixtures.dep1; Fixtures.dep2]) w
  = (Scheduler.mkWorld (Scheduler.cache w) 0
       [Scheduler.AUpdateStage Fixtures.dep1 JobStage_Skipped None], GoVal tt).
Proof. vm_compute. reflexivity. Qed.

(** C1 (amended): a tick whose Dequeued list [L] holds a force deploy
    (every Deploy of [L] and every active Deploy naming its component,
    job ids distinct, no job of [L] active in the cache). The tick ends
    without panic and does nothing but the override: no job other than
    the newest force deploy of a component is advanced, nothing is
    enqueued (anchor processing is suppressed), and the only stage
    updates are Skips of Deploys of [L] superseded by the newest force
    deploy of their component and Cancels of active Deploys of a forced
    component. When every update made succeeds, all those Skips and
    Cancels are made and every newest force deploy is advanced; when one
    of them fails, the tick stops there: the failed update is the last
    action of the tick, every update before it succeeded, the remaining
    Skips and Cancels are not made and nothing is advanced. *)
Theorem processDequeued_force (m : Scheduler.Manager) (L : list JobState) (w : Scheduler.World)
    (Hcomp : forall j, In j L -> JType j = JobType_Deploy ->
             is_Some (param_string (Params j) DeployJobParam_Component))
    (Hactive : forall a, active_deploy m w a ->
               is_Some (param_string (Params a) DeployJobParam_Component))
    (Hids : NoDup (map JobId L))
    (Hdeq : forall j a, In j L -> Scheduler.cache w !! JobId j = Some a ->
            ~ (Scheduler.IsActiveJob m a = true /\ JType a = JobType_Deploy))
    (Hskip : forall j, In j L -> Scheduler.IsActiveJob m (with_stage j JobStage_Skipped) = false)
    (Hforce : exists c j, In j L /\ is_force_deploy c j) :
  let res := run (Scheduler.processDequeued m L) w in
  snd res = GoVal tt /\
  exists new, Scheduler.trace (fst res) = (Scheduler.trace w ++ new)%list
  /\ (forall j, In (Scheduler.AAdvance j) new -> exists c, newest_force L c j)
  /\ (forall j, ~ In (Scheduler.AQueueJob j) new)
  /\ (forall j s e, In (Scheduler.AUpdateStage j s e) new -> e = None /\
        ((s = JobStage_Skipped /\ In j L /\ superseded L j)
         \/ (s = JobStage_Canceled /\ active_deploy m w j
             /\ exists c f, param_string (Params j) DeployJobParam_Component = Some c
                            /\ newest_force L c f)))
  /\ ((forall j s, In (Scheduler.AUpdateStage j s None) new ->
         Scheduler.AdvanceStage m j s None = None) ->
      (forall j, In j L -> superseded L j ->
         In (Scheduler.AUpdateStage j JobStage_Skipped None) new)
      /\ (forall a c f, active_deploy m w a ->
          param_string (Params a) DeployJobParam_Component = Some c ->
          newest_force L c f -> In (Scheduler.AUpdateStage a JobStage_Canceled None) new)
      /\ (forall c f, newest_force L c f -> In (Scheduler.AAdvance f) new))
  /\ ((exists j s, In (Scheduler.AUpdateStage j s None) new
                   /\ Scheduler.AdvanceStage m j s None <> None) ->
      (forall j, ~ In (Scheduler.AAdvance j) new)
      /\ exists pre jf sf, new = (pre ++ [Scheduler.AUpdateStage jf sf None])%list
         /\ Scheduler.AdvanceStage m jf sf None <> None
         /\ forall j s e, In (Scheduler.AUpdateStage j s e) pre ->
              Scheduler.AdvanceStage m j s e = None).
Proof.
  intros res. subst res. unfold run.
  destruct Hforce as (c0 & k0 & Hk0 & Hfk0).
  destruct (newest_force_exists L c0 (ex_intro _ k0 (conj Hk0 Hfk0))) as [f0 Hf0].
  (* the force map *)
  destruct (collectForceDeploys_spec m L ∅ w Hcomp) as (F & HrunF & HF0).
  assert (HF : forall c f, F !! c = Some f <-> newest_force L c f).
  { intros c f. rewrite HF0, lookup_empty. split.
    - intros [H|[H _]]; [exact H|discriminate].
    - intros H. left. exact H. }
  clear HF0.
  assert (Hsz : Nat.ltb 0 (size F) = true).
  { apply Nat.ltb_lt.
    assert (size F <> 0) by (apply (map_size_ne_0_lookup_2 F c0); exists f0; apply HF; exact Hf0).
    lia. }
  (* the jobs the skip loop selects *)
  assert (Hskip_in : forall j, In j (List.filter (should_skip F) L) <-> In j L /\ superseded L j).
  { intros j. rewrite filter_In. split.
    - intros [Hj Hs]. split; [exact Hj|].
      unfold should_skip in Hs. apply andb_true_iff in Hs. destruct Hs as [Hd Hs].
      assert (HdT : JType j = JobType_Deploy)
        by (unfold Scheduler.is_type in Hd; apply bool_decide_eq_true in Hd; exact Hd).
      destruct (Hcomp j Hj HdT) as [c Hc].
      assert (Hco : comp_of j = c) by (unfold comp_of; rewrite Hc; reflexivity).
      rewrite Hco in Hs. destruct (F !! c) as [f|] eqn:Hfc; [|discriminate].
      split; [exact HdT|]. exists c, f. split; [exact Hc|]. split; [apply HF; exact Hfc|].
      intros ->. rewrite String.eqb_refl in Hs. discriminate.
    - intros [Hj (HdT & c & f & Hc & Hnf & Hne)]. split; [exact Hj|].
      unfold should_skip. apply andb_true_iff. split.
      + unfold Scheduler.is_type. apply bool_decide_eq_true. exact HdT.
      + assert (Hco : comp_of j = c) by (unfold comp_of; rewrite Hc; reflexivity).
        rewrite Hco. apply HF in Hnf. rewrite Hnf.
        destruct (String.eqb (JobId j) (JobId f)) eqn:E; [|reflexivity].
        apply String.eqb_eq in E. exfalso. apply Hne.
        apply (NoDup_JobId L); [exact Hids|exact Hj|apply HF in Hnf; eapply newest_force_In; exact Hnf|exact E]. }
  unfold Scheduler.processDequeued.
  assert (Hlen : Nat.ltb 0 (length L) = true) by (destruct L; [destruct Hk0|reflexivity]).
  rewrite Hlen.
  (* from here on, everything happens in [processForceDeployJobs] *)
  assert (Hforced : exists w' new,
      Scheduler.processForceDeployJobs m L w = (w', GoVal true)
      /\ Scheduler.trace w' = (Scheduler.trace w ++ new)%list
      /\ (forall j, In (Scheduler.AAdvance j) new -> exists c, newest_force L c j)
      /\ (forall j, ~ In (Scheduler.AQueueJob j) new)
      /\ (forall j s e, In (Scheduler.AUpdateStage j s e) new -> e = None /\
            ((s = JobStage_Skipped /\ In j L /\ superseded L j)
             \/ (s = JobStage_Canceled /\ active_deploy m w j
                 /\ exists c f, param_string (Params j) DeployJobParam_Component = Some c
                                /\ newest_force L c f)))
      /\ ((forall j s, In (Scheduler.AUpdateStage j s None) new ->
             Scheduler.AdvanceStage m j s None = None) ->
          (forall j, In j L -> superseded L j ->
             In (Scheduler.AUpdateStage j JobStage_Skipped None) new)
          /\ (forall a c f, active_deploy m w a ->
              param_string (Params a) DeployJobParam_Component = Some c ->
              newest_force L c f -> In (Scheduler.AUpdateStage a JobStage_Canceled None) new)
          /\ (forall c f, newest_force L c f -> In (Scheduler.AAdvance f) new))
      /\ ((exists j s, In (Scheduler.AUpdateStage j s None) new
                       /\ Scheduler.AdvanceStage m j s None <> None) ->
          (forall j, ~ In (Scheduler.AAdvance j) new)
          /\ exists pre jf sf, new = (pre ++ [Scheduler.AUpdateStage jf sf None])%list
             /\ Scheduler.AdvanceStage m jf sf None <> None
             /\ forall j s e, In (Scheduler.AUpdateStage j s e) pre ->
                  Scheduler.AdvanceStage m j s e = None)).
  { clear Hlen.
    unfold Scheduler.processForceDeployJobs.
    rewrite (St_bind_ok _ _ _ _ _ HrunF), Hsz.
    destruct (skipForDeploys_spec m F L w Hcomp)
      as (w1 & S' & b1 & Hrun1 & Htr1 & Hcache1 & Hsub1 & Hok1 & Hfail1).
    rewrite (St_bind_ok _ _ _ _ _ Hrun1).
    assert (HS : forall j, In j S' -> In j L /\ superseded L j)
      by (intros j Hj; apply Hskip_in; apply Hsub1; exact Hj).
    destruct b1.
    - (* a skip failed: [return true] *)
      destruct (Hfail1 eq_refl) as (pre & jf & HSeq & Hfj & Hpre).
      exists w1, (map (fun j => Scheduler.AUpdateStage j JobStage_Skipped None) S' ++ []
                   ++ map Scheduler.AAdvance [])%list.
      split; [reflexivity|]. split; [rewrite Htr1, !app_nil_r; reflexivity|].
      apply (force_trace_props m L w S' [] []); [exact HS|intros a []|intros j []| |reflexivity|].
      + intros Hok. exfalso. apply Hfj. apply Hok. apply in_or_app. left.
        apply in_map_iff. exists jf. split; [reflexivity|].
        rewrite HSeq. apply in_or_app. right. left. reflexivity.
      + intros _. exists (map (fun j => Scheduler.AUpdateStage j JobStage_Skipped None) pre),
          jf, JobStage_Skipped.
        split; [rewrite HSeq, map_app; simpl; rewrite !app_nil_r; reflexivity|].
        split; [exact Hfj|].
        intros j s e H. apply in_map_iff in H. destruct H as (x & Hx & Hin).
        injection Hx as E1 E2 E3. subst. apply Hpre. exact Hin.
    - destruct (Hok1 eq_refl) as [HS' HokS].
      set (A := List.filter (fun js => Scheduler.IsActiveJob m js
                                       && Scheduler.is_type JobType_Deploy js)
                  (map snd (map_to_list (Scheduler.cache w1)))).
      assert (HA : forall a, In a A <-> active_deploy m w a).
      { intros a. unfold A. rewrite filter_In, In_map_snd_map_to_list. split.
        - intros [[k Hk] Hact]. apply andb_true_iff in Hact. destruct Hact as [Hact Hd].
          assert (HdT : JType a = JobType_Deploy)
            by (unfold Scheduler.is_type in Hd; apply bool_decide_eq_true in Hd; exact Hd).
          destruct (Hcache1 k) as [E|(j & Hj & -> & E)].
          + exists k. rewrite <- E. auto.
          + rewrite Hk in E. injection E as ->. rewrite Hskip in Hact by exact Hj.
            discriminate.
        - intros (k & Hk & Hact & HdT).
          split.
          + exists k. destruct (Hcache1 k) as [E|(j & Hj & -> & E)].
            * rewrite E. exact Hk.
            * exfalso. apply (Hdeq j a Hj Hk). auto.
          + rewrite Hact. unfold Scheduler.is_type. rewrite HdT. reflexivity. }
      rewrite (St_bind_ok _ _ _ _ _ (eq_refl : Scheduler.getActiveDeploys m w1 = (w1, GoVal A))).
      assert (HcA : forall a, In a A -> is_Some (param_string (Params a) DeployJobParam_Component))
        by (intros a Ha; apply Hactive; apply HA; exact Ha).
      destruct (cancelForDeploys_spec m F A w1 HcA)
        as (w2 & C & b2 & Hrun2 & Htr2 & Hsub2 & Hok2 & Hfail2).
      rewrite (St_bind_ok _ _ _ _ _ Hrun2).
      assert (HC : forall a, In a C -> active_deploy m w a /\
                exists c f, param_string (Params a) DeployJobParam_Component = Some c
                            /\ newest_force L c f).
      { intros a Ha. apply Hsub2 in Ha. apply filter_In in Ha. destruct Ha as [Ha Hsc].
        apply HA in Ha. split; [exact Ha|].
        destruct (Hactive a Ha) as [c Hc]. exists c.
        unfold should_cancel, comp_of in Hsc. rewrite Hc in Hsc. simpl in Hsc.
        destruct (F !! c) as [f|] eqn:Hfc; [|discriminate].
        exists f. split; [exact Hc|]. apply HF. exact Hfc. }
      destruct b2.
      + destruct (Hfail2 eq_refl) as (preC & af & HCeq & Hfa & HpreC).
        exists w2, (map (fun j => Scheduler.AUpdateStage j JobStage_Skipped None) S'
                     ++ map (fun a => Scheduler.AUpdateStage a JobStage_Canceled None) C
                     ++ map Scheduler.AAdvance [])%list.
        split; [reflexivity|]. split; [rewrite Htr2, Htr1, app_nil_r, <- app_assoc; reflexivity|].
        apply (force_trace_props m L w S' C []); [exact HS|exact HC|intros j []| |reflexivity|].
        * intros Hok. exfalso. apply Hfa. apply Hok. apply in_or_app. right.
          apply in_or_app. left. apply in_map_iff. exists af. split; [reflexivity|].
          rewrite HCeq. apply in_or_app. right. left. reflexivity.
        * intros _. exists (map (fun j => Scheduler.AUpdateStage j JobStage_Skipped None) S'
                            ++ map (fun a => Scheduler.AUpdateStage a JobStage_Canceled None) preC)%list,
            af, JobStage_Canceled.
          split; [rewrite HCeq, map_app; simpl; rewrite app_nil_r, !app_assoc; reflexivity|].
          split; [exact Hfa|].
          intros j s e H. apply in_app_or in H.
          destruct H as [H|H]; apply in_map_iff in H; destruct H as (x & Hx & Hin);
            injection Hx as E1 E2 E3; subst; [apply HokS|apply HpreC]; exact Hin.
      + destruct (Hok2 eq_refl) as [HC' HokC].
        rewrite (St_bind_ok _ _ _ _ _ (advanceJobs_spec _ w2)).
        set (V := map snd (map_to_list F)).
        eexists _, (map (fun j => Scheduler.AUpdateStage j JobStage_Skipped None) S'
                     ++ map (fun a => Scheduler.AUpdateStage a JobStage_Canceled None) C
                     ++ map Scheduler.AAdvance V)%list.
        split; [reflexivity|].
        split; [simpl; rewrite Htr2, Htr1, <- !app_assoc; reflexivity|].
        apply (force_trace_props m L w S' C V); [exact HS|exact HC| | | |].
        * intros j Hj. unfold V in Hj. apply In_map_snd_map_to_list in Hj.
          destruct Hj as [c Hc]. exists c. apply HF. exact Hc.
        * intros _. split; [|split].
          -- intros j Hj Hs. rewrite HS'. apply Hskip_in. auto.
          -- intros a c f Ha Hc Hf. rewrite HC'. apply filter_In. split; [apply HA; exact Ha|].
             unfold should_cancel, comp_of. rewrite Hc. simpl. apply HF in Hf. rewrite Hf.
             reflexivity.
          -- intros c f Hf. unfold V. apply In_map_snd_map_to_list. exists c. apply HF. exact Hf.
        * intros (j & s & Hj & Hfj). exfalso. apply Hfj.
          in_app_map Hj.
          -- injection Hx as <- <-. apply HokS. exact Hj.
          -- injection Hx as <- <-. apply HokC. exact Hj.
          -- discriminate.
        * intros (j & s & Hj & Hfj). exfalso. apply Hfj.
          in_app_map Hj.
          -- injection Hx as <- <-. apply HokS. exact Hj.
          -- injection Hx as <- <-. apply HokC. exact Hj.
          -- discriminate. }
  destruct Hforced as (w' & new & Hrun & Htr & P1 & P2 & P3 & P4 & P5).
  cbv beta iota.
  erewrite (St_bind_ok _ _ w w' false);
    [|rewrite (St_bind_ok _ _ _ _ _ Hrun); reflexivity].
  simpl. split; [reflexivity|]. exists new. auto 7.
Qed.

Lemma processDequeued_force_witness :
  let m := Fixtures.mgr Fixtures.db_ok 1 0 (fun _ _ _ => None) in
  let L := [Fixtures.dep1; Fixtures.dep2] in
  let w := Fixtures.world [Fixtures.dep0] in
  let res := run (Scheduler.processDequeued m L) w in
  snd res = GoVal tt /\
  exists new, Scheduler.trace (fst res) = (Scheduler.trace w ++ new)%list
  /\ (forall j, In (Scheduler.AAdvance j) new -> exists c, newest_force L c j)
  /\ (forall j, ~ In (Scheduler.AQueueJob j) new)
  /\ (forall j s e, In (Scheduler.AUpdateStage j s e) new -> e = None /\
        ((s = JobStage_Skipped /\ In j L /\ superseded L j)
         \/ (s = JobStage_Canceled /\ active_deploy m w j
             /\ exists c f, param_string (Params j) DeployJobParam_Component = Some c
                            /\ newest_force L c f)))
  /\ ((forall j s, In (Scheduler.AUpdateStage j s None) new ->
         Scheduler.AdvanceStage m j s None = None) ->
      (forall j, In j L -> superseded L j ->
         In (Scheduler.AUpdateStage j JobStage_Skipped None) new)
      /\ (forall a c f, active_deploy m w a ->
          param_string (Params a) DeployJobParam_Component = Some c ->
          newest_force L c f -> In (Scheduler.AUpdateStage a JobStage_Canceled None) new)
      /\ (forall c f, newest_force L c f -> In (Scheduler.AAdvance f) new))
  /\ ((exists j s, In (Scheduler.AUpdateStage j s None) new
                   /\ Scheduler.AdvanceStage m j s None <> None) ->
      (forall j, ~ In (Scheduler.AAdvance j) new)
      /\ exists pre jf sf, new = (pre ++ [Scheduler.AUpdateStage jf sf None])%list
         /\ Scheduler.AdvanceStage m jf sf None <> None
         /\ forall j s e, In (Scheduler.AUpdateStage j s e) pre ->
              Scheduler.AdvanceStage m j s e = None).
Proof.
  apply (processDequeued_force (Fixtures.mgr Fixtures.db_ok 1 0 (fun _ _ _ => None))
           [Fixtures.dep1; Fixtures.dep2] (Fixtures.world [Fixtures.dep0])).
  - intros j [<-|[<-|[]]] _; eexists; reflexivity.
  - intros a (k & Hk & _). simpl in Hk.
    apply lookup_insert_Some in Hk. destruct Hk as [[_ <-]|[_ Hk]].
    + eexists; reflexivity.
    + rewrite lookup_empty in Hk. discriminate.
  - simpl. constructor; [intros H; apply list_elem_of_In in H; destruct H as [H|[]]; discriminate|].
    constructor; [intros H; apply list_elem_of_In in H; destruct H|constructor].
  - intros j a [<-|[<-|[]]] Hk; vm_compute in Hk; discriminate.
  - intros j [<-|[<-|[]]]; reflexivity.
  - exists DeployComponent_Ipfs, Fixtures.dep2. split; [right; left; reflexivity|].
    split; [reflexivity|split; reflexivity].
Defined.

Section Anchors.
Variable m : Scheduler.Manager.

Lemma in_partition_v5 (v5 : bool) (j : JobState) :
  Scheduler.in_partition m v5 j = true -> Scheduler.IsV5WorkerJob m j = v5.
Proof.
  unfold Scheduler.in_partition. intros H. apply andb_true_iff in H.
  destruct H as [_ H]. apply Bool.eqb_prop in H. congruence.
Qed.

Lemma admitAnchors_spec (v5 : bool) (A : nat) (adm L : list JobState) (w : Scheduler.World) :
  let P := List.filter (Scheduler.in_partition m v5) L in
  let k := admitted_count m v5 A adm P in
  exists w' S' r, Scheduler.admitAnchors m v5 A adm L w = (w', GoVal r)
    /\ Scheduler.trace w' = (Scheduler.trace w
         ++ map (fun j => Scheduler.AUpdateStage j JobStage_Skipped None) S')%list
    /\ (forall j, In j S' -> In j (skipn k P))
    /\ ((r = None /\ exists j, In j S'
                    /\ Scheduler.AdvanceStage m j JobStage_Skipped None <> None)
        \/ (r = Some (adm ++ firstn k P)%list /\ S' = skipn k P
            /\ forall j, In j S' -> Scheduler.AdvanceStage m j JobStage_Skipped None = None)).
Proof.
  intros P k. subst P k.
  revert adm w. induction L as [|j rest IH]; intros adm w.
  - exists w, [], (Some adm). simpl. rewrite firstn_nil, skipn_nil, !app_nil_r.
    split; [reflexivity|]. split; [reflexivity|]. split; [intros j []|].
    right. split; [reflexivity|]. split; [reflexivity|]. intros j [].
  - cbn [Scheduler.admitAnchors List.filter].
    destruct (Scheduler.in_partition m v5 j) eqn:Hp; [|apply IH].
    assert (Hv := in_partition_v5 v5 j Hp).
    destruct (Scheduler.IsV5WorkerJob m j || Z.eqb (Scheduler.maxAnchorJobs m) (-1)
              || Z.ltb (Z.of_nat (A + length adm)) (Scheduler.maxAnchorJobs m)) eqn:Hc.
    + (* admitted *)
      destruct (IH (adm ++ [j])%list w) as (w' & S' & r & Hrun & Htr & Hsub & Hr).
      assert (Hk : admitted_count m v5 A adm (j :: List.filter (Scheduler.in_partition m v5) rest)
                   = S (admitted_count m v5 A (adm ++ [j]) (List.filter (Scheduler.in_partition m v5) rest))).
      { unfold admitted_count. rewrite Hv in Hc.
        destruct (v5 || Z.eqb (Scheduler.maxAnchorJobs m) (-1)) eqn:Hm; [reflexivity|].
        apply orb_false_iff in Hm. destruct Hm as [-> Hm]. rewrite ?Hm in Hc. simpl in Hc.
        apply Z.ltb_lt in Hc. rewrite length_app. simpl. lia. }
      exists w', S', r. split; [exact Hrun|]. split; [exact Htr|].
      rewrite Hk. simpl (skipn _ _). simpl (firstn _ _).
      split; [exact Hsub|].
      destruct Hr as [Hr|(Hr & HS & Hok)]; [left; exact Hr|].
      right. split; [rewrite Hr, <- app_assoc; reflexivity|]. auto.
    + (* skipped *)
      assert (Hk0 : forall adm', length adm' = length adm ->
                admitted_count m v5 A adm' (j :: List.filter (Scheduler.in_partition m v5) rest) = 0
                /\ admitted_count m v5 A adm' (List.filter (Scheduler.in_partition m v5) rest) = 0).
      { intros adm' Hl. unfold admitted_count. rewrite Hv in Hc. rewrite Hl.
        apply orb_false_iff in Hc. destruct Hc as [Hc Hlt]. rewrite Hc.
        apply Z.ltb_ge in Hlt. split; lia. }
      destruct (Hk0 adm eq_refl) as [Hk Hk'].
      rewrite Hk. simpl (skipn 0 _). simpl (firstn 0 _).
      destruct (Scheduler.AdvanceStage m j JobStage_Skipped None) as [err|] eqn:Ha.
      * rewrite (St_bind_ok _ _ _ _ _ (updateJobStage_err m _ _ _ w err Ha)).
        eexists _, [j], None. split; [reflexivity|]. split; [reflexivity|].
        split; [intros j' [<-|[]]; left; reflexivity|].
        left. split; [reflexivity|]. exists j. split; [left; reflexivity|]. rewrite Ha. discriminate.
      * rewrite (St_bind_ok _ _ _ _ _ (updateJobStage_ok m _ _ _ w Ha)).
        destruct (IH adm (Scheduler.mkWorld (<[JobId j := with_stage j JobStage_Skipped]>
                     (Scheduler.cache w)) (Scheduler.fresh w)
                     (Scheduler.trace w ++ [Scheduler.AUpdateStage j JobStage_Skipped None])%list))
          as (w' & S' & r & Hrun & Htr & Hsub & Hr).
        rewrite Hk' in Hsub, Hr. simpl (skipn 0 _) in Hsub, Hr. simpl (firstn 0 _) in Hr.
        exists w', (j :: S'), r. split; [exact Hrun|].
        split; [rewrite Htr; simpl; rewrite <- app_assoc; reflexivity|].
        split; [intros j' [<-|Hj']; [left; reflexivity|right; auto]|].
        destruct Hr as [(Hr & j' & Hj' & Hf)|(Hr & HS & Hok)].
        -- left. split; [exact Hr|]. exists j'. split; [right; exact Hj'|exact Hf].
        -- right. split; [exact Hr|]. split; [rewrite HS; reflexivity|].
           intros j' [<-|Hj']; [exact Ha|auto].
Qed.

Lemma queueAnchorJobs_spec (n : nat) (w : Scheduler.World) :
  exists w' Q, Scheduler.queueAnchorJobs m n w = (w', GoVal tt)
    /\ Scheduler.cache w' = Scheduler.cache w
    /\ Scheduler.trace w' = (Scheduler.trace w ++ map Scheduler.AQueueJob Q)%list
    /\ length Q = n
    /\ forall q, In q Q -> JType q = JobType_Anchor /\ Stage q = JobStage_Queued.
Proof.
  revert w. induction n as [|n IH]; intros w.
  - exists w, []. simpl. rewrite app_nil_r.
    split; [reflexivity|]. split; [reflexivity|]. split; [reflexivity|]. split; [reflexivity|].
    intros q [].
  - cbn [Scheduler.queueAnchorJobs].
    rewrite (St_bind_ok _ _ _ _ _ (eq_refl : Scheduler.NewJob m Scheduler.anchorJobRequest w = _)).
    edestruct IH as (w' & Q & Hrun & Hc & Htr & Hl & HQ).
    rewrite Hrun. eexists w', (_ :: Q). split; [reflexivity|].
    split; [rewrite Hc; reflexivity|].
    split; [rewrite Htr; simpl; rewrite <- app_assoc; reflexivity|].
    split; [simpl; rewrite Hl; reflexivity|].
    intros q1 Hq1. destruct Hq1 as [<-|Hq1]; [split; reflexivity|auto].
Qed.

End Anchors.

(** C2 (counterexample): with [maxAnchorJobs = 1] and three v2 anchors,
    when the store refuses the Skip of [a2], the first anchor is never
    advanced and the third is neither advanced nor skipped. *)
Lemma processVxAnchorJobs_skip_refused :
  run (Scheduler.processVxAnchorJobs (Fixtures.mgr Fixtures.db_ok 1 0 (Fixtures.fail_on "a2"))
         [Fixtures.anchor_job "a1"; Fixtures.anchor_job "a2"; Fixtures.anchor_job "a3"] false)
      (Fixtures.world [])
  = (Scheduler.mkWorld ∅ 0 [Scheduler.AUpdateStage (Fixtures.anchor_job "a2") JobStage_Skipped None],
     GoVal true).
Proof. vm_compute. reflexivity. Qed.

(** C2 (amended): the admission loop of one partition. Let [P] be the
    partition's Dequeued anchors in list order and [A] its active
    anchors. The anchor at index [i] of [P] is admitted exactly when it
    is a v5 worker job, or [maxAnchorJobs = -1], or [A + i <
    maxAnchorJobs] ([i] is the number admitted before it while it is
    admitted); the others are to be Skipped. When every such Skip
    succeeds, they are made, the admitted anchors are advanced, and for
    the v2 partition [minAnchorJobs] minus the admitted count Anchor jobs
    are enqueued. When one fails, the loop stops there: only Skips were
    made, nothing is advanced or enqueued. For v2 with [maxAnchorJobs >=
    0], [A] plus the admitted count is at most [max(A, maxAnchorJobs)]. *)
Theorem processVxAnchorJobs_admission (m : Scheduler.Manager) (L : list JobState)
    (v5 : bool) (w : Scheduler.World) :
  let A := length (List.filter (fun js => Scheduler.IsActiveJob m js
                                          && Scheduler.in_partition m v5 js)
                     (map snd (map_to_list (Scheduler.cache w)))) in
  let P := List.filter (Scheduler.in_partition m v5) L in
  let k := if v5 || Z.eqb (Scheduler.maxAnchorJobs m) (-1) then length P
           else Z.to_nat (Scheduler.maxAnchorJobs m - Z.of_nat A) in
  let res := run (Scheduler.processVxAnchorJobs m L v5) w in
  (forall i j, nth_error P i = Some j ->
     (i < k <-> Scheduler.IsV5WorkerJob m j = true \/ Scheduler.maxAnchorJobs m = (-1)%Z
                \/ (Z.of_nat (A + i) < Scheduler.maxAnchorJobs m)%Z))
  /\ ((forall j, In j (skipn k P) ->
         Scheduler.AdvanceStage m j JobStage_Skipped None = None) ->
      snd res = GoVal (Nat.ltb 0 (length (firstn k P)))
      /\ exists Q, Scheduler.trace (fst res) =
           (Scheduler.trace w
            ++ map (fun j => Scheduler.AUpdateStage j JobStage_Skipped None) (skipn k P)
            ++ map Scheduler.AAdvance (firstn k P) ++ map Scheduler.AQueueJob Q)%list
         /\ length Q = (if v5 then 0
                        else Z.to_nat (Scheduler.minAnchorJobs m - Z.of_nat (length (firstn k P))))
         /\ forall q, In q Q -> JType q = JobType_Anchor /\ Stage q = JobStage_Queued)
  /\ ((exists j, In j (skipn k P) /\ Scheduler.AdvanceStage m j JobStage_Skipped None <> None) ->
      snd res = GoVal true
      /\ exists S', Scheduler.trace (fst res) =
           (Scheduler.trace w
            ++ map (fun j => Scheduler.AUpdateStage j JobStage_Skipped None) S')%list
         /\ forall j, In j S' -> In j (skipn k P))
  /\ (v5 = false -> (0 <= Scheduler.maxAnchorJobs m)%Z ->
      (Z.of_nat (A + length (firstn k P))
       <= Z.max (Z.of_nat A) (Scheduler.maxAnchorJobs m))%Z).
Proof.
  intros A P k res. subst res.
  assert (Hk : k = admitted_count m v5 A [] P)
    by (unfold admitted_count; simpl; rewrite Nat.add_0_r; reflexivity).
  split; [|split; [|split]].
  - intros i j Hij.
    assert (Hi : i < length P) by (apply nth_error_Some; congruence).
    assert (Hj : In j P) by (eapply nth_error_In; exact Hij).
    unfold P in Hj. apply filter_In in Hj. destruct Hj as [_ Hp].
    apply (in_partition_v5 m) in Hp. subst k.
    destruct v5; simpl.
    + split; [intros _; left; exact Hp|intros _; exact Hi].
    + destruct (Z.eqb (Scheduler.maxAnchorJobs m) (-1)) eqn:Hm.
      * apply Z.eqb_eq in Hm. split; [intros _; right; left; exact Hm|intros _; exact Hi].
      * apply Z.eqb_neq in Hm. rewrite Hp. split.
        -- intros H. right. right. lia.
        -- intros [H|[H|H]]; [discriminate|contradiction|lia].
  - intros Hok. unfold run, Scheduler.processVxAnchorJobs.
    rewrite (St_bind_ok _ _ _ _ _ (eq_refl : Scheduler.JobsByMatcher _ w = _)).
    destruct (admitAnchors_spec m v5 A [] L w) as (w1 & S' & r & Hrun & Htr & Hsub & Hr).
    fold P in Hrun, Htr, Hsub, Hr. rewrite <- Hk in Hsub, Hr.
    rewrite (St_bind_ok _ _ _ _ _ Hrun).
    destruct Hr as [(_ & j & Hj & Hf)|(-> & -> & _)].
    + exfalso. apply Hf. apply Hok. apply Hsub. exact Hj.
    + rewrite (St_bind_ok _ _ _ _ _ (advanceJobs_spec _ w1)). simpl app.
      destruct v5; simpl.
      * split; [reflexivity|]. exists []. rewrite Htr, app_nil_r, <- app_assoc.
        split; [reflexivity|]. split; [reflexivity|]. intros q [].
      * destruct (queueAnchorJobs_spec m (Z.to_nat (Scheduler.minAnchorJobs m
                    - Z.of_nat (length (firstn k P))))
                    (Scheduler.mkWorld (Scheduler.cache w1) (Scheduler.fresh w1)
                       (Scheduler.trace w1 ++ map Scheduler.AAdvance (firstn k P))%list))
          as (w2 & Q & Hq & _ & Htr2 & Hl & HQ).
        rewrite (St_bind_ok _ _ _ _ _ Hq). split; [reflexivity|].
        exists Q. split; [|split; [exact Hl|exact HQ]].
        simpl. rewrite Htr2. simpl. rewrite Htr, <- !app_assoc. reflexivity.
  - intros (jf & Hjf & Hfj). unfold run, Scheduler.processVxAnchorJobs.
    rewrite (St_bind_ok _ _ _ _ _ (eq_refl : Scheduler.JobsByMatcher _ w = _)).
    destruct (admitAnchors_spec m v5 A [] L w) as (w1 & S' & r & Hrun & Htr & Hsub & Hr).
    fold P in Hrun, Htr, Hsub, Hr. rewrite <- Hk in Hsub, Hr.
    rewrite (St_bind_ok _ _ _ _ _ Hrun).
    destruct Hr as [(-> & _)|(_ & -> & Hok)].
    + split; [reflexivity|]. exists S'. auto.
    + exfalso. apply Hfj. apply Hok. exact Hjf.
  - intros -> Hmax. subst k. simpl.
    destruct (Z.eqb (Scheduler.maxAnchorJobs m) (-1)) eqn:Hm; [apply Z.eqb_eq in Hm; lia|].
    rewrite length_firstn. lia.
Qed.

(** C3: on the same Dequeued list, a v5 anchor [a] and a v2 anchor [b],
    with [minAnchorJobs = maxAnchorJobs = 1] and nothing active, the tick
    advances only [a]: the v2 partition is not processed, while on its
    own its dispatch advances [b]. *)
Lemma processDequeued_v2_partition_dropped :
  let m := Fixtures.mgr Fixtures.db_ok 1 1 (fun _ _ _ => None) in
  let L := [Fixtures.v5_anchor_job "a"; Fixtures.anchor_job "b"] in
  Scheduler.trace (fst (run (Scheduler.processDequeued m L) (Fixtures.world [])))
    = [Scheduler.AAdvance (Fixtures.v5_anchor_job "a")]
  /\ Scheduler.trace (fst (run (Scheduler.processVxAnchorJobs m L false) (Fixtures.world [])))
    = [Scheduler.AAdvance (Fixtures.anchor_job "b")].
Proof. split; vm_compute; reflexivity. Qed.

(* ------------------------------------------------------------------ *)
(** ** Further properties of the code *)

Ltac sneq := let H := fresh in intro H; vm_compute in H; discriminate H.

Lemma string_app_cons (a : ascii) (s t : string) : String a s ++ t = String a (s ++ t).
Proof. reflexivity. Qed.

Lemma string_app_assoc (s t u : string) : (s ++ t) ++ u = s ++ (t ++ u).
Proof. induction s as [|a s IH]; [reflexivity|rewrite !string_app_cons; f_equal; exact IH]. Qed.

Lemma string_app_cancel_l (s t u : string) : s ++ t = s ++ u -> t = u.
Proof. apply (inj (String.app s)). Qed.

Lemma list_ascii_of_string_app (s t : string) :
  list_ascii_of_string (s ++ t) = (list_ascii_of_string s ++ list_ascii_of_string t)%list.
Proof. induction s as [|a s IH]; [reflexivity|rewrite string_app_cons; simpl; rewrite IH; reflexivity]. Qed.

(** A string ending in [t] has [t] as its last [length t] characters. *)
Lemma string_suffix (s t u : string) :
  s ++ t = u ->
  list_ascii_of_string t
  = skipn (length (list_ascii_of_string u) - length (list_ascii_of_string t))
          (list_ascii_of_string u).
Proof.
  intros <-. rewrite list_ascii_of_string_app, length_app.
  replace (length (list_ascii_of_string s) + length (list_ascii_of_string t)
           - length (list_ascii_of_string t)) with (length (list_ascii_of_string s)) by lia.
  rewrite skipn_app, skipn_all, Nat.sub_diag. reflexivity.
Qed.

Lemma suffix_neq (p t u : string) :
  list_ascii_of_string t
  <> skipn (length (list_ascii_of_string u) - length (list_ascii_of_string t))
           (list_ascii_of_string u) ->
  p ++ t <> u.
Proof. intros Hn Heq. apply Hn. exact (string_suffix p t u Heq). Qed.

Lemma string_app_nil_l (t : string) : "" ++ t = t.
Proof. reflexivity. Qed.

(** Two strings built from one unknown [env] and literals differ: the
    literal prefix is peeled off, then the literal suffixes compared. *)
Ltac str_neq :=
  let H := fresh in
  intro H; rewrite ?string_app_assoc, ?string_app_cons, ?string_app_nil_l in H;
  repeat (injection H as H);
  first [ discriminate H
        | apply string_app_cancel_l in H; repeat (injection H as H); discriminate H
        | apply string_suffix in H; vm_compute in H; discriminate H
        | symmetry in H; apply string_suffix in H; vm_compute in H; discriminate H
        | apply (f_equal String.length) in H; rewrite ?string_length_app in H;
          simpl in H; lia ].


Ltac lookup_none :=
  repeat (rewrite lookup_insert_ne by str_neq); apply lookup_empty.

Ltac lookup_some :=
  repeat (first [ exact (lookup_insert_eq _ _ _) | rewrite lookup_insert_ne by str_neq ]).

Ltac size_ins :=
  repeat (rewrite map_size_insert_None by lookup_none); rewrite map_size_empty; reflexivity.

(** [Ecs.PopulateLayout] fails with "deployJob: unexpected component: c"
    exactly for components other than ceramic, ipfs and cas. For ceramic and
    ipfs the layout has exactly the three clusters [ceramic-{env}],
    [ceramic-{env}-ex] and [ceramic-{env}-cas], holding one private node
    service, four public services in prod and two elsewhere, and one CAS
    service. *)
Theorem PopulateLayout_components (env : string) (eenv : Ecs.EnvType) (component : string) :
  (Ecs.PopulateLayout env eenv component = Err ("deployJob: unexpected component: " ++ component)
   <-> component <> DeployComponent_Ceramic /\ component <> DeployComponent_Ipfs
       /\ component <> DeployComponent_Cas)
  /\ (component = DeployComponent_Ceramic \/ component = DeployComponent_Ipfs ->
      exists l priv pub cas,
        Ecs.PopulateLayout env eenv component = Ok l
        /\ l !! ("ceramic-" ++ env) = Some (Some priv)
        /\ l !! ("ceramic-" ++ env ++ "-ex") = Some (Some pub)
        /\ l !! ("ceramic-" ++ env ++ "-cas") = Some (Some cas)
        /\ size l = 3 /\ size priv = 1 /\ size cas = 1
        /\ size pub = (if decide (eenv = Ecs.EnvType_Prod) then 4 else 2)).
Proof.
  split.
  - unfold Ecs.PopulateLayout.
    destruct (String.eqb_spec component DeployComponent_Ceramic) as [->|Hc];
      [split; [discriminate|intros (H & _ & _); congruence]|].
    destruct (String.eqb_spec component DeployComponent_Ipfs) as [->|Hi];
      [split; [discriminate|intros (_ & H & _); congruence]|].
    destruct (String.eqb_spec component DeployComponent_Cas) as [->|Ha];
      [split; [discriminate|intros (_ & _ & H); congruence]|].
    split; [auto|reflexivity].
  - intros [-> | ->]; unfold Ecs.PopulateLayout; simpl String.eqb; cbv zeta.
    + destruct (decide (eenv = Ecs.EnvType_Prod));
        (eexists _, _, _, _; split; [reflexivity|];
         split; [lookup_some|]; split; [lookup_some|]; split; [lookup_some|];
         split; [size_ins|]; split; [size_ins|]; split; size_ins).
    + destruct (decide (eenv = Ecs.EnvType_Prod));
        (eexists _, _, _, _; split; [reflexivity|];
         split; [lookup_some|]; split; [lookup_some|]; split; [lookup_some|];
         split; [size_ins|]; split; [size_ins|]; split; size_ins).
Qed.


(** [Ecs.GetRegistryUri] fails exactly for components other than ceramic,
    ipfs and cas, and two components never receive the same registry URI. *)
Theorem GetRegistryUri_components (getenv : string -> string) (component : string) :
  (EcsApi.GetRegistryUri getenv component = Err ("getImagePath: invalid component: " ++ component)
   <-> component <> DeployComponent_Ceramic /\ component <> DeployComponent_Ipfs
       /\ component <> DeployComponent_Cas)
  /\ (forall c1 c2 u, EcsApi.GetRegistryUri getenv c1 = Ok u ->
        EcsApi.GetRegistryUri getenv c2 = Ok u -> c1 = c2).
Proof.
  split.
  - unfold EcsApi.GetRegistryUri.
    destruct (String.eqb_spec component DeployComponent_Ceramic) as [->|Hc];
      [split; [discriminate|intros (H & _ & _); congruence]|].
    destruct (String.eqb_spec component DeployComponent_Ipfs) as [->|Hi];
      [split; [discriminate|intros (_ & H & _); congruence]|].
    destruct (String.eqb_spec component DeployComponent_Cas) as [->|Ha];
      [split; [discriminate|intros (_ & _ & H); congruence]|].
    split; [auto|reflexivity].
  - intros c1 c2 u. unfold EcsApi.GetRegistryUri.
    set (p := getenv "AWS_ACCOUNT_ID" ++ ".dkr.ecr." ++ getenv "AWS_REGION" ++ ".amazonaws.com/").
    set (env := getenv "ENV").
    assert (Hp : forall r1 r2, getenv "AWS_ACCOUNT_ID" ++ ".dkr.ecr." ++ getenv "AWS_REGION"
                   ++ ".amazonaws.com/" ++ r1
                 = getenv "AWS_ACCOUNT_ID" ++ ".dkr.ecr." ++ getenv "AWS_REGION"
                   ++ ".amazonaws.com/" ++ r2 -> r1 = r2).
    { intros r1 r2 H. rewrite <- !string_app_assoc in H. apply string_app_cancel_l in H.
      exact H. }
    destruct (String.eqb_spec c1 DeployComponent_Ceramic) as [->|H1];
    [|destruct (String.eqb_spec c1 DeployComponent_Ipfs) as [->|H1'];
      [|destruct (String.eqb_spec c1 DeployComponent_Cas) as [->|H1'']; [|discriminate]]];
    (destruct (String.eqb_spec c2 DeployComponent_Ceramic) as [->|H2];
     [|destruct (String.eqb_spec c2 DeployComponent_Ipfs) as [->|H2'];
       [|destruct (String.eqb_spec c2 DeployComponent_Cas) as [->|H2'']; [|discriminate]]]);
    simpl; intros E1 E2; try reflexivity; exfalso;
    injection E1 as E1; injection E2 as E2; subst u; apply Hp in E2; revert E2; str_neq.
Qed.

(** [PrintJob] prints nothing for no job, and the jobs of a concatenation
    one after the other; each job is a newline followed by its indented
    JSON, or, when marshalling fails, its [%v] text followed by a newline. *)
Theorem PrintJob_concat (MarshalIndent : JobState -> result string)
    (Sprintf : JobState -> string) (l1 l2 : list JobState) (js : JobState) :
  EcsApi.PrintJob MarshalIndent Sprintf [] = ""
  /\ EcsApi.PrintJob MarshalIndent Sprintf (l1 ++ l2)
     = EcsApi.PrintJob MarshalIndent Sprintf l1 ++ EcsApi.PrintJob MarshalIndent Sprintf l2
  /\ (forall b, MarshalIndent js = Ok b ->
        EcsApi.PrintJob MarshalIndent Sprintf [js] = String "010" b)
  /\ (forall e, MarshalIndent js = Err e ->
        EcsApi.PrintJob MarshalIndent Sprintf [js] = Sprintf js ++ String "010" "").
Proof.
  split; [reflexivity|]. split.
  - unfold EcsApi.PrintJob. rewrite fold_left_app.
    set (f := fun (prettyString : string) (jobState : JobState) =>
                match MarshalIndent jobState with
                | Ok prettyBytes => prettyString ++ String "010" prettyBytes
                | Err _ => (prettyString ++ Sprintf jobState) ++ String "010" ""
                end).
    assert (Hf : forall acc l, fold_left f l acc = acc ++ fold_left f l "").
    { intros acc l. revert acc. induction l as [|j l IH]; intros acc.
      - simpl. induction acc as [|a acc IHa]; [reflexivity|rewrite string_app_cons, <- IHa; reflexivity].
      - simpl. rewrite (IH (f acc j)), (IH (f "" j)). rewrite <- string_app_assoc. f_equal.
        unfold f. destruct (MarshalIndent j); rewrite ?string_app_assoc; reflexivity. }
    apply Hf.
  - split; intros ? H; unfold EcsApi.PrintJob; simpl; rewrite H; reflexivity.
Qed.

(** [Ecs.CheckTask] answers [(true, nil)] exactly when the description
    succeeds with at least one task and every task's last status is the
    desired one, and [(false, err)] exactly when the description fails
    with [err]. *)
Theorem CheckTask_result (DescribeTasks : Ecs.DescribeTasksFn) (running : bool)
    (cluster : string) (taskArn : list string) :
  (Ecs.CheckTask DescribeTasks running cluster taskArn = (true, None)
   <-> exists tasks, DescribeTasks cluster taskArn = Ok tasks /\ tasks <> []
       /\ Forall (fun t => Ecs.LastStatus t
                  = if running then Ecs.DesiredStatusRunning else Ecs.DesiredStatusStopped) tasks)
  /\ (forall e, Ecs.CheckTask DescribeTasks running cluster taskArn = (false, Some e)
       <-> DescribeTasks cluster taskArn = Err e).
Proof.
  assert (Hall : forall tasks st, Ecs.all_in_status tasks st = true
                   <-> Forall (fun t => Ecs.LastStatus t = st) tasks).
  { induction tasks as [|t ts IH]; intros st; simpl.
    - split; auto.
    - rewrite Forall_cons. destruct (String.eqb_spec (Ecs.LastStatus t) st) as [E|E]; simpl.
      + rewrite IH. tauto.
      + split; [discriminate|intros [H _]; contradiction]. }
  unfold Ecs.CheckTask. destruct (DescribeTasks cluster taskArn) as [tasks|e0].
  - split.
    + destruct tasks as [|t ts]; simpl.
      * split; [discriminate|intros (? & [=<-] & H & _); congruence].
      * split.
        -- intros H. injection H as H. eexists; split; [reflexivity|].
           split; [discriminate|]. exact (proj1 (Hall (t :: ts) _) H).
        -- intros (? & [=<-] & _ & H). f_equal. exact (proj2 (Hall (t :: ts) _) H).
    + intros e. split; [intros H; destruct (Nat.ltb _ _); discriminate|discriminate].
  - split.
    + split; [discriminate|intros (? & H & _); discriminate].
    + intros e. split; [intros H; injection H as ->; reflexivity|intros H; injection H as ->; reflexivity].
Qed.

Lemma overrides_of_spec (range : gmap string string -> list (string * string))
    (Hrange : forall o, range o ≡ₚ map_to_list o) (container : string) (overrides : gmap string string) :
  (overrides = ∅ -> EcsApi.overrides_of range container overrides = None)
  /\ (overrides <> ∅ -> exists env,
        EcsApi.overrides_of range container overrides = Some [EcsApi.mkContainerOverride container env]
        /\ env ≡ₚ map_to_list overrides).
Proof.
  unfold EcsApi.overrides_of. split.
  - intros ->. rewrite map_size_empty. reflexivity.
  - intros Hne. destruct (Nat.ltb_spec 0 (size overrides)) as [_|Hs].
    + eexists. split; [reflexivity|]. apply Hrange.
    + exfalso. apply Hne. apply map_size_empty_inv. lia.
Qed.

(** [Ecs.CheckService] makes one DescribeServices call. A call error or a
    reported failure gives [(false, err)]; otherwise, when every deployment
    has a task definition, the answer is true exactly when a deployment of
    the first service runs the given task definition with a positive
    running count. *)
Theorem CheckService_result (c : EcsApi.Client) (cluster service taskDefArn : string) :
  let res := run (EcsApi.CheckService c cluster service taskDefArn) [] in
  fst res = [EcsApi.CDescribeServices cluster [service]]
  /\ (forall e, EcsApi.DescribeServices c cluster [service] = Err e ->
        snd res = GoVal (false, Some e))
  /\ (forall out, EcsApi.DescribeServices c cluster [service] = Ok out ->
        EcsApi.Failures out <> [] ->
        snd res = GoVal (false, Some (EcsApi.fmt_failures (EcsApi.parseEcsFailures (EcsApi.Failures out)))))
  /\ (forall out s0 rest, EcsApi.DescribeServices c cluster [service] = Ok out ->
        EcsApi.Failures out = [] -> EcsApi.Services out = s0 :: rest ->
        Forall (fun d => EcsApi.DTaskDefinition d <> None) (EcsApi.Deployments s0) ->
        exists b, snd res = GoVal (b, None)
          /\ (b = true <-> Exists (fun d => EcsApi.DTaskDefinition d = Some taskDefArn
                                           /\ (0 < EcsApi.RunningCount d)%Z)
                                  (EcsApi.Deployments s0))).
Proof.
  assert (Hany : forall ds calls, Forall (fun d => EcsApi.DTaskDefinition d <> None) ds ->
            exists b, EcsApi.anyRunning taskDefArn ds calls = (calls, GoVal b)
              /\ (b = true <-> Exists (fun d => EcsApi.DTaskDefinition d = Some taskDefArn
                                              /\ (0 < EcsApi.RunningCount d)%Z) ds)).
  { induction ds as [|d ds IH]; intros calls Hn.
    - exists false. split; [reflexivity|]. rewrite Exists_nil. split; [discriminate|contradiction].
    - apply Forall_cons in Hn as [Hd Hn]. simpl.
      destruct (EcsApi.DTaskDefinition d) as [td|] eqn:Etd; [|contradiction].
      destruct (String.eqb_spec td taskDefArn) as [->|Hne];
        destruct (Z.ltb_spec 0 (EcsApi.RunningCount d)) as [Hr|Hr]; simpl.
      + exists true. split; [reflexivity|]. split; [intros _; left; auto|reflexivity].
      + destruct (IH calls Hn) as (b & Hrun & Hb). exists b. split; [exact Hrun|].
        rewrite Exists_cons, <- Hb. split; [auto|intros [[_ H]|H]; [lia|exact H]].
      + destruct (IH calls Hn) as (b & Hrun & Hb). exists b. split; [exact Hrun|].
        rewrite Exists_cons, <- Hb. split; [auto|intros [[H _]|H]; [congruence|exact H]].
      + destruct (IH calls Hn) as (b & Hrun & Hb). exists b. split; [exact Hrun|].
        rewrite Exists_cons, <- Hb. split; [auto|intros [[H _]|H]; [congruence|exact H]]. }
  assert (Hanyf : forall ds calls, fst (EcsApi.anyRunning taskDefArn ds calls) = calls).
  { induction ds as [|d ds IH]; intros calls; simpl; [reflexivity|].
    destruct (EcsApi.DTaskDefinition d); [|reflexivity].
    destruct (_ && _); [reflexivity|apply IH]. }
  intros res. subst res. unfold run, EcsApi.CheckService.
  split; [|split; [|split]].
  - unfold mbind, St_bind, emit. simpl.
    destruct (EcsApi.DescribeServices c cluster [service]) as [out|e]; [|reflexivity].
    destruct (Nat.ltb _ _); [reflexivity|].
    destruct (EcsApi.Services out) as [|s0 rest]; [reflexivity|].
    unfold mbind, St_bind.
    destruct (EcsApi.anyRunning taskDefArn (EcsApi.Deployments s0) _) as [calls r] eqn:E.
    pose proof (Hanyf (EcsApi.Deployments s0) [EcsApi.CDescribeServices cluster [service]]) as F.
    rewrite E in F. simpl in F. subst calls. destruct r; reflexivity.
  - intros e He. unfold mbind, St_bind, emit. simpl. rewrite He. reflexivity.
  - intros out Ho Hf. unfold mbind, St_bind, emit. simpl. rewrite Ho.
    destruct (EcsApi.Failures out) as [|f fs]; [contradiction|]. reflexivity.
  - intros out s0 rest Ho Hf Hs Hn. unfold mbind at 1, St_bind at 1, emit. simpl. rewrite Ho, Hf, Hs.
    simpl. destruct (Hany (EcsApi.Deployments s0) [EcsApi.CDescribeServices cluster [service]] Hn)
      as (b & Hrun & Hb).
    exists b. unfold mbind, St_bind. rewrite Hrun. split; [reflexivity|exact Hb].
Qed.

(** [Ecs.LaunchService] describes the service and, unless that fails or
    reports failures, runs one Fargate task of the family in the cluster
    with the service's network configuration, the environment tag and a
    container override holding exactly the override entries (none for an
    empty map); its answer is the RunTask error or the first task's ARN. *)
Theorem LaunchService_single_run (c : EcsApi.Client) (envName ResourceTag : string)
    (range : gmap string string -> list (string * string))
    (Hrange : forall o, range o ≡ₚ map_to_list o)
    (cluster service family container : string) (overrides : gmap string string) :
  let res := run (EcsApi.LaunchService c envName ResourceTag range cluster service family
                    container overrides) [] in
  (forall e, EcsApi.DescribeServices c cluster [service] = Err e ->
     res = ([EcsApi.CDescribeServices cluster [service]], GoVal (Err e)))
  /\ (forall out, EcsApi.DescribeServices c cluster [service] = Ok out ->
     EcsApi.Failures out <> [] ->
     res = ([EcsApi.CDescribeServices cluster [service]],
            GoVal (Err (EcsApi.fmt_failures (EcsApi.parseEcsFailures (EcsApi.Failures out))))))
  /\ (forall out s0 rest, EcsApi.DescribeServices c cluster [service] = Ok out ->
     EcsApi.Failures out = [] -> EcsApi.Services out = s0 :: rest ->
     exists input,
       fst res = [EcsApi.CDescribeServices cluster [service]; EcsApi.CRunTask input]
       /\ EcsApi.RTaskDefinition input = family /\ EcsApi.RCluster input = cluster
       /\ EcsApi.Count input = 1%Z /\ EcsApi.LaunchType input = "FARGATE"
       /\ EcsApi.RNetworkConfiguration input = EcsApi.NetworkConfiguration s0
       /\ EcsApi.StartedBy input = ServiceName /\ EcsApi.Tags input = [(ResourceTag, envName)]
       /\ (overrides = ∅ -> EcsApi.Overrides input = None)
       /\ (overrides <> ∅ -> exists env,
             EcsApi.Overrides input = Some [EcsApi.mkContainerOverride container env]
             /\ env ≡ₚ map_to_list overrides)
       /\ (forall e, EcsApi.RunTask c input = Err e -> snd res = GoVal (Err e))
       /\ (forall t ts a, EcsApi.RunTask c input = Ok (t :: ts) -> EcsApi.TaskArn t = Some a ->
             snd res = GoVal (Ok a))).
Proof.
  intros res. subst res. unfold run, EcsApi.LaunchService.
  unfold mbind at 1, St_bind at 1, emit at 1. simpl.
  split; [|split].
  - intros e He. rewrite He. reflexivity.
  - intros out Ho Hf. rewrite Ho. destruct (EcsApi.Failures out); [contradiction|reflexivity].
  - intros out s0 rest Ho Hf Hs. rewrite Ho, Hf, Hs. simpl.
    destruct (overrides_of_spec range Hrange container overrides) as [Hem Hne].
    eexists. unfold mbind, St_bind, emit. simpl.
    split; [destruct (EcsApi.RunTask c _) as [[|t ts]|e]; simpl;
            [reflexivity|destruct (EcsApi.TaskArn t); reflexivity|reflexivity]|].
    do 7 (split; [reflexivity|]).
    split; [exact Hem|]. split; [exact Hne|].
    split; [intros e He; rewrite He; reflexivity|].
    intros t ts a Ht Ha. rewrite Ht. simpl. rewrite Ha. reflexivity.
Qed.

(** [Ecs.LaunchTask] reads and decodes the VPC configuration parameter
    and, unless that fails, runs one Fargate task with that network
    configuration, the environment tag and the overrides as a container
    override; its answer is the RunTask error or the first task's ARN. *)
Theorem LaunchTask_single_run (c : EcsApi.Client) (envName ResourceTag : string)
    (range : gmap string string -> list (string * string))
    (Hrange : forall o, range o ≡ₚ map_to_list o)
    (cluster family container vpcConfigParam : string) (overrides : gmap string string) :
  let res := run (EcsApi.LaunchTask c envName ResourceTag range cluster family container
                    vpcConfigParam overrides) [] in
  (forall e, EcsApi.GetParameter c vpcConfigParam = Err e ->
     res = ([EcsApi.CGetParameter vpcConfigParam], GoVal (Err e)))
  /\ (forall v e, EcsApi.GetParameter c vpcConfigParam = Ok (Some v) ->
     EcsApi.Unmarshal c v = Err e -> res = ([EcsApi.CGetParameter vpcConfigParam], GoVal (Err e)))
  /\ (forall v vpc, EcsApi.GetParameter c vpcConfigParam = Ok (Some v) ->
     EcsApi.Unmarshal c v = Ok vpc ->
     exists input,
       fst res = [EcsApi.CGetParameter vpcConfigParam; EcsApi.CRunTask input]
       /\ EcsApi.RTaskDefinition input = family /\ EcsApi.RCluster input = cluster
       /\ EcsApi.Count input = 1%Z /\ EcsApi.LaunchType input = "FARGATE"
       /\ EcsApi.RNetworkConfiguration input = Some vpc
       /\ EcsApi.StartedBy input = ServiceName /\ EcsApi.Tags input = [(ResourceTag, envName)]
       /\ (overrides = ∅ -> EcsApi.Overrides input = None)
       /\ (overrides <> ∅ -> exists env,
             EcsApi.Overrides input = Some [EcsApi.mkContainerOverride container env]
             /\ env ≡ₚ map_to_list overrides)
       /\ (forall e, EcsApi.RunTask c input = Err e -> snd res = GoVal (Err e))
       /\ (forall t ts a, EcsApi.RunTask c input = Ok (t :: ts) -> EcsApi.TaskArn t = Some a ->
             snd res = GoVal (Ok a))).
Proof.
  intros res. subst res. unfold run, EcsApi.LaunchTask.
  unfold mbind at 1, St_bind at 1, emit at 1. simpl.
  split; [|split].
  - intros e He. rewrite He. reflexivity.
  - intros v e Hv He. rewrite Hv, He. reflexivity.
  - intros v vpc Hv Hu. rewrite Hv, Hu. simpl.
    destruct (overrides_of_spec range Hrange container overrides) as [Hem Hne].
    eexists. unfold mbind, St_bind, emit. simpl.
    split; [destruct (EcsApi.RunTask c _) as [[|t ts]|e]; simpl;
            [reflexivity|destruct (EcsApi.TaskArn t); reflexivity|reflexivity]|].
    do 7 (split; [reflexivity|]).
    split; [exact Hem|]. split; [exact Hne|].
    split; [intros e He; rewrite He; reflexivity|].
    intros t ts a Ht Ha. rewrite Ht. simpl. rewrite Ha. reflexivity.
Qed.

(** When [Ecs.UpdateService] returns an ARN, it described the service,
    read the service's task definition, registered a copy whose first
    container has the new image, and pointed the service at the new
    definition with one desired task; the ARN is the new definition's. *)
Theorem UpdateService_ok (c : EcsApi.Client) (envName ResourceTag : string)
    (cluster service image a : string)
    (Hok : snd (run (EcsApi.UpdateService c envName ResourceTag cluster service image) [])
           = GoVal (Ok a)) :
  exists out s0 rest td cd cds newTd,
    EcsApi.DescribeServices c cluster [service] = Ok out /\ EcsApi.Failures out = []
    /\ EcsApi.Services out = s0 :: rest
    /\ EcsApi.DescribeTaskDefinition c (EcsApi.STaskDefinition s0) = Ok (Some td)
    /\ EcsApi.ContainerDefinitions td = cd :: cds
    /\ let regIn := EcsApi.mkRegisterTaskDefinitionInput
                      (EcsApi.mkContainerDefinition (Some image) (EcsApi.CRest cd) :: cds)
                      (EcsApi.Family td) (EcsApi.Copied td) [(ResourceTag, envName)] in
       let updIn := EcsApi.mkUpdateServiceInput service cluster 1 true false (Some a) in
       EcsApi.RegisterTaskDefinition c regIn = Ok (Some newTd)
       /\ EcsApi.TaskDefinitionArn newTd = Some a
       /\ EcsApi.EcsUpdateService c updIn = Ok tt
       /\ fst (run (EcsApi.UpdateService c envName ResourceTag cluster service image) [])
          = [EcsApi.CDescribeServices cluster [service];
             EcsApi.CDescribeTaskDefinition (EcsApi.STaskDefinition s0);
             EcsApi.CRegisterTaskDefinition regIn; EcsApi.CUpdateService updIn].
Proof.
  revert Hok. unfold run, EcsApi.UpdateService.
  unfold mbind, St_bind, emit. simpl.
  destruct (EcsApi.DescribeServices c cluster [service]) as [out|e] eqn:Ed; [|discriminate].
  destruct (EcsApi.Failures out) as [|f fs] eqn:Ef; [|discriminate]. simpl.
  destruct (EcsApi.Services out) as [|s0 rest] eqn:Es; [discriminate|]. simpl.
  destruct (EcsApi.DescribeTaskDefinition c (EcsApi.STaskDefinition s0)) as [[td|]|e] eqn:Et;
    try discriminate.
  destruct (EcsApi.ContainerDefinitions td) as [|cd cds] eqn:Ec; [discriminate|]. simpl.
  destruct (EcsApi.RegisterTaskDefinition c _) as [[newTd|]|e] eqn:Er; try discriminate. simpl.
  destruct (EcsApi.EcsUpdateService c _) as [[]|e] eqn:Eu; [|discriminate]. simpl.
  destruct (EcsApi.TaskDefinitionArn newTd) as [a'|] eqn:Ea; [|discriminate].
  intros [= ->].
  exists out, s0, rest, td, cd, cds, newTd.
  repeat split; assumption.
Qed.

(** When the three launches succeed, [startE2eTests] launches the three
    E2E configurations in order and stores each task ARN under its
    configuration's key, leaving the rest of the job unchanged;
    [checkE2eTests] on the result checks exactly those three tasks and
    answers their conjunction. *)
Theorem startE2eTests_then_check (d : Deployment) (getenv : string -> string) (js : JobState)
    (i1 i2 i3 : string) (running : bool)
    (H1 : e2e_launch d getenv E2e.E2eTest_PrivatePublic = Ok i1)
    (H2 : e2e_launch d getenv E2e.E2eTest_LocalClientPublic = Ok i2)
    (H3 : e2e_launch d getenv E2e.E2eTest_LocalNodePrivate = Ok i3) :
  exists js',
    run (E2e.startE2eTests d getenv js) []
      = ([E2e.CLaunchService E2e.E2eTest_PrivatePublic;
          E2e.CLaunchService E2e.E2eTest_LocalClientPublic;
          E2e.CLaunchService E2e.E2eTest_LocalNodePrivate], GoVal (js', None))
    /\ JobId js' = JobId js /\ JType js' = JType js /\ Stage js' = Stage js /\ Ts js' = Ts js
    /\ param_string (Params js') E2e.E2eTest_PrivatePublic = Some i1
    /\ param_string (Params js') E2e.E2eTest_LocalClientPublic = Some i2
    /\ param_string (Params js') E2e.E2eTest_LocalNodePrivate = Some i3
    /\ (forall k, k <> E2e.E2eTest_PrivatePublic -> k <> E2e.E2eTest_LocalClientPublic ->
          k <> E2e.E2eTest_LocalNodePrivate -> Params js' !! k = Params js !! k)
    /\ (forall r1 r2 r3,
          D_CheckTask d running "ceramic-qa-tests" i1 = Ok r1 ->
          D_CheckTask d running "ceramic-qa-tests" i2 = Ok r2 ->
          D_CheckTask d running "ceramic-qa-tests" i3 = Ok r3 ->
          run (E2e.checkE2eTests d js' running) []
            = ([E2e.CCheckTask running i1; E2e.CCheckTask running i2; E2e.CCheckTask running i3],
               GoVal (r1 && r2 && r3, None))).
Proof.
  unfold e2e_launch in *.
  set (p := <[E2e.E2eTest_LocalNodePrivate := VString i3]>
              (<[E2e.E2eTest_LocalClientPublic := VString i2]>
                 (<[E2e.E2eTest_PrivatePublic := VString i1]> (Params js)))).
  assert (P1 : param_string p E2e.E2eTest_PrivatePublic = Some i1).
  { unfold param_string, p. rewrite !lookup_insert_ne by sneq. rewrite lookup_insert_eq. reflexivity. }
  assert (P2 : param_string p E2e.E2eTest_LocalClientPublic = Some i2).
  { unfold param_string, p. rewrite !lookup_insert_ne by sneq. rewrite lookup_insert_eq. reflexivity. }
  assert (P3 : param_string p E2e.E2eTest_LocalNodePrivate = Some i3).
  { unfold param_string, p. rewrite lookup_insert_eq. reflexivity. }
  exists (mkJobState (JobId js) (JType js) (Stage js) (Ts js) p). split.
  { unfold run, E2e.startE2eTests, E2e.startE2eTest, mbind, St_bind, emit. simpl.
    rewrite H1. simpl. rewrite H2. simpl. rewrite H3. reflexivity. }
  split; [reflexivity|]. split; [reflexivity|]. split; [reflexivity|]. split; [reflexivity|].
  split; [exact P1|]. split; [exact P2|]. split; [exact P3|].
  split.
  { intros k Ha Hb Hc. simpl. unfold p. rewrite !lookup_insert_ne by congruence. reflexivity. }
  intros r1 r2 r3 C1 C2 C3.
  unfold run, E2e.checkE2eTests, E2e.checkOne, assert_string. cbn [Params].
  rewrite P1, P2, P3.
  unfold mbind, St_bind, emit, mret, St_ret. cbn. rewrite C1, C2, C3. reflexivity.
Qed.


Lemma startE2eTest_shape d getenv js config (l : list E2e.Call) :
  exists pre js' err, E2e.startE2eTest d getenv js config l = ((l ++ pre)%list, GoVal (js', err))
    /\ Forall e2e_no_update pre
    /\ JobId js' = JobId js /\ JType js' = JType js /\ Stage js' = Stage js /\ Ts js' = Ts js.
Proof.
  unfold E2e.startE2eTest, mbind, St_bind, emit. simpl.
  destruct (LaunchService _ _ _ _ _ _) as [id|e]; simpl.
  - eexists [_], _, None. split; [reflexivity|]. repeat split; repeat constructor.
  - eexists [_], js, (Some e). split; [reflexivity|]. repeat split; repeat constructor.
Qed.

Lemma startE2eTests_shape d getenv js (l : list E2e.Call) :
  exists pre js' err, E2e.startE2eTests d getenv js l = ((l ++ pre)%list, GoVal (js', err))
    /\ Forall e2e_no_update pre
    /\ JobId js' = JobId js /\ JType js' = JType js /\ Stage js' = Stage js /\ Ts js' = Ts js.
Proof.
  unfold E2e.startE2eTests.
  destruct (startE2eTest_shape d getenv js E2e.E2eTest_PrivatePublic l)
    as (p1 & j1 & e1 & R1 & F1 & A1 & B1 & C1 & D1).
  rewrite (St_bind_ok _ _ _ _ _ R1). destruct e1 as [e|].
  { exists p1, j1, (Some e). split; [reflexivity|]. auto. }
  destruct (startE2eTest_shape d getenv j1 E2e.E2eTest_LocalClientPublic (l ++ p1))
    as (p2 & j2 & e2 & R2 & F2 & A2 & B2 & C2 & D2).
  rewrite (St_bind_ok _ _ _ _ _ R2). destruct e2 as [e|].
  { exists (p1 ++ p2)%list, j2, (Some e). rewrite app_assoc. split; [reflexivity|].
    split; [apply Forall_app; auto|]. repeat split; congruence. }
  destruct (startE2eTest_shape d getenv j2 E2e.E2eTest_LocalNodePrivate ((l ++ p1) ++ p2))
    as (p3 & j3 & e3 & R3 & F3 & A3 & B3 & C3 & D3).
  rewrite R3. exists (p1 ++ p2 ++ p3)%list, j3, e3. rewrite !app_assoc. split; [reflexivity|].
  split; [rewrite !Forall_app; auto|]. repeat split; congruence.
Qed.

Lemma checkOne_shape d js running config (l : list E2e.Call) :
  exists pre r, E2e.checkOne d js running config l = ((l ++ pre)%list, r)
    /\ Forall e2e_no_update pre.
Proof.
  unfold E2e.checkOne, assert_string. destruct (param_string _ _) as [a|].
  - unfold mbind, St_bind, emit, mret, St_ret. simpl. eexists [_], _. split; [reflexivity|]. repeat constructor.
  - exists [], (GoPanic "interface conversion: interface {} is not string"). rewrite app_nil_r. split; [reflexivity|constructor].
Qed.

Lemma checkE2eTests_shape d js running (l : list E2e.Call) :
  exists pre r, E2e.checkE2eTests d js running l = ((l ++ pre)%list, r)
    /\ Forall e2e_no_update pre.
Proof.
  unfold E2e.checkE2eTests, mbind at 1, St_bind at 1.
  destruct (checkOne_shape d js running E2e.E2eTest_PrivatePublic l) as (p1 & r1 & R1 & F1).
  rewrite R1. destruct r1 as [[a|e]|m].
  2: { exists p1. eexists. split; [reflexivity|auto]. }
  2: { exists p1. eexists. split; [reflexivity|auto]. }
  unfold mbind at 1, St_bind at 1.
  destruct (checkOne_shape d js running E2e.E2eTest_LocalClientPublic (l ++ p1)) as (p2 & r2 & R2 & F2).
  rewrite R2. rewrite <- app_assoc. destruct r2 as [[b|e]|m].
  2: { exists (p1 ++ p2)%list. eexists. split; [reflexivity|apply Forall_app; auto]. }
  2: { exists (p1 ++ p2)%list. eexists. split; [reflexivity|apply Forall_app; auto]. }
  unfold mbind at 1, St_bind at 1.
  destruct (checkOne_shape d js running E2e.E2eTest_LocalNodePrivate (l ++ p1 ++ p2)) as (p3 & r3 & R3 & F3).
  rewrite R3. rewrite <- !app_assoc. destruct r3 as [[c|e]|m];
  (exists (p1 ++ p2 ++ p3)%list; eexists; split; [reflexivity|rewrite !Forall_app; auto]).
Qed.

Lemma e2e_finish_run db now js (l : list E2e.Call) :
  E2e.finish db now js l
  = ((l ++ [E2e.CUpdateJob (with_ts js now)])%list, GoVal (UpdateJob db (with_ts js now))).
Proof. reflexivity. Qed.

(** An E2E advancement either writes the job exactly once, as its last
    call, with the same id and type, [ts = now] and stage Started, Waiting,
    Completed or Failed, and returns that write's error; or it writes
    nothing and returns nil, panics, or returns "anchorJob: unexpected
    state: " followed by [manager.PrintJob] of the job at once for a
    stage other than Queued, Started and Waiting. *)
Theorem e2e_AdvanceJob_persists_last db d getenv now PrintJob js :
  let '(calls, r) := run (E2e.AdvanceJob db d getenv now PrintJob js) [] in
  (exists pre js', calls = (pre ++ [E2e.CUpdateJob js'])%list /\ Forall e2e_no_update pre
     /\ r = GoVal (UpdateJob db js') /\ JobId js' = JobId js /\ JType js' = JType js
     /\ Ts js' = now
     /\ Stage js' ∈ [JobStage_Started; JobStage_Waiting; JobStage_Completed; JobStage_Failed])
  \/ (Forall e2e_no_update calls
      /\ (r = GoVal None \/ (exists m, r = GoPanic m)
          \/ (calls = [] /\ r = GoVal (Some ("anchorJob: unexpected state: " ++ PrintJob js))
              /\ Stage js ∉ [JobStage_Queued; JobStage_Started; JobStage_Waiting]))).
Proof.
  unfold run, E2e.AdvanceJob.
  destruct (decide (Stage js = JobStage_Queued)) as [HQ|HQ].
  { destruct (startE2eTests_shape d getenv js []) as (pre & j1 & err & R & F & A & B & C & D).
    rewrite (St_bind_ok _ _ _ _ _ R).
    destruct err; rewrite e2e_finish_run; left; eexists pre, _;
      (split; [reflexivity|]); (split; [exact F|]); (split; [reflexivity|]);
      cbn; (split; [exact A|]); (split; [exact B|]); (split; [reflexivity|]); set_solver. }
  destruct (Z.gtb (now - E2e.FailureTime) (Ts js)).
  { rewrite e2e_finish_run. left. exists [], (with_ts (with_stage js JobStage_Failed) now).
    repeat split; [constructor|set_solver]. }
  destruct (decide (Stage js = JobStage_Started)) as [HS|HS].
  { unfold mbind at 1, St_bind at 1.
    destruct (checkE2eTests_shape d js true []) as (pre & r & R & F). rewrite R.
    destruct r as [[running [e|]]|m]; cbv beta iota.
    - rewrite e2e_finish_run. left. eexists pre, _. repeat split; [exact F|set_solver].
    - destruct running.
      + rewrite e2e_finish_run. left. eexists pre, _. repeat split; [exact F|set_solver].
      + right. split; [exact F|left; reflexivity].
    - right. split; [exact F|right; left; eexists; reflexivity]. }
  destruct (decide (Stage js = JobStage_Waiting)) as [HW|HW].
  { unfold mbind at 1, St_bind at 1.
    destruct (checkE2eTests_shape d js false []) as (pre & r & R & F). rewrite R.
    destruct r as [[stopped [e|]]|m]; cbv beta iota.
    - rewrite e2e_finish_run. left. eexists pre, _. repeat split; [exact F|set_solver].
    - destruct stopped.
      + rewrite e2e_finish_run. left. eexists pre, _. repeat split; [exact F|set_solver].
      + right. split; [exact F|left; reflexivity].
    - right. split; [exact F|right; left; eexists; reflexivity]. }
  right. split; [constructor|]. right. right. split; [reflexivity|]. split; [reflexivity|].
  rewrite !not_elem_of_cons. repeat split; auto. apply not_elem_of_nil.
Qed.

Lemma resolveSha_shape db deps getenv BHL V CR EB js c sha (l : list DeployCtor.Call) :
  exists pre r,
    DeployCtor.resolveSha db deps getenv BHL V CR EB js c sha l = ((l ++ pre)%list, GoVal r)
    /\ length pre <= 1 /\ Forall ctor_no_notify pre
    /\ (param_bool (Params js) DeployJobParam_Rollback = true ->
        (exists e, r = Err e) \/
        (exists dh, GetDeployHashes db = Ok dh /\ r = Ok (map_index dh c, false))).
Proof.
  unfold DeployCtor.resolveSha, mbind, St_bind, emit, mret, St_ret.
  destruct (param_bool _ _) eqn:Hr.
  { destruct (GetDeployHashes db) as [dh|e]; cbn; eexists [_], _;
      (split; [reflexivity|]); (split; [cbn; lia|]); (split; [repeat constructor|]); intros _;
      [right; exists dh; split; reflexivity | left; eexists; reflexivity]. }
  destruct (String.eqb sha BHL).
  { destruct (DeployCtor.GetLatestCommitHash _ _ _) as [s|e]; cbn; eexists [_], _;
      (split; [reflexivity|]); (split; [cbn; lia|]); (split; [repeat constructor|]); discriminate. }
  destruct (negb (V sha)).
  { destruct (DeployCtor.GetBuildHashes deps) as [s|e]; cbn; eexists [_], _;
      (split; [reflexivity|]); (split; [cbn; lia|]); (split; [repeat constructor|]); discriminate. }
  exists [], (Ok (sha, true)). rewrite app_nil_r.
  split; [reflexivity|]. split; [cbn; lia|]. split; [constructor|discriminate].
Qed.

Lemma ctor_lookup_ne (p : gmap string Value) k1 k2 v :
  k1 <> k2 -> (<[k1 := v]> p) !! k2 = p !! k2.
Proof. intros H. apply lookup_insert_ne. exact H. Qed.

(** The [DeployJob] constructor never notifies when it fails. When it
    succeeds on a job without a layout, it makes at most one lookup, then
    generates the layout, writes the job and notifies, as its last three
    calls; the job keeps its id, type, stage and ts and gains the sha, the
    layout and the manual flag, and a rollback takes the deployed hash and
    is not manual. *)
Theorem DeployJob_first_dequeue db d deps getenv BHL V CR EB js :
  let '(calls, o) := run (DeployCtor.DeployJob db d deps getenv BHL V CR EB js) [] in
  (forall p e, o = GoVal (p, Err e) -> forall x, DeployCtor.CNotifyJob x ∉ calls) /\
  (forall p dj, o = GoVal (p, Ok dj) -> Params js !! JobParam_Layout = None ->
     exists c l pre,
       param_string (Params js) DeployJobParam_Component = Some c
       /\ Deploy.component dj = c /\ GenerateEnvLayout d c = Ok l
       /\ calls = (pre ++ [DeployCtor.CGenerateEnvLayout c; DeployCtor.CWriteJob (Deploy.state dj);
                           DeployCtor.CNotifyJob (Deploy.state dj)])%list
       /\ length pre <= 1 /\ Forall ctor_no_notify pre
       /\ Params (Deploy.state dj) = p
       /\ JobId (Deploy.state dj) = JobId js /\ JType (Deploy.state dj) = JType js
       /\ Stage (Deploy.state dj) = Stage js /\ Ts (Deploy.state dj) = Ts js
       /\ param_string p DeployJobParam_Sha = Some (Deploy.sha dj)
       /\ param_layout p JobParam_Layout = Some l
       /\ param_bool p JobParam_Manual = (Deploy.manual dj || param_bool (Params js) JobParam_Manual)
       /\ (forall k, k <> DeployJobParam_Sha -> k <> JobParam_Manual -> k <> JobParam_Layout ->
             p !! k = Params js !! k)
       /\ (param_bool (Params js) DeployJobParam_Rollback = true ->
             Deploy.manual dj = false
             /\ exists dh, GetDeployHashes db = Ok dh /\ Deploy.sha dj = map_index dh c)).
Proof.
  unfold run, DeployCtor.DeployJob.
  destruct (param_string (Params js) DeployJobParam_Component) as [c|] eqn:Hc.
  2: { split; [intros p e _ x Hx; apply not_elem_of_nil in Hx; exact Hx|discriminate]. }
  destruct (param_string (Params js) DeployJobParam_Sha) as [s|] eqn:Hs.
  2: { split; [intros p e _ x Hx; apply not_elem_of_nil in Hx; exact Hx|discriminate]. }
  destruct (Params js !! JobParam_Layout) as [lv|] eqn:Hl.
  { split; [discriminate|]. intros p dj _ H. discriminate H. }
  destruct (resolveSha_shape db deps getenv BHL V CR EB js c s []) as (pre & r & R & Len & F & Rb).
  rewrite (St_bind_ok _ _ _ _ _ R). simpl app.
  destruct r as [[sha' manual]|e].
  2: { cbn. split; [|discriminate]. intros p e' _ x Hx. rewrite Forall_forall in F.
       exact (F _ Hx). }
  unfold mbind, St_bind, emit, mret, St_ret.
  destruct (GenerateEnvLayout d c) as [l|e] eqn:Hg; cbn.
  2: { split; [|discriminate]. intros p e' _ x Hx. apply elem_of_app in Hx as [Hx|Hx].
       - rewrite Forall_forall in F. exact (F _ Hx).
       - apply list_elem_of_singleton in Hx. discriminate Hx. }
  destruct (DeployCtor.WriteJob deps _) as [e|] eqn:Hw; cbn.
  { split; [|discriminate]. intros p e' _ x Hx. rewrite <- app_assoc in Hx.
    apply elem_of_app in Hx as [Hx|Hx].
    - rewrite Forall_forall in F. exact (F _ Hx).
    - cbn in Hx. rewrite !elem_of_cons, elem_of_nil in Hx. destruct Hx as [Hx|[Hx|[]]]; discriminate Hx. }
  split; [discriminate|]. intros p dj Heq _. injection Heq as <- <-.
  exists c, l, pre. split; [reflexivity|]. split; [reflexivity|]. split; [exact Hg|].
  split; [rewrite <- !app_assoc; destruct manual; reflexivity|].
  split; [exact Len|]. split; [exact F|].
  destruct manual; cbn; (split; [reflexivity|]);
    (split; [reflexivity|]); (split; [reflexivity|]); (split; [reflexivity|]); (split; [reflexivity|]);
    unfold param_string, param_layout, param_bool.
  - rewrite (ctor_lookup_ne _ JobParam_Layout) by sneq.
    rewrite (ctor_lookup_ne _ JobParam_Manual) by sneq. rewrite lookup_insert_eq.
    split; [reflexivity|]. rewrite lookup_insert_eq. split; [reflexivity|].
    rewrite (ctor_lookup_ne _ JobParam_Layout) by sneq. rewrite lookup_insert_eq. split; [reflexivity|].
    split.
    + intros k H1 H2 H3. rewrite !ctor_lookup_ne by congruence. reflexivity.
    + intros Hrb. destruct (Rb Hrb) as [[e He]|(dh & _ & Hdh)]; discriminate.
  - rewrite (ctor_lookup_ne _ JobParam_Layout) by sneq. rewrite lookup_insert_eq.
    split; [reflexivity|]. rewrite lookup_insert_eq. split; [reflexivity|].
    rewrite (ctor_lookup_ne _ JobParam_Layout) by sneq.
    rewrite (ctor_lookup_ne _ DeployJobParam_Sha) by sneq. split; [reflexivity|].
    split.
    + intros k H1 H2 H3. rewrite !ctor_lookup_ne by congruence. reflexivity.
    + intros Hrb. destruct (Rb Hrb) as [[e He]|(dh & Hdh & Hr)]; [discriminate|].
      injection Hr as ->. split; [reflexivity|]. exists dh. split; [exact Hdh|reflexivity].
Qed.

(** A rollback deploy job dequeued for the first time takes the currently
    deployed hash as its sha, so its first advancement reads the deploy
    hashes, finds the same sha and moves it to Skipped. *)
Theorem rollback_deploy_skipped db d deps getenv BHL V CR EB nowMs IsTimedOut PrintJob js c s l dh
    (Hc : param_string (Params js) DeployJobParam_Component = Some c)
    (Hs : param_string (Params js) DeployJobParam_Sha = Some s)
    (Hl : Params js !! JobParam_Layout = None)
    (Hrb : param_bool (Params js) DeployJobParam_Rollback = true)
    (HQ : Stage js = JobStage_Queued)
    (Hdh : GetDeployHashes db = Ok dh)
    (Hg : GenerateEnvLayout d c = Ok l)
    (HW : forall j, DeployCtor.WriteJob deps j = None) :
  exists calls p dj,
    run (DeployCtor.DeployJob db d deps getenv BHL V CR EB js) [] = (calls, GoVal (p, Ok dj))
    /\ Deploy.sha dj = map_index dh c
    /\ run (Deploy.AdvanceJob db d nowMs IsTimedOut PrintJob dj) []
       = ([Deploy.CGetDeployHashes;
           Deploy.CNotifyJob (with_stage (Deploy.state dj) JobStage_Skipped);
           Deploy.CAdvanceJob (with_stage (Deploy.state dj) JobStage_Skipped)],
          GoVal (with_stage (Deploy.state dj) JobStage_Skipped,
                 Db_AdvanceJob db (with_stage (Deploy.state dj) JobStage_Skipped))).
Proof.
  unfold run, DeployCtor.DeployJob. rewrite Hc, Hs, Hl.
  unfold DeployCtor.resolveSha. rewrite Hrb.
  unfold mbind, St_bind, emit, mret, St_ret. rewrite Hdh. cbn. rewrite Hg. cbn. rewrite HW. cbn.
  eexists _, _, _. split; [reflexivity|]. split; [reflexivity|].
  unfold Deploy.AdvanceJob. cbn. rewrite HQ. cbn. rewrite Hdh. cbn.
  rewrite String.eqb_refl. reflexivity.
Qed.

(** A deploy job that already has a layout is rebuilt without any call and
    with manual=false, even when its params say manual=true; if its sha is
    the deployed one, its advancement moves it to Skipped. *)
Theorem reloaded_deploy_not_manual db d deps getenv BHL V CR EB nowMs IsTimedOut PrintJob js c s lv dh
    (Hc : param_string (Params js) DeployJobParam_Component = Some c)
    (Hs : param_string (Params js) DeployJobParam_Sha = Some s)
    (Hl : Params js !! JobParam_Layout = Some lv)
    (HQ : Stage js = JobStage_Queued)
    (Hdh : GetDeployHashes db = Ok dh)
    (Hsame : map_index dh c = s) :
  run (DeployCtor.DeployJob db d deps getenv BHL V CR EB js) []
    = ([], GoVal (Params js, Ok (Deploy.mkDeployJob js c s false)))
  /\ run (Deploy.AdvanceJob db d nowMs IsTimedOut PrintJob (Deploy.mkDeployJob js c s false)) []
     = ([Deploy.CGetDeployHashes;
         Deploy.CNotifyJob (with_stage js JobStage_Skipped);
         Deploy.CAdvanceJob (with_stage js JobStage_Skipped)],
        GoVal (with_stage js JobStage_Skipped, Db_AdvanceJob db (with_stage js JobStage_Skipped))).
Proof.
  split.
  - unfold run, DeployCtor.DeployJob. rewrite Hc, Hs, Hl. reflexivity.
  - unfold run, Deploy.AdvanceJob, mbind, St_bind, emit. cbn. rewrite HQ. cbn. rewrite Hdh. cbn.
    rewrite Hsame, String.eqb_refl. reflexivity.
Qed.


Lemma deploy_finish_run db js (l : list Deploy.Call) :
  Deploy.notified (Stage js) = true ->
  Deploy.finish db js l
  = ((l ++ [Deploy.CNotifyJob js; Deploy.CAdvanceJob js])%list, GoVal (js, Db_AdvanceJob db js)).
Proof.
  intros H. unfold Deploy.finish, mbind, St_bind, emit, mret, St_ret. rewrite H.
  cbn. rewrite <- app_assoc. reflexivity.
Qed.

Lemma checkEnv_shape d dj (l : list Deploy.Call) :
  exists pre r, Deploy.checkEnv d dj l = ((l ++ pre)%list, GoVal r) /\ Forall deploy_probe pre.
Proof.
  unfold Deploy.checkEnv, mbind, St_bind, emit, mret, St_ret.
  destruct (param_layout _ _) as [lay|].
  2: { exists [], (Err "checkEnv: missing env layout"). rewrite app_nil_r. split; [reflexivity|constructor]. }
  cbn. destruct (CheckEnv d lay) as [dep|e].
  2: { eexists [_], _. split; [reflexivity|repeat constructor]. }
  destruct (negb dep || negb (String.eqb (Deploy.component dj) DeployComponent_Ipfs)).
  { eexists [_], _. split; [reflexivity|repeat constructor]. }
  cbn. destruct (GenerateEnvLayout d DeployComponent_Ceramic) as [cl|e]; cbn.
  - eexists [_; _; _], _. rewrite <- !app_assoc. split; [reflexivity|repeat constructor].
  - eexists [_; _], _. rewrite <- !app_assoc. split; [reflexivity|repeat constructor].
Qed.

Lemma updateEnv_shape d dj js sha (l : list Deploy.Call) :
  exists pre err, Deploy.updateEnv d dj js sha l = ((l ++ pre)%list, GoVal err)
    /\ Forall (fun c => exists lay, c = Deploy.CUpdateEnv lay sha) pre.
Proof.
  unfold Deploy.updateEnv, mbind, St_bind, emit, mret, St_ret.
  destruct (param_layout _ _) as [lay|].
  - eexists [_], _. split; [reflexivity|]. repeat constructor. eexists. reflexivity.
  - exists [], (Some "updateEnv: missing env layout"). rewrite app_nil_r. split; [reflexivity|constructor].
Qed.

Ltac mem_inv H :=
  repeat rewrite ?elem_of_app, ?elem_of_cons, ?elem_of_nil in H;
  repeat match type of H with
  | _ \/ _ => destruct H as [H|H]
  | False => destruct H
  end.

(** A deploy advancement either ends with one notification and one
    AdvanceJob of the same new state (id, type and ts kept, stage Skipped,
    Started, Failed or Completed), the build hash being written only for
    Started, the deploy hash only for Completed and UpdateEnv only from
    Queued with the job's sha; or it neither notifies nor persists nor
    writes a hash and returns the job's state unchanged. *)
Theorem deploy_AdvanceJob_persists_last db d nowMs IsTimedOut PrintJob dj :
  let '(calls, o) := run (Deploy.AdvanceJob db d nowMs IsTimedOut PrintJob dj) [] in
  (exists pre js',
     calls = (pre ++ [Deploy.CNotifyJob js'; Deploy.CAdvanceJob js'])%list
     /\ Forall deploy_quiet pre
     /\ o = GoVal (js', Db_AdvanceJob db js')
     /\ JobId js' = JobId (Deploy.state dj) /\ JType js' = JType (Deploy.state dj)
     /\ Ts js' = Ts (Deploy.state dj)
     /\ Stage js' ∈ [JobStage_Skipped; JobStage_Started; JobStage_Failed; JobStage_Completed]
     /\ (forall c s, Deploy.CUpdateBuildHash c s ∈ pre ->
           Stage js' = JobStage_Started /\ c = Deploy.component dj /\ s = Deploy.sha dj)
     /\ (forall c s, Deploy.CUpdateDeployHash c s ∈ pre ->
           Stage js' = JobStage_Completed /\ c = Deploy.component dj /\ s = Deploy.sha dj)
     /\ (forall lay s, Deploy.CUpdateEnv lay s ∈ pre ->
           Stage (Deploy.state dj) = JobStage_Queued /\ s = Deploy.sha dj))
  \/ (Forall deploy_quiet calls
      /\ (forall c s, Deploy.CUpdateBuildHash c s ∉ calls)
      /\ (forall c s, Deploy.CUpdateDeployHash c s ∉ calls)
      /\ exists e, o = GoVal (Deploy.state dj, e)).
Proof.
  unfold run, Deploy.AdvanceJob. set (js := Deploy.state dj).
  destruct (decide (Stage js = JobStage_Queued)) as [HQ|HQ].
  { unfold mbind at 1, St_bind at 1, emit at 1. cbn [app].
    destruct (GetDeployHashes db) as [dh|e].
    2: { rewrite deploy_finish_run by reflexivity. left. eexists [_], _.
         split; [reflexivity|]. split; [repeat constructor|]. split; [reflexivity|].
         cbn. do 3 (split; [reflexivity|]). split; [set_solver|].
         split; [|split]; [..|intros lay s Hm]; [intros c s Hm..|]; mem_inv Hm; discriminate Hm. }
    destruct (negb (Deploy.manual dj) && String.eqb (Deploy.sha dj) (map_index dh (Deploy.component dj))).
    { rewrite deploy_finish_run by reflexivity. left. eexists [_], _.
      split; [reflexivity|]. split; [repeat constructor|]. split; [reflexivity|].
      cbn. do 3 (split; [reflexivity|]). split; [set_solver|].
      split; [|split]; [..|intros lay s Hm]; [intros c s Hm..|]; mem_inv Hm; discriminate Hm. }
    destruct (updateEnv_shape d dj js (Deploy.sha dj) [Deploy.CGetDeployHashes])
      as (pre & err & R & Hpre).
    rewrite (St_bind_ok _ _ _ _ _ R).
    assert (Q : Forall deploy_quiet pre).
    { eapply Forall_impl; [exact Hpre|]. intros c [lay ->]. exact I. }
    assert (Hm1 : forall x, x ∈ pre -> exists lay, x = Deploy.CUpdateEnv lay (Deploy.sha dj)).
    { intros x Hx. rewrite Forall_forall in Hpre. exact (Hpre x Hx). }
    destruct err as [e|].
    - rewrite deploy_finish_run by reflexivity. left. eexists (_ :: pre), _.
      split; [reflexivity|]. split; [constructor; [exact I|exact Q]|]. split; [reflexivity|].
      cbn. do 3 (split; [reflexivity|]). split; [set_solver|].
      split; [|split]; [..|intros lay' s Hm]; [intros c s Hm..|]; apply elem_of_cons in Hm as [Hm|Hm];
        try discriminate Hm; destruct (Hm1 _ Hm) as [lay'' Hx]; try discriminate Hx.
      injection Hx as -> ->. split; [exact HQ|reflexivity].
    - unfold mbind at 1, St_bind at 1, emit at 1.
      rewrite deploy_finish_run by reflexivity. left. eexists ((_ :: pre) ++ [_])%list, _.
      split; [rewrite <- !app_assoc; reflexivity|].
      split; [apply Forall_app; split; [constructor; [exact I|exact Q]|repeat constructor]|].
      split; [reflexivity|].
      cbn. do 3 (split; [reflexivity|]). split; [set_solver|].
      split; [|split]; [..|intros lay' s Hm]; [intros c s Hm..|];
        rewrite elem_of_cons, elem_of_app, list_elem_of_singleton in Hm;
        destruct Hm as [Hm|[Hm|Hm]]; try discriminate Hm;
        try (destruct (Hm1 _ Hm) as [lay'' Hx]; discriminate Hx);
        first [injection Hm as -> ->; auto
              | destruct (Hm1 _ Hm) as [lay'' Hx]; injection Hx as -> ->;
                split; [exact HQ|reflexivity]]. }
  destruct (IsTimedOut js).
  { rewrite deploy_finish_run by reflexivity. left. eexists [], _.
    split; [reflexivity|]. split; [constructor|]. split; [reflexivity|].
    cbn. do 3 (split; [reflexivity|]). split; [set_solver|].
    split; [|split]; [..|intros lay s Hm]; [intros c s Hm..|]; mem_inv Hm. }
  destruct (decide (Stage js = JobStage_Started)) as [HS|HS].
  2: { right. split; [constructor|]. split; [intros c s Hm; mem_inv Hm|].
       split; [intros c s Hm; mem_inv Hm|]. eexists. reflexivity. }
  unfold mbind at 1, St_bind at 1.
  destruct (checkEnv_shape d dj []) as (pre & r & R & F). rewrite R. rewrite app_nil_l.
  assert (Q : Forall deploy_quiet pre).
  { eapply Forall_impl; [exact F|]. intros [] H; cbn in *; tauto. }
  assert (NB : forall c s, Deploy.CUpdateBuildHash c s ∉ pre).
  { intros c s Hm. rewrite Forall_forall in F. exact (F _ Hm). }
  assert (ND : forall c s, Deploy.CUpdateDeployHash c s ∉ pre).
  { intros c s Hm. rewrite Forall_forall in F. exact (F _ Hm). }
  assert (NE : forall lay s, Deploy.CUpdateEnv lay s ∉ pre).
  { intros lay s Hm. rewrite Forall_forall in F. exact (F _ Hm). }
  destruct r as [[|]|e].
  - unfold mbind at 1, St_bind at 1, emit at 1.
    rewrite deploy_finish_run by reflexivity. left. eexists (pre ++ [_])%list, _.
    split; [rewrite <- !app_assoc; reflexivity|].
    split; [apply Forall_app; split; [exact Q|repeat constructor]|]. split; [reflexivity|].
    cbn. do 3 (split; [reflexivity|]). split; [set_solver|].
    split; [|split]; [..|intros lay s Hm]; [intros c s Hm..|];
      apply elem_of_app in Hm as [Hm|Hm]; try (exfalso; eapply NB; exact Hm);
      try (exfalso; eapply ND; exact Hm); try (exfalso; eapply NE; exact Hm); mem_inv Hm;
      try discriminate Hm.
    injection Hm as -> ->. auto.
  - right. split; [exact Q|]. split; [exact NB|]. split; [exact ND|]. eexists. reflexivity.
  - rewrite deploy_finish_run by reflexivity. left. eexists pre, _.
    split; [reflexivity|]. split; [exact Q|]. split; [reflexivity|].
    cbn. do 3 (split; [reflexivity|]). split; [set_solver|].
    split; [intros c s Hm; exfalso; eapply NB; exact Hm|].
    split; [intros c s Hm; exfalso; eapply ND; exact Hm|].
    intros lay s Hm; exfalso; eapply NE; exact Hm.
Qed.

Lemma digit_pretty_N_char (x : N) : (x < 10)%N -> Config.digit (pretty_N_char x) = Some (Z.of_N x).
Proof.
  intros H.
  assert (x = 0 \/ x = 1 \/ x = 2 \/ x = 3 \/ x = 4 \/ x = 5 \/ x = 6 \/ x = 7 \/ x = 8 \/ x = 9)%N
    as Hx by lia.
  repeat destruct Hx as [->|Hx]; try reflexivity. subst. reflexivity.
Qed.

Lemma digits_val_pretty_N_go (x : N) : forall s,
  Config.digits_val 0 (pretty_N_go x s) = Config.digits_val (Z.of_N x) s.
Proof.
  induction (N.lt_wf_0 x) as [x _ IH]. intros s.
  destruct (N.eq_dec x 0%N) as [->|Hx]; [rewrite pretty_N_go_0; reflexivity|].
  rewrite pretty_N_go_step by lia.
  rewrite IH by (apply N.div_lt; lia).
  cbn [Config.digits_val]. rewrite digit_pretty_N_char by (apply N.mod_lt; lia).
  f_equal. rewrite (N.div_mod x 10) at 3 by lia. lia.
Qed.

Lemma Atoi_digits (s : string) (v : Z) :
  Config.digits_val 0 s = Some v -> s <> "" ->
  (Config.int_min <= v <= Config.int_max)%Z -> Config.Atoi s = Ok v.
Proof.
  intros Hd Hne Hr. destruct s as [|c rest]; [congruence|].
  assert (Hc : exists d, Config.digit c = Some d).
  { cbn in Hd. destruct (Config.digit c) as [d|]; [eexists; reflexivity|discriminate]. }
  destruct Hc as [d Hc].
  unfold Config.Atoi.
  destruct (Ascii.eqb c "-") eqn:Hm.
  { apply Ascii.eqb_eq in Hm. subst c. discriminate Hc. }
  destruct (Ascii.eqb c "+") eqn:Hp.
  { apply Ascii.eqb_eq in Hp. subst c. discriminate Hc. }
  rewrite Hd. cbv zeta.
  replace ((Config.int_min <=? v)%Z && (v <=? Config.int_max)%Z) with true
    by (symmetry; apply andb_true_intro; split; apply Z.leb_le; lia).
  reflexivity.
Qed.

Lemma pretty_pos_digits (p : positive) :
  Config.digits_val 0 (pretty_N_go (Npos p) "") = Some (Zpos p)
  /\ pretty_N_go (Npos p) "" <> "".
Proof.
  rewrite digits_val_pretty_N_go. split; [reflexivity|].
  intros He. pose proof (digits_val_pretty_N_go (Npos p) "") as H.
  rewrite He in H. cbn in H. discriminate H.
Qed.

(** [strconv.Atoi] reads back what [%d] prints. *)
Lemma Atoi_pretty (z : Z) :
  (Config.int_min <= z <= Config.int_max)%Z -> Config.Atoi (pretty z) = Ok z.
Proof.
  intros Hr. destruct z as [|p|p].
  - reflexivity.
  - destruct (pretty_pos_digits p) as [Hd Hne].
    apply Atoi_digits; [exact Hd|exact Hne|exact Hr].
  - destruct (pretty_pos_digits p) as [Hd Hne].
    change (Config.Atoi (String "-" (pretty_N_go (Npos p) "")) = Ok (Zneg p)).
    remember (pretty_N_go (N.pos p) "") as s eqn:Hs. clear Hs.
    destruct s as [|c r]; [congruence|].
    unfold Config.Atoi. cbn -[Config.digits_val Config.int_min Config.int_max]. rewrite Hd.
    replace ((Config.int_min <=? - Z.pos p)%Z && (- Z.pos p <=? Config.int_max)%Z) with true
      by (symmetry; apply andb_true_intro; split; apply Z.leb_le; lia).
    reflexivity.
Qed.

Lemma intSetting_value lookupEnv name dflt n :
  (Config.int_min <= n <= Config.int_max)%Z ->
  lookupEnv name = Some (pretty n) \/ (lookupEnv name = None /\ n = dflt) ->
  Config.intSetting lookupEnv name dflt = n.
Proof.
  intros Hr [H|[H ->]]; unfold Config.intSetting; rewrite H; [|reflexivity].
  rewrite Atoi_pretty by exact Hr. reflexivity.
Qed.

(** [NewJobManager] reads the anchor worker bounds from the environment
    (defaults 1 and 0): with min <= max it succeeds with them, paused read
    with [strconv.ParseBool] and the env name; with min > max it fails with
    the message naming min and max. *)
Theorem NewJobManager_anchor_config lookupEnv EnvVar_Env n m
    (Hn : (Config.int_min <= n <= Config.int_max)%Z)
    (Hm : (Config.int_min <= m <= Config.int_max)%Z)
    (HX : lookupEnv "CAS_MAX_ANCHOR_WORKERS" = Some (pretty n)
          \/ (lookupEnv "CAS_MAX_ANCHOR_WORKERS" = None /\ n = 1%Z))
    (HN : lookupEnv "CAS_MIN_ANCHOR_WORKERS" = Some (pretty m)
          \/ (lookupEnv "CAS_MIN_ANCHOR_WORKERS" = None /\ m = 0%Z)) :
  ((m <= n)%Z ->
     exists cfg, Config.NewJobManager lookupEnv EnvVar_Env = Ok cfg
       /\ Config.maxAnchorJobs cfg = n /\ Config.minAnchorJobs cfg = m
       /\ Config.paused cfg
          = existsb (String.eqb (default "" (lookupEnv "PAUSED")))
              ["1"; "t"; "T"; "TRUE"; "true"; "True"]
       /\ Config.env cfg = default "" (lookupEnv EnvVar_Env))
  /\ ((n < m)%Z ->
      Config.NewJobManager lookupEnv EnvVar_Env
      = Err ("newJobManager: invalid anchor worker config: " ++ pretty m ++ ", " ++ pretty n)).
Proof.
  unfold Config.NewJobManager, Config.defaultCasMaxAnchorWorkers, Config.defaultCasMinAnchorWorkers.
  rewrite (intSetting_value lookupEnv _ _ n Hn HX), (intSetting_value lookupEnv _ _ m Hm HN).
  split.
  - intros Hle. replace (Z.gtb m n) with false by (symmetry; rewrite Z.gtb_ltb; apply Z.ltb_ge; lia).
    eexists. split; [reflexivity|].
    cbn [Config.maxAnchorJobs Config.minAnchorJobs Config.paused Config.env].
    split; [reflexivity|]. split; [reflexivity|]. split; [|reflexivity].
    unfold Config.ParseBool.
    destruct (existsb _ ["1"; "t"; "T"; "TRUE"; "true"; "True"]); [reflexivity|].
    destruct (existsb _ _); reflexivity.
  - intros Hlt. replace (Z.gtb m n) with true by (symmetry; rewrite Z.gtb_ltb; apply Z.ltb_lt; lia).
    reflexivity.
Qed.

Lemma JobsByMatcher_run (f : JobState -> bool) (w : Scheduler.World) :
  Scheduler.JobsByMatcher f w
  = (w, GoVal (List.filter f (map snd (map_to_list (Scheduler.cache w))))).
Proof. reflexivity. Qed.

Section Blocked.
Variable m : Scheduler.Manager.

Lemma collectForceDeploys_none (D : list JobState) (F : gmap string JobState) w :
  (forall j, In j D -> Scheduler.is_type JobType_Deploy j
                       && param_bool (Params j) DeployJobParam_Force = false) ->
  Scheduler.collectForceDeploys D F w = (w, GoVal F).
Proof.
  revert F. induction D as [|j D IH]; intros F HF; [reflexivity|].
  cbn [Scheduler.collectForceDeploys]. rewrite (HF j (or_introl eq_refl)).
  apply IH. intros j' Hj'. apply HF. right. exact Hj'.
Qed.

Lemma filter_nonempty (f : JobState -> bool) (c : gmap string JobState) k a :
  c !! k = Some a -> f a = true -> Nat.eqb (length (List.filter f (map snd (map_to_list c)))) 0 = false.
Proof.
  intros Hk Hf. apply Nat.eqb_neq. intros H0. apply length_zero_iff_nil in H0.
  assert (Hin : In a (List.filter f (map snd (map_to_list c)))).
  { apply filter_In. split; [|exact Hf]. apply in_map_iff. exists (k, a). split; [reflexivity|].
    apply list_elem_of_In, elem_of_map_to_list. exact Hk. }
  rewrite H0 in Hin. exact Hin.
Qed.

(** While a deploy is active and no dequeued job is a forced deploy,
    processing the dequeued jobs changes nothing: no stage update, no
    advancement, no new job. *)
Theorem processDequeued_blocked_by_deploy (D : list JobState) (w : Scheduler.World) k a
    (Ha : Scheduler.cache w !! k = Some a)
    (Hact : Scheduler.IsActiveJob m a = true)
    (Hdep : JType a = JobType_Deploy)
    (HF : forall j, In j D -> Scheduler.is_type JobType_Deploy j
                             && param_bool (Params j) DeployJobParam_Force = false) :
  run (Scheduler.processDequeued m D) w = (w, GoVal tt).
Proof.
  assert (HAD : Nat.eqb (length (List.filter
             (fun js => Scheduler.IsActiveJob m js && Scheduler.is_type JobType_Deploy js)
             (map snd (map_to_list (Scheduler.cache w))))) 0 = false).
  { apply (filter_nonempty _ _ k a Ha). rewrite Hact. unfold Scheduler.is_type.
    rewrite bool_decide_true by exact Hdep. reflexivity. }
  assert (HA : Nat.eqb (length (List.filter (Scheduler.IsActiveJob m)
             (map snd (map_to_list (Scheduler.cache w))))) 0 = false).
  { apply (filter_nonempty _ _ k a Ha). exact Hact. }
  assert (PA : Scheduler.processAnchorJobs m D w = (w, GoVal false)).
  { unfold Scheduler.processAnchorJobs, Scheduler.getActiveDeploys.
    rewrite (St_bind_ok _ _ _ _ _ (JobsByMatcher_run _ w)). rewrite HAD. reflexivity. }
  assert (PF : Scheduler.processForceDeployJobs m D w = (w, GoVal false)).
  { unfold Scheduler.processForceDeployJobs.
    rewrite (St_bind_ok _ _ _ _ _ (collectForceDeploys_none D ∅ w HF)).
    rewrite map_size_empty. reflexivity. }
  unfold run, Scheduler.processDequeued.
  destruct D as [|j0 rest].
  { unfold mbind, St_bind. cbn -[Scheduler.processAnchorJobs]. rewrite PA. reflexivity. }
  assert (PD : Scheduler.processDeployJobs m (j0 :: rest) w = (w, GoVal false)).
  { unfold Scheduler.processDeployJobs.
    rewrite (St_bind_ok _ _ _ _ _ (JobsByMatcher_run _ w)). rewrite HA. reflexivity. }
  assert (PT : Scheduler.processTestJobs m (j0 :: rest) w = (w, GoVal false)).
  { unfold Scheduler.processTestJobs, Scheduler.getActiveDeploys.
    rewrite (St_bind_ok _ _ _ _ _ (JobsByMatcher_run _ w)). rewrite HAD. reflexivity. }
  assert (PW : Scheduler.processWorkflowJobs m (j0 :: rest) w = (w, GoVal false)).
  { unfold Scheduler.processWorkflowJobs, Scheduler.getActiveDeploys.
    rewrite (St_bind_ok _ _ _ _ _ (JobsByMatcher_run _ w)). rewrite HAD. reflexivity. }
  unfold mbind, St_bind.
  cbn -[Scheduler.processForceDeployJobs Scheduler.processDeployJobs Scheduler.processTestJobs
        Scheduler.processWorkflowJobs Scheduler.processAnchorJobs Scheduler.JobsByMatcher
        Scheduler.is_type].
  rewrite PF.
  cbn -[Scheduler.processForceDeployJobs Scheduler.processDeployJobs Scheduler.processTestJobs
        Scheduler.processWorkflowJobs Scheduler.processAnchorJobs Scheduler.JobsByMatcher
        Scheduler.is_type].
  destruct (Scheduler.is_type JobType_Deploy j0).
  - rewrite PD. rewrite JobsByMatcher_run.
    cbn -[Scheduler.processAnchorJobs].
    match goal with |- context [if ?b then _ else _] => destruct b end;
      cbn -[Scheduler.processAnchorJobs]; [rewrite PA|]; reflexivity.
  - rewrite PT. cbn -[Scheduler.processWorkflowJobs Scheduler.processAnchorJobs].
    rewrite PW. cbn -[Scheduler.processAnchorJobs]. rewrite PA. reflexivity.
Qed.

End Blocked.

Lemma last_cons_indep {A} (x : A) (l : list A) (d d' : A) : List.last (x :: l) d = List.last (x :: l) d'.
Proof.
  revert x. induction l as [|y l IH]; intros x; [reflexivity|].
  change (List.last (y :: l) d = List.last (y :: l) d'). apply IH.
Qed.

Section Collapse.
Variable m : Scheduler.Manager.
Variable c : string.

Lemma collapseDeploys_run (rest : list JobState) : forall dj w,
  (forall j, In j (beforeTest rest) -> Scheduler.is_type JobType_Deploy j = true ->
             param_string (Params j) DeployJobParam_Component <> None) ->
  (forall j, In j (dj :: List.filter (same_component_deploy c) (beforeTest rest)) ->
             Scheduler.AdvanceStage m j JobStage_Skipped None = None) ->
  exists w',
    Scheduler.collapseDeploys m c dj rest w
    = (w', GoVal (Some (List.last (dj :: List.filter (same_component_deploy c) (beforeTest rest)) dj)))
    /\ Scheduler.trace w' = (Scheduler.trace w
         ++ map (fun j => Scheduler.AUpdateStage j JobStage_Skipped None)
              (removelast (dj :: List.filter (same_component_deploy c) (beforeTest rest))))%list
    /\ Scheduler.fresh w' = Scheduler.fresh w.
Proof.
  induction rest as [|j r IH]; intros dj w HS HOK.
  { exists w. cbn. rewrite app_nil_r. auto. }
  cbn [Scheduler.collapseDeploys beforeTest] in *.
  destruct (Scheduler.is_test j) eqn:Ht.
  { exists w. cbn. rewrite app_nil_r. auto. }
  cbn [List.filter] in HOK |- *.
  destruct (Scheduler.is_type JobType_Deploy j) eqn:Hd.
  - destruct (param_string (Params j) DeployJobParam_Component) as [c'|] eqn:Hc'.
    2: { exfalso. apply (HS j (or_introl eq_refl) Hd). exact Hc'. }
    rewrite (St_bind_ok _ _ _ _ _ (assert_string_ok _ _ _ w Hc')).
    destruct (String.eqb c' c) eqn:Hcc.
    + apply String.eqb_eq in Hcc. subst c'.
      assert (Hsc : same_component_deploy c j = true).
      { unfold same_component_deploy. rewrite Hd, Hc'. apply bool_decide_true. reflexivity. }
      rewrite Hsc in HOK |- *.
      unfold Scheduler.updateJobStage at 1, mbind at 1, St_bind at 1.
      rewrite (HOK dj (or_introl eq_refl)). cbv beta iota.
      match goal with
      | |- exists w', Scheduler.collapseDeploys _ _ _ _ ?w1 = _ /\ _ =>
          destruct (IH j w1 (fun j' H => HS j' (or_intror H))
                      (fun j' H => HOK j' (or_intror H))) as (w' & R & T & F)
      end.
      exists w'. rewrite R. split.
      * rewrite (last_cons_indep j _ j dj). reflexivity.
      * split; [|exact F]. rewrite T. cbn. rewrite <- app_assoc. reflexivity.
    + assert (Hsc : same_component_deploy c j = false).
      { unfold same_component_deploy. rewrite Hd, Hc'. apply bool_decide_false.
        intros He; injection He as He; subst c'; rewrite String.eqb_refl in Hcc; discriminate. }
      rewrite Hsc in HOK |- *. apply IH.
      * intros j' H. apply HS. right. exact H.
      * exact HOK.
  - assert (Hsc : same_component_deploy c j = false).
    { unfold same_component_deploy. rewrite Hd. reflexivity. }
    rewrite Hsc in HOK |- *. apply IH.
    + intros j' H. apply HS. right. exact H.
    + exact HOK.
Qed.

End Collapse.

(** With no active job, and when the Skip updates succeed,
    [processDeployJobs] keeps the last of the
    dequeued deploys of the first job's component that come before the
    first test job, skips the others in order, and advances the kept one;
    deploys of other components are left alone. *)
Theorem processDeployJobs_collapse m j0 rest c w
    (HN : List.filter (Scheduler.IsActiveJob m) (map snd (map_to_list (Scheduler.cache w))) = [])
    (Hc : param_string (Params j0) DeployJobParam_Component = Some c)
    (HS : forall j, In j (beforeTest rest) -> Scheduler.is_type JobType_Deploy j = true ->
                    param_string (Params j) DeployJobParam_Component <> None)
    (HOK : forall j, In j (j0 :: List.filter (same_component_deploy c) (beforeTest rest)) ->
                     Scheduler.AdvanceStage m j JobStage_Skipped None = None) :
  let S := j0 :: List.filter (same_component_deploy c) (beforeTest rest) in
  exists w',
    run (Scheduler.processDeployJobs m (j0 :: rest)) w = (w', GoVal true)
    /\ Scheduler.trace w'
       = (Scheduler.trace w
          ++ map (fun j => Scheduler.AUpdateStage j JobStage_Skipped None) (removelast S)
          ++ [Scheduler.AAdvance (List.last S j0)])%list
    /\ Scheduler.fresh w' = Scheduler.fresh w.
Proof.
  intros S. unfold run, Scheduler.processDeployJobs.
  unfold mbind at 1, St_bind at 1, Scheduler.JobsByMatcher at 1. cbv beta iota.
  rewrite HN. cbn [length Nat.eqb].
  rewrite (St_bind_ok _ _ _ _ _ (assert_string_ok _ _ _ w Hc)).
  destruct (collapseDeploys_run m c rest j0 w HS HOK) as (w' & R & T & F).
  rewrite (St_bind_ok _ _ _ _ _ R).
  eexists. split; [reflexivity|]. cbn. split; [|exact F].
  rewrite T, <- app_assoc. reflexivity.
Qed.

(** After a Completed deploy, [postProcessJob] queues exactly one job: a
    Workflow job with a fresh id, the post-deployment test parameters and
    a ts five minutes after now; the cache is not touched. Jobs that are
    not deploys, and deploys in stages other than Completed and Failed,
    cause nothing. *)
Theorem postProcessJob_effects (m : Scheduler.Manager) (js : JobState) (w : Scheduler.World)
    (Hnow : (0 <= Scheduler.Now m)%Z) :
  (JType js = JobType_Deploy -> Stage js = JobStage_Completed ->
   run (Scheduler.postProcessJob m js) w
   = (Scheduler.mkWorld (Scheduler.cache w) (S (Scheduler.fresh w))
        (Scheduler.trace w
         ++ [Scheduler.AQueueJob
               (mkJobState (Scheduler.NewUuid m (Scheduler.fresh w)) JobType_Workflow
                  JobStage_Queued (Scheduler.Now m + Scheduler.DefaultWaitTime)%Z
                  (Params (Scheduler.testWorkflowRequest m)))])%list,
      GoVal tt))
  /\ ((JType js <> JobType_Deploy
       \/ (Stage js <> JobStage_Completed /\ Stage js <> JobStage_Failed)) ->
      run (Scheduler.postProcessJob m js) w = (w, GoVal tt)).
Proof.
  split.
  - intros HT HS. unfold run, Scheduler.postProcessJob. rewrite HT, HS.
    unfold mbind, St_bind, Scheduler.NewJob. cbn [Scheduler.testWorkflowRequest JobId Ts JType Params String.eqb].
    assert (Hz : Z.eqb (Scheduler.Now m + Scheduler.DefaultWaitTime) 0 = false).
    { apply Z.eqb_neq. unfold Scheduler.DefaultWaitTime, Scheduler.Minute. lia. }
    rewrite Hz. reflexivity.
  - intros H. unfold run, Scheduler.postProcessJob.
    destruct (JType js); try reflexivity.
    destruct H as [H|[H1 H2]]; [congruence|].
    destruct (Stage js); congruence || reflexivity.
Qed.

(** ** Witnesses of the further properties *)

Lemma LaunchService_single_run_witness :
  (forall o : gmap string string, map_to_list o ≡ₚ map_to_list o) /\
  let c := Fixtures2.ecs_client in
  let envName := "qa" in let ResourceTag := "ceramic-env" in
  let cluster := "ceramic-qa-tests" in let service := "svc" in
  let family := "fam" in let container := "ctr" in
  let overrides := Fixtures2.one_override in
  let res := run (EcsApi.LaunchService c envName ResourceTag
                    (fun o : gmap string string => map_to_list o) cluster service family
                    container overrides) [] in
  (forall e, EcsApi.DescribeServices c cluster [service] = Err e ->
     res = ([EcsApi.CDescribeServices cluster [service]], GoVal (Err e)))
  /\ (forall out, EcsApi.DescribeServices c cluster [service] = Ok out ->
     EcsApi.Failures out <> [] ->
     res = ([EcsApi.CDescribeServices cluster [service]],
            GoVal (Err (EcsApi.fmt_failures (EcsApi.parseEcsFailures (EcsApi.Failures out))))))
  /\ (forall out s0 rest, EcsApi.DescribeServices c cluster [service] = Ok out ->
     EcsApi.Failures out = [] -> EcsApi.Services out = s0 :: rest ->
     exists input,
       fst res = [EcsApi.CDescribeServices cluster [service]; EcsApi.CRunTask input]
       /\ EcsApi.RTaskDefinition input = family /\ EcsApi.RCluster input = cluster
       /\ EcsApi.Count input = 1%Z /\ EcsApi.LaunchType input = "FARGATE"
       /\ EcsApi.RNetworkConfiguration input = EcsApi.NetworkConfiguration s0
       /\ EcsApi.StartedBy input = ServiceName /\ EcsApi.Tags input = [(ResourceTag, envName)]
       /\ (overrides = ∅ -> EcsApi.Overrides input = None)
       /\ (overrides <> ∅ -> exists env,
             EcsApi.Overrides input = Some [EcsApi.mkContainerOverride container env]
             /\ env ≡ₚ map_to_list overrides)
       /\ (forall e, EcsApi.RunTask c input = Err e -> snd res = GoVal (Err e))
       /\ (forall t ts a, EcsApi.RunTask c input = Ok (t :: ts) -> EcsApi.TaskArn t = Some a ->
             snd res = GoVal (Ok a))).
Proof.
  split; [intros o; reflexivity|].
  exact (LaunchService_single_run Fixtures2.ecs_client "qa" "ceramic-env"
           (fun o : gmap string string => map_to_list o) (fun o => reflexivity _)
           "ceramic-qa-tests" "svc" "fam" "ctr" Fixtures2.one_override).
Defined.

Lemma LaunchTask_single_run_witness :
  (forall o : gmap string string, map_to_list o ≡ₚ map_to_list o) /\
  let c := Fixtures2.ecs_client in
  let envName := "qa" in let ResourceTag := "ceramic-env" in
  let cluster := "ceramic-qa-tests" in let family := "fam" in let container := "ctr" in
  let vpcConfigParam := "/qa/vpc" in
  let overrides := Fixtures2.one_override in
  let res := run (EcsApi.LaunchTask c envName ResourceTag
                    (fun o : gmap string string => map_to_list o) cluster family container
                    vpcConfigParam overrides) [] in
  (forall e, EcsApi.GetParameter c vpcConfigParam = Err e ->
     res = ([EcsApi.CGetParameter vpcConfigParam], GoVal (Err e)))
  /\ (forall v e, EcsApi.GetParameter c vpcConfigParam = Ok (Some v) ->
     EcsApi.Unmarshal c v = Err e -> res = ([EcsApi.CGetParameter vpcConfigParam], GoVal (Err e)))
  /\ (forall v vpc, EcsApi.GetParameter c vpcConfigParam = Ok (Some v) ->
     EcsApi.Unmarshal c v = Ok vpc ->
     exists input,
       fst res = [EcsApi.CGetParameter vpcConfigParam; EcsApi.CRunTask input]
       /\ EcsApi.RTaskDefinition input = family /\ EcsApi.RCluster input = cluster
       /\ EcsApi.Count input = 1%Z /\ EcsApi.LaunchType input = "FARGATE"
       /\ EcsApi.RNetworkConfiguration input = Some vpc
       /\ EcsApi.StartedBy input = ServiceName /\ EcsApi.Tags input = [(ResourceTag, envName)]
       /\ (overrides = ∅ -> EcsApi.Overrides input = None)
       /\ (overrides <> ∅ -> exists env,
             EcsApi.Overrides input = Some [EcsApi.mkContainerOverride container env]
             /\ env ≡ₚ map_to_list overrides)
       /\ (forall e, EcsApi.RunTask c input = Err e -> snd res = GoVal (Err e))
       /\ (forall t ts a, EcsApi.RunTask c input = Ok (t :: ts) -> EcsApi.TaskArn t = Some a ->
             snd res = GoVal (Ok a))).
Proof.
  split; [intros o; reflexivity|].
  exact (LaunchTask_single_run Fixtures2.ecs_client "qa" "ceramic-env"
           (fun o : gmap string string => map_to_list o) (fun o => reflexivity _)
           "ceramic-qa-tests" "fam" "ctr" "/qa/vpc" Fixtures2.one_override).
Defined.

Lemma UpdateService_ok_witness :
  snd (run (EcsApi.UpdateService Fixtures2.ecs_client "qa" "ceramic-env" "ceramic-qa"
              "svc" "img:2") [])
  = GoVal (Ok "td:2") /\
  let c := Fixtures2.ecs_client in
  let envName := "qa" in let ResourceTag := "ceramic-env" in
  let cluster := "ceramic-qa" in let service := "svc" in let image := "img:2" in
  let a := "td:2" in
  exists out s0 rest td cd cds newTd,
    EcsApi.DescribeServices c cluster [service] = Ok out /\ EcsApi.Failures out = []
    /\ EcsApi.Services out = s0 :: rest
    /\ EcsApi.DescribeTaskDefinition c (EcsApi.STaskDefinition s0) = Ok (Some td)
    /\ EcsApi.ContainerDefinitions td = cd :: cds
    /\ let regIn := EcsApi.mkRegisterTaskDefinitionInput
                      (EcsApi.mkContainerDefinition (Some image) (EcsApi.CRest cd) :: cds)
                      (EcsApi.Family td) (EcsApi.Copied td) [(ResourceTag, envName)] in
       let updIn := EcsApi.mkUpdateServiceInput service cluster 1 true false (Some a) in
       EcsApi.RegisterTaskDefinition c regIn = Ok (Some newTd)
       /\ EcsApi.TaskDefinitionArn newTd = Some a
       /\ EcsApi.EcsUpdateService c updIn = Ok tt
       /\ fst (run (EcsApi.UpdateService c envName ResourceTag cluster service image) [])
          = [EcsApi.CDescribeServices cluster [service];
             EcsApi.CDescribeTaskDefinition (EcsApi.STaskDefinition s0);
             EcsApi.CRegisterTaskDefinition regIn; EcsApi.CUpdateService updIn].
Proof.
  assert (H : snd (run (EcsApi.UpdateService Fixtures2.ecs_client "qa" "ceramic-env" "ceramic-qa"
                          "svc" "img:2") []) = GoVal (Ok "td:2")) by reflexivity.
  split; [exact H|].
  exact (UpdateService_ok Fixtures2.ecs_client "qa" "ceramic-env" "ceramic-qa" "svc" "img:2"
           "td:2" H).
Defined.

Lemma startE2eTests_then_check_witness :
  e2e_launch Fixtures.deployment_ok Fixtures.no_env E2e.E2eTest_PrivatePublic = Ok "task-arn"
  /\ e2e_launch Fixtures.deployment_ok Fixtures.no_env E2e.E2eTest_LocalClientPublic = Ok "task-arn"
  /\ e2e_launch Fixtures.deployment_ok Fixtures.no_env E2e.E2eTest_LocalNodePrivate = Ok "task-arn"
  /\ let d := Fixtures.deployment_ok in let getenv := Fixtures.no_env in
     let js := Fixtures.e2e_waiting in let running := true in
     let i1 := "task-arn" in let i2 := "task-arn" in let i3 := "task-arn" in
  exists js',
    run (E2e.startE2eTests d getenv js) []
      = ([E2e.CLaunchService E2e.E2eTest_PrivatePublic;
          E2e.CLaunchService E2e.E2eTest_LocalClientPublic;
          E2e.CLaunchService E2e.E2eTest_LocalNodePrivate], GoVal (js', None))
    /\ JobId js' = JobId js /\ JType js' = JType js /\ Stage js' = Stage js /\ Ts js' = Ts js
    /\ param_string (Params js') E2e.E2eTest_PrivatePublic = Some i1
    /\ param_string (Params js') E2e.E2eTest_LocalClientPublic = Some i2
    /\ param_string (Params js') E2e.E2eTest_LocalNodePrivate = Some i3
    /\ (forall k, k <> E2e.E2eTest_PrivatePublic -> k <> E2e.E2eTest_LocalClientPublic ->
          k <> E2e.E2eTest_LocalNodePrivate -> Params js' !! k = Params js !! k)
    /\ (forall r1 r2 r3,
          D_CheckTask d running "ceramic-qa-tests" i1 = Ok r1 ->
          D_CheckTask d running "ceramic-qa-tests" i2 = Ok r2 ->
          D_CheckTask d running "ceramic-qa-tests" i3 = Ok r3 ->
          run (E2e.checkE2eTests d js' running) []
            = ([E2e.CCheckTask running i1; E2e.CCheckTask running i2; E2e.CCheckTask running i3],
               GoVal (r1 && r2 && r3, None))).
Proof.
  split; [reflexivity|]. split; [reflexivity|]. split; [reflexivity|].
  exact (startE2eTests_then_check Fixtures.deployment_ok Fixtures.no_env Fixtures.e2e_waiting
           "task-arn" "task-arn" "task-arn" true eq_refl eq_refl eq_refl).
Defined.

Lemma rollback_deploy_skipped_witness :
  param_string (Params Fixtures2.rollback_job) DeployJobParam_Component = Some DeployComponent_Ipfs
  /\ param_string (Params Fixtures2.rollback_job) DeployJobParam_Sha = Some "abc"
  /\ Params Fixtures2.rollback_job !! JobParam_Layout = None
  /\ param_bool (Params Fixtures2.rollback_job) DeployJobParam_Rollback = true
  /\ Stage Fixtures2.rollback_job = JobStage_Queued
  /\ GetDeployHashes Fixtures2.db_deployed = Ok (<[DeployComponent_Ipfs := "abc"]> ∅)
  /\ GenerateEnvLayout Fixtures.deployment_ok DeployComponent_Ipfs = Ok ∅
  /\ (forall j, DeployCtor.WriteJob Fixtures2.deps_ok j = None)
  /\ let db := Fixtures2.db_deployed in let d := Fixtures.deployment_ok in
     let dh : gmap string string := <[DeployComponent_Ipfs := "abc"]> ∅ in
  exists calls p dj,
    run (DeployCtor.DeployJob db d Fixtures2.deps_ok Fixtures.no_env "latest" (fun _ => true)
           (fun _ => "repo") (fun _ => "main") Fixtures2.rollback_job) []
    = (calls, GoVal (p, Ok dj))
    /\ Deploy.sha dj = map_index dh DeployComponent_Ipfs
    /\ run (Deploy.AdvanceJob db d 0 (fun _ => false) Fixtures.print_job dj) []
       = ([Deploy.CGetDeployHashes;
           Deploy.CNotifyJob (with_stage (Deploy.state dj) JobStage_Skipped);
           Deploy.CAdvanceJob (with_stage (Deploy.state dj) JobStage_Skipped)],
          GoVal (with_stage (Deploy.state dj) JobStage_Skipped,
                 Db_AdvanceJob db (with_stage (Deploy.state dj) JobStage_Skipped))).
Proof.
  do 7 (split; [reflexivity|]). split; [intros j; reflexivity|].
  exact (rollback_deploy_skipped Fixtures2.db_deployed Fixtures.deployment_ok Fixtures2.deps_ok
           Fixtures.no_env "latest" (fun _ => true) (fun _ => "repo") (fun _ => "main")
           0 (fun _ => false) Fixtures.print_job Fixtures2.rollback_job DeployComponent_Ipfs "abc" ∅
           (<[DeployComponent_Ipfs := "abc"]> ∅)
           eq_refl eq_refl eq_refl eq_refl eq_refl eq_refl eq_refl (fun j => eq_refl)).
Defined.

Lemma reloaded_deploy_not_manual_witness :
  param_string (Params Fixtures2.reloaded_job) DeployJobParam_Component = Some DeployComponent_Ipfs
  /\ param_string (Params Fixtures2.reloaded_job) DeployJobParam_Sha = Some "abc"
  /\ Params Fixtures2.reloaded_job !! JobParam_Layout = Some (VLayout Fixtures.ipfs_layout)
  /\ Stage Fixtures2.reloaded_job = JobStage_Queued
  /\ GetDeployHashes Fixtures2.db_deployed = Ok (<[DeployComponent_Ipfs := "abc"]> ∅)
  /\ map_index (<[DeployComponent_Ipfs := "abc"]> ∅) DeployComponent_Ipfs = "abc"
  /\ param_bool (Params Fixtures2.reloaded_job) JobParam_Manual = true
  /\ let db := Fixtures2.db_deployed in let d := Fixtures.deployment_ok in
     let js := Fixtures2.reloaded_job in let c := DeployComponent_Ipfs in let s := "abc" in
  run (DeployCtor.DeployJob db d Fixtures2.deps_ok Fixtures.no_env "latest" (fun _ => true)
         (fun _ => "repo") (fun _ => "main") js) []
    = ([], GoVal (Params js, Ok (Deploy.mkDeployJob js c s false)))
  /\ run (Deploy.AdvanceJob db d 0 (fun _ => false) Fixtures.print_job (Deploy.mkDeployJob js c s false)) []
     = ([Deploy.CGetDeployHashes;
         Deploy.CNotifyJob (with_stage js JobStage_Skipped);
         Deploy.CAdvanceJob (with_stage js JobStage_Skipped)],
        GoVal (with_stage js JobStage_Skipped, Db_AdvanceJob db (with_stage js JobStage_Skipped))).
Proof.
  do 7 (split; [reflexivity|]).
  exact (reloaded_deploy_not_manual Fixtures2.db_deployed Fixtures.deployment_ok Fixtures2.deps_ok
           Fixtures.no_env "latest" (fun _ => true) (fun _ => "repo") (fun _ => "main")
           0 (fun _ => false) Fixtures.print_job Fixtures2.reloaded_job DeployComponent_Ipfs "abc"
           (VLayout Fixtures.ipfs_layout) (<[DeployComponent_Ipfs := "abc"]> ∅)
           eq_refl eq_refl eq_refl eq_refl eq_refl eq_refl).
Defined.

Lemma NewJobManager_anchor_config_witness :
  (Config.int_min <= -1 <= Config.int_max)%Z /\ (Config.int_min <= 0 <= Config.int_max)%Z
  /\ Fixtures2.env_max_unbounded "CAS_MAX_ANCHOR_WORKERS" = Some (pretty (-1)%Z)
  /\ Fixtures2.env_max_unbounded "CAS_MIN_ANCHOR_WORKERS" = None
  /\ let lookupEnv := Fixtures2.env_max_unbounded in let EnvVar_Env := "ENV" in
     let n := (-1)%Z in let m := 0%Z in
  ((m <= n)%Z ->
     exists cfg, Config.NewJobManager lookupEnv EnvVar_Env = Ok cfg
       /\ Config.maxAnchorJobs cfg = n /\ Config.minAnchorJobs cfg = m
       /\ Config.paused cfg
          = existsb (String.eqb (default "" (lookupEnv "PAUSED")))
              ["1"; "t"; "T"; "TRUE"; "true"; "True"]
       /\ Config.env cfg = default "" (lookupEnv EnvVar_Env))
  /\ ((n < m)%Z ->
      Config.NewJobManager lookupEnv EnvVar_Env
      = Err ("newJobManager: invalid anchor worker config: " ++ pretty m ++ ", " ++ pretty n)).
Proof.
  assert (Hn : (Config.int_min <= -1 <= Config.int_max)%Z)
    by (unfold Config.int_min, Config.int_max; lia).
  assert (Hm : (Config.int_min <= 0 <= Config.int_max)%Z)
    by (unfold Config.int_min, Config.int_max; lia).
  assert (HX : Fixtures2.env_max_unbounded "CAS_MAX_ANCHOR_WORKERS" = Some (pretty (-1)%Z))
    by reflexivity.
  assert (HN : Fixtures2.env_max_unbounded "CAS_MIN_ANCHOR_WORKERS" = None) by reflexivity.
  split; [exact Hn|]. split; [exact Hm|]. split; [exact HX|]. split; [exact HN|].
  exact (NewJobManager_anchor_config Fixtures2.env_max_unbounded "ENV" (-1) 0 Hn Hm
           (or_introl HX) (or_intror (conj HN eq_refl))).
Defined.

Lemma processDequeued_blocked_by_deploy_witness :
  let m := Fixtures.mgr Fixtures.db_ok 1 0 (fun _ _ _ => None) in
  let w := Fixtures.world [Fixtures.dep0] in
  let D := [Fixtures.dep1; Fixtures.anchor_job "a1"] in
  Scheduler.cache w !! "dep-0" = Some Fixtures.dep0
  /\ Scheduler.IsActiveJob m Fixtures.dep0 = true
  /\ JType Fixtures.dep0 = JobType_Deploy
  /\ (forall j, In j D -> Scheduler.is_type JobType_Deploy j
                         && param_bool (Params j) DeployJobParam_Force = false)
  /\ run (Scheduler.processDequeued m D) w = (w, GoVal tt).
Proof.
  intros m w D.
  assert (Ha : Scheduler.cache w !! "dep-0" = Some Fixtures.dep0) by reflexivity.
  assert (HF : forall j, In j D -> Scheduler.is_type JobType_Deploy j
                               && param_bool (Params j) DeployJobParam_Force = false)
    by (intros j [<-|[<-|[]]]; reflexivity).
  split; [exact Ha|]. split; [reflexivity|]. split; [reflexivity|]. split; [exact HF|].
  exact (processDequeued_blocked_by_deploy m D w "dep-0" Fixtures.dep0 Ha eq_refl eq_refl HF).
Defined.

Lemma processDeployJobs_collapse_witness :
  let m := Fixtures.mgr Fixtures.db_ok 1 0 (fun _ _ _ => None) in
  let w := Fixtures.world [Fixtures2.done_job] in
  let j0 := Fixtures2.ipfs_deploy "d1" in let rest := Fixtures2.collapse_rest in
  let c := DeployComponent_Ipfs in
  List.filter (Scheduler.IsActiveJob m) (map snd (map_to_list (Scheduler.cache w))) = []
  /\ param_string (Params j0) DeployJobParam_Component = Some c
  /\ (forall j, In j (beforeTest rest) -> Scheduler.is_type JobType_Deploy j = true ->
                param_string (Params j) DeployJobParam_Component <> None)
  /\ (forall j, In j (j0 :: List.filter (same_component_deploy c) (beforeTest rest)) ->
                Scheduler.AdvanceStage m j JobStage_Skipped None = None)
  /\ let S := j0 :: List.filter (same_component_deploy c) (beforeTest rest) in
  exists w',
    run (Scheduler.processDeployJobs m (j0 :: rest)) w = (w', GoVal true)
    /\ Scheduler.trace w'
       = (Scheduler.trace w
          ++ map (fun j => Scheduler.AUpdateStage j JobStage_Skipped None) (removelast S)
          ++ [Scheduler.AAdvance (List.last S j0)])%list
    /\ Scheduler.fresh w' = Scheduler.fresh w.
Proof.
  intros m w j0 rest c.
  assert (HN : List.filter (Scheduler.IsActiveJob m) (map snd (map_to_list (Scheduler.cache w)))
               = []) by reflexivity.
  assert (HS : forall j, In j (beforeTest rest) -> Scheduler.is_type JobType_Deploy j = true ->
                         param_string (Params j) DeployJobParam_Component <> None)
    by (intros j Hin _; cbv [rest Fixtures2.collapse_rest beforeTest] in Hin;
        repeat (destruct Hin as [<-|Hin]; [discriminate|]); destruct Hin).
  assert (HOK : forall j, In j (j0 :: List.filter (same_component_deploy c) (beforeTest rest)) ->
                          Scheduler.AdvanceStage m j JobStage_Skipped None = None)
    by (intros j _; reflexivity).
  split; [exact HN|]. split; [reflexivity|]. split; [exact HS|]. split; [exact HOK|].
  exact (processDeployJobs_collapse m j0 rest c w HN eq_refl HS HOK).
Defined.

Lemma postProcessJob_effects_witness :
  (0 <= Scheduler.Now (Fixtures.mgr Fixtures.db_ok 1 0 (fun _ _ _ => None)))%Z /\
  let m := Fixtures.mgr Fixtures.db_ok 1 0 (fun _ _ _ => None) in
  let js := Fixtures2.ipfs_deploy "d1" in let w := Fixtures.world [] in
  (JType js = JobType_Deploy -> Stage js = JobStage_Completed ->
   run (Scheduler.postProcessJob m js) w
   = (Scheduler.mkWorld (Scheduler.cache w) (S (Scheduler.fresh w))
        (Scheduler.trace w
         ++ [Scheduler.AQueueJob
               (mkJobState (Scheduler.NewUuid m (Scheduler.fresh w)) JobType_Workflow
                  JobStage_Queued (Scheduler.Now m + Scheduler.DefaultWaitTime)%Z
                  (Params (Scheduler.testWorkflowRequest m)))])%list,
      GoVal tt))
  /\ ((JType js <> JobType_Deploy
       \/ (Stage js <> JobStage_Completed /\ Stage js <> JobStage_Failed)) ->
      run (Scheduler.postProcessJob m js) w = (w, GoVal tt)).
Proof.
  assert (H : (0 <= Scheduler.Now (Fixtures.mgr Fixtures.db_ok 1 0 (fun _ _ _ => None)))%Z)
    by (cbn; lia).
  split; [exact H|].
  exact (postProcessJob_effects (Fixtures.mgr Fixtures.db_ok 1 0 (fun _ _ _ => None))
           (Fixtures2.ipfs_deploy "d1") (Fixtures.world []) H).
Defined.
